(** * AFC lane control and motor assist: a shallow embedding

    Model of [extras/AFC_stepper.py] and [extras/wheel_sensor.py].

    Conventions.
    - Python floats are modelled as real numbers [R]; rounding is not
      modelled, so every arithmetic identity below is an identity of exact
      arithmetic. Where rounding, overflow or underflow decide what the
      code does, the statements keep to what holds for binary64 floats as
      well, and [Binary64] runs the segment loop of [move] on IEEE 754
      binary64 floats.
    - Python exceptions are explicit: pure fallible code returns a [result],
      stateful code runs in the monad [M], in which the state written before
      an exception was raised survives the exception.
    - [while] loops take a fuel argument; running out of fuel is the outcome
      [Diverge], and the theorems show how much fuel is enough. *)

From Stdlib Require Import Reals Lra Lia List Bool ZArith String.
From Stdlib Require Floats.
Import ListNotations.
Open Scope R_scope.

(** ** Exceptions and fallible arithmetic *)

Inductive exn : Type :=
| ZeroDivisionError
| ValueError
| TypeError
| BackendError.

Inductive result (A : Type) : Type :=
| Ok (a : A)
| Raise (e : exn).
Arguments Ok {A} a.
Arguments Raise {A} e.

Definition rbind {A B : Type} (r : result A) (k : A -> result B) : result B :=
  match r with
  | Ok a => k a
  | Raise e => Raise e
  end.

Declare Scope result_scope.
Delimit Scope result_scope with result.
Notation "x <- r ;; k" := (rbind r (fun x => k))
  (at level 61, r at next level, right associativity) : result_scope.

(** [x / y] on floats: [ZeroDivisionError] when the divisor is zero. *)
Definition fdiv (x y : R) : result R :=
  if Req_dec_T y 0 then Raise ZeroDivisionError else Ok (x / y).

(** [math.sqrt]: [ValueError] (math domain error) on a negative argument. *)
Definition math_sqrt (x : R) : result R :=
  if Rlt_dec x 0 then Raise ValueError else Ok (sqrt x).

(** [x ** 0.5]: on a negative float Python yields a complex number, which the
    callers here then feed to [min], a [TypeError]; the exception is placed
    at the power, ahead of the [min] that raises it in the code. The
    radicand is not negative for a weight that is not negative and a
    positive density. *)
Definition pow_half (x : R) : result R :=
  if Rlt_dec x 0 then Raise TypeError else Ok (sqrt x).

(** [x is not None], and the truth value of an object reference. *)
Definition bound {A : Type} (x : option A) : bool :=
  match x with
  | Some _ => true
  | None => false
  end.

(** ** Motion segmenter: timing of one segment *)

Local Open Scope result_scope.

(** [calc_move_time(dist, speed, accel)]; the tuple is
    [(axis_r, accel_t, cruise_t, speed)]. Over the reals [speed ** 2] does
    not overflow and [dist * accel] does not underflow to zero; on floats
    the first raises [OverflowError] above about [1.3e154] and the second
    lets the division by the peak speed fail, so the statements about a
    returned profile keep to [|speed| <= 1e154] and [dist * accel] of at
    least [1e-300] or zero. *)
Definition calc_move_time (dist speed accel : R) : result (R * R * R * R) :=
  let axis_r := if Rlt_dec dist 0 then -1 else 1 in
  let dist := if Rlt_dec dist 0 then - dist else dist in
  let constant_velocity :=
    cruise_t <- fdiv dist speed ;;
    Ok (axis_r, 0, cruise_t, speed) in
  if Req_dec_T accel 0 then constant_velocity
  else if Req_dec_T dist 0 then constant_velocity
  else
    let max_cruise_v2 := dist * accel in
    speed <- (if Rlt_dec max_cruise_v2 (speed ^ 2)
              then math_sqrt max_cruise_v2 else Ok speed) ;;
    accel_t <- fdiv speed accel ;;
    let accel_decel_d := accel_t * speed in
    cruise_t <- fdiv (dist - accel_decel_d) speed ;;
    Ok (axis_r, accel_t, cruise_t, speed).

(** Duration of the segment that [_move] hands to the motion queue:
    [accel_t + cruise_t + accel_t]. *)
Definition segment_duration (r : R * R * R * R) : R :=
  let '(_, accel_t, cruise_t, _) := r in accel_t + cruise_t + accel_t.

(** ** Lane configuration *)

(** An [AFCassistMotor] output channel, as far as [assist] reads it. *)
Record motor : Type := {
  scale : R;
  is_pwm : bool
}.

(** The attributes of [AFCExtruderStepper] that are fixed once the lane is
    attached. [load] is the load pin ([None] when no pin is configured). *)
Record lane_config : Type := {
  afc_motor_rwd : option motor;
  afc_motor_fwd : option motor;
  afc_motor_enb : option motor;
  load : option string;
  n20_break_delay_time : R;
  max_move_dis : R;
  wheel_follow_pwm : R;
  wheel_follow_min_rpm : R;
  tension_baseline_min_rpm : R;
  tension_drop_fraction : R;
  tension_max_time : R;
  filament_diameter : R;
  filament_density : R;
  inner_diameter : R;
  empty_spool_weight : R;
  max_motor_rpm : R;
  rwd_speed_multi : R;
  fwd_speed_multi : R
}.

(** ** Spool model: effective diameter, RPM, PWM duty, remaining weight *)

(** [calculate_effective_diameter(weight_g, spool_width_mm=60)]. *)
Definition calculate_effective_diameter (c : lane_config) (weight_g : R) : result R :=
  let spool_width_mm := 60 in
  let density_g_mm3 := filament_density c / 1000 in
  filament_volume_mm3 <- fdiv weight_g density_g_mm3 ;;
  let package_corrected_volume_mm3 := filament_volume_mm3 / 0.785 in
  let filament_area_mm2 := package_corrected_volume_mm3 / spool_width_mm in
  let spool_outer_diameter_mm2 :=
    4 * filament_area_mm2 / 3.14159 + inner_diameter c ^ 2 in
  pow_half spool_outer_diameter_mm2.

(** [calculate_rpm(feed_rate)], reading [self.remaining_weight]. *)
Definition calculate_rpm (c : lane_config) (remaining_weight feed_rate : R) : result R :=
  if Rle_dec remaining_weight (empty_spool_weight c) then Ok 0
  else
    effective_diameter <- calculate_effective_diameter c remaining_weight ;;
    rpm <- fdiv (feed_rate * 60) (PI * effective_diameter) ;;
    Ok (Rmin rpm (max_motor_rpm c)).

(** [calculate_pwm_value(feed_rate, rewind=False)]. *)
Definition calculate_pwm_value (c : lane_config) (remaining_weight feed_rate : R)
    (rewind : bool) : result R :=
  rpm <- calculate_rpm c remaining_weight feed_rate ;;
  pwm_value <-
    (if negb rewind then
       full <- fdiv (max_motor_rpm c) (1 + 9 * fwd_speed_multi c) ;;
       fdiv rpm full
     else
       full <- fdiv (max_motor_rpm c) (15 + 15 * rwd_speed_multi c) ;;
       fdiv rpm full) ;;
  Ok (Rmax 0 (Rmin pwm_value 1)).

(** [update_remaining_weight(distance_moved)]: the new value of
    [self.remaining_weight]. *)
Definition update_remaining_weight (c : lane_config) (remaining_weight distance_moved : R) : R :=
  let filament_volume_mm3 := PI * (filament_diameter c / 2) ^ 2 * distance_moved in
  let filament_weight_change := filament_volume_mm3 * filament_density c / 1000 in
  let remaining_weight := remaining_weight - filament_weight_change in
  if Rlt_dec remaining_weight (empty_spool_weight c)
  then empty_spool_weight c
  else remaining_weight.

(** ** The standalone wheel sensor *)

Module WheelSensor.

Record sensor : Type := {
  pulses_per_rev : R;
  _pulse_count : Z;
  _prev_state : bool;
  _last_time : R
}.

(** [_edge_callback(eventtime, state)]: count rising edges. *)
Definition _edge_callback (eventtime : R) (state : bool) (s : sensor) : sensor :=
  {| pulses_per_rev := pulses_per_rev s;
     _pulse_count :=
       if negb (_prev_state s) && state then (_pulse_count s + 1)%Z else _pulse_count s;
     _prev_state := state;
     _last_time := _last_time s |}.

(** [get_rpm()], with [now] the value of [self.reactor.monotonic()]. The
    counter and the time stamp are reset before the quotient is computed. *)
Definition get_rpm (now : R) (s : sensor) : result (option R * option R) * sensor :=
  let dt := now - _last_time s in
  if Rle_dec dt 0 then (Ok (None, None), s)
  else
    let pulses := _pulse_count s in
    let s' := {| pulses_per_rev := pulses_per_rev s;
                 _pulse_count := 0;
                 _prev_state := _prev_state s;
                 _last_time := now |} in
    (revs <- fdiv (IZR pulses) (pulses_per_rev s) ;;
     per_second <- fdiv revs dt ;;
     let rpm := per_second * 60 in
     Ok (Some rpm, Some rpm),
     s').

End WheelSensor.

(** ** Effects of the lane: events, outcomes and the monad [M] *)

Inductive pin : Type := Rwd | Fwd | Enb.

Inductive message : Type :=
| MsgCannotRewind           (* "Cannot perform tension-based rewind ..." *)
| MsgBaselineNotFound       (* "Baseline RPM not found; stopping rewind." *)
| MsgRpm (wheel_rpm motor_rpm : R)   (* "Wheel RPM: ..  |  Motor RPM: .." *)
| MsgTensionDetected (cutoff : R)    (* "Tension detected (RPM < ..)" *)
| MsgFailedToLoad.          (* " FAILED TO LOAD, CHECK FILAMENT AT TRIGGER ..." *)

(** What the lane does to its collaborators, in the order it does it.
    [Assist] and [MoveSegment] record the entry into [assist] and [_move];
    [FollowPaused] records an assignment to [self._wheel_follow_paused], the
    flag the follow controller reads. *)
Inductive event : Type :=
| Assist (value : R)
| SetPin (p : pin) (value : R)
| FollowPaused (b : bool)
| MoveSegment (distance speed accel : R) (assist_active : bool)
| TrapqAppend (axis_r accel_t cruise_t cruise_v accel : R)
| Dwell (t : R)
| MotorEnable (enable : bool)
| LogInfo (m : message)
| RespondInfo (m : message)
| AfcError (m : message) (pause : bool)
| LedFault.

Inductive outcome (A : Type) : Type :=
| Ret (a : A)
| Exc (e : exn)
| Diverge.
Arguments Ret {A} a.
Arguments Exc {A} e.
Arguments Diverge {A}.

(** The lane's surroundings. The wheel sensor bound to the lane is any object
    with a [get_rpm] method: a state and a function of the reactor time.
    [edges t] is what the prep and load edge callbacks, run by the reactor
    while the lane is suspended until time [t], make of the latched levels
    [(prep_state, load_state)]. *)
Record environment (Sensor : Type) : Type := {
  sensor_get_rpm : R -> Sensor -> result (option R * option R) * Sensor;
  edges : R -> bool * bool -> bool * bool
}.
Arguments sensor_get_rpm {Sensor} e now st.
Arguments edges {Sensor} e t levels.

Declare Scope lane_scope.
Delimit Scope lane_scope with lane.

Section Lane.

Variable Sensor : Type.
Variable env : environment Sensor.

(** The mutable attributes of the lane, and the reactor's clock. *)
Record lane : Type := {
  config : lane_config;
  wheel_sensor : option Sensor;
  remaining_weight : R;
  _wheel_follow_paused : bool;
  assist_activate : bool;
  prep_state : bool;
  load_state : bool;
  status : option string;
  monotonic : R
}.

Definition set_wheel_sensor (v : option Sensor) (s : lane) : lane :=
  {| config := config s; wheel_sensor := v; remaining_weight := remaining_weight s;
     _wheel_follow_paused := _wheel_follow_paused s; assist_activate := assist_activate s;
     prep_state := prep_state s; load_state := load_state s; status := status s;
     monotonic := monotonic s |}.

Definition set_remaining_weight (v : R) (s : lane) : lane :=
  {| config := config s; wheel_sensor := wheel_sensor s; remaining_weight := v;
     _wheel_follow_paused := _wheel_follow_paused s; assist_activate := assist_activate s;
     prep_state := prep_state s; load_state := load_state s; status := status s;
     monotonic := monotonic s |}.

Definition set_wheel_follow_paused (v : bool) (s : lane) : lane :=
  {| config := config s; wheel_sensor := wheel_sensor s; remaining_weight := remaining_weight s;
     _wheel_follow_paused := v; assist_activate := assist_activate s;
     prep_state := prep_state s; load_state := load_state s; status := status s;
     monotonic := monotonic s |}.

Definition set_assist_activate (v : bool) (s : lane) : lane :=
  {| config := config s; wheel_sensor := wheel_sensor s; remaining_weight := remaining_weight s;
     _wheel_follow_paused := _wheel_follow_paused s; assist_activate := v;
     prep_state := prep_state s; load_state := load_state s; status := status s;
     monotonic := monotonic s |}.

Definition set_status (v : option string) (s : lane) : lane :=
  {| config := config s; wheel_sensor := wheel_sensor s; remaining_weight := remaining_weight s;
     _wheel_follow_paused := _wheel_follow_paused s; assist_activate := assist_activate s;
     prep_state := prep_state s; load_state := load_state s; status := v;
     monotonic := monotonic s |}.

(** The reactor has run until time [t]: the clock reads [t] and the edge
    callbacks delivered meanwhile have latched their levels. *)
Definition suspended_until (t : R) (s : lane) : lane :=
  let levels := edges env t (prep_state s, load_state s) in
  {| config := config s; wheel_sensor := wheel_sensor s; remaining_weight := remaining_weight s;
     _wheel_follow_paused := _wheel_follow_paused s; assist_activate := assist_activate s;
     prep_state := fst levels; load_state := snd levels; status := status s;
     monotonic := t |}.

Definition M (A : Type) : Type := lane -> outcome A * lane * list event.

Definition ret {A : Type} (a : A) : M A := fun s => (Ret a, s, []).

Definition bind {A B : Type} (m : M A) (k : A -> M B) : M B := fun s =>
  match m s with
  | (Ret a, s1, l1) => let '(o, s2, l2) := k a s1 in (o, s2, l1 ++ l2)
  | (Exc e, s1, l1) => (Exc e, s1, l1)
  | (Diverge, s1, l1) => (Diverge, s1, l1)
  end.

Definition raise {A : Type} (e : exn) : M A := fun s => (Exc e, s, []).
Definition diverge {A : Type} : M A := fun s => (Diverge, s, []).
Definition get : M lane := fun s => (Ret s, s, []).
Definition modify (f : lane -> lane) : M unit := fun s => (Ret tt, f s, []).
Definition emit (e : event) : M unit := fun s => (Ret tt, s, [e]).

Definition lift {A : Type} (r : result A) : M A :=
  match r with
  | Ok a => ret a
  | Raise e => raise e
  end.

(** Run [m] and hand its exception, if any, to the caller as a value. *)
Definition attempt {A : Type} (m : M A) : M (result A) := fun s =>
  match m s with
  | (Ret a, s1, l1) => (Ret (Ok a), s1, l1)
  | (Exc e, s1, l1) => (Ret (Raise e), s1, l1)
  | (Diverge, s1, l1) => (Diverge, s1, l1)
  end.

Local Notation "x <- m ;; k" := (bind m (fun x => k))
  (at level 61, m at next level, right associativity) : lane_scope.
Local Notation "m ;; k" := (bind m (fun _ => k))
  (at level 61, right associativity) : lane_scope.
Local Open Scope lane_scope.

(** [self.reactor.pause(self.reactor.monotonic() + delay)]. *)
Definition reactor_pause (delay : R) : M unit :=
  modify (fun s => suspended_until (Rmax (monotonic s) (monotonic s + delay)) s).

(** [sensor.get_rpm()] on the bound sensor. *)
Definition sensor_read : M (option R * option R) :=
  s <- get ;;
  match wheel_sensor s with
  | Some st =>
      let '(r, st') := sensor_get_rpm env (monotonic s) st in
      modify (set_wheel_sensor (Some st')) ;;
      lift r
  | None => raise TypeError
  end.

(** ** Assist controller *)

(** [brake_n20()]: hold all three channels, wait, release. *)
Definition brake_n20 : M unit :=
  s <- get ;;
  let fwd := afc_motor_fwd (config s) in
  emit (SetPin Rwd 1) ;;
  emit (SetPin Enb 1) ;;
  (if bound fwd then emit (SetPin Fwd 1) else ret tt) ;;
  reactor_pause (n20_break_delay_time (config s)) ;;
  emit (SetPin Rwd 0) ;;
  emit (SetPin Enb 0) ;;
  (if bound fwd then emit (SetPin Fwd 0) else ret tt).

(** The tail of [assist] once the channel is chosen: scale, binarize,
    enable, drive. *)
Definition drive (p : pin) (assit_motor : motor) (value : R) : M unit :=
  s <- get ;;
  value <- lift (fdiv value (scale assit_motor)) ;;
  let value :=
    if negb (is_pwm assit_motor) then
      if Req_dec_T value 0 then value
      else if Req_dec_T value 1 then value
      else if Rgt_dec value 0 then 1 else value
    else value in
  (if bound (afc_motor_enb (config s)) then
     emit (SetPin Enb (if Req_dec_T value 0 then 0 else 1))
   else ret tt) ;;
  emit (SetPin p value).

(** [assist(value)]. *)
Definition assist (value : R) : M unit :=
  emit (Assist value) ;;
  s <- get ;;
  match afc_motor_rwd (config s) with
  | None => ret tt
  | Some rwd =>
      if Rlt_dec value 0 then drive Rwd rwd (value * -1)
      else if Rgt_dec value 0 then
        match afc_motor_fwd (config s) with
        | None => ret tt
        | Some fwd => drive Fwd fwd value
        end
      else
        if bound (afc_motor_enb (config s)) then brake_n20
        else emit (SetPin Rwd value)
  end.

(** [calculate_pwm_value] on the lane's current weight. *)
Definition lane_pwm_value (feed_rate : R) (rewind : bool) : M R :=
  s <- get ;;
  lift (calculate_pwm_value (config s) (remaining_weight s) feed_rate rewind).

(** ** Tension rewind controller *)

(** [f"{x:.1f}"]: formatting [None] with a float format is a [TypeError]. *)
Definition format_1f (x : option R) : result R :=
  match x with
  | Some v => Ok v
  | None => Raise TypeError
  end.

(** The baseline loop of [rewind_until_tension]; it returns
    [(baseline_rpm, (wheel_rpm, motor_rpm))]. *)
Fixpoint baseline_loop (fuel : nat) (start_time : R) (rpm : option R * option R)
    : M (option R * (option R * option R)) :=
  match fuel with
  | O => diverge
  | S fuel =>
      s <- get ;;
      if Rlt_dec (monotonic s - start_time) 2 then
        rpm <- sensor_read ;;
        match fst rpm with
        | Some wheel_rpm =>
            if Rgt_dec wheel_rpm (tension_baseline_min_rpm (config s))
            then ret (Some wheel_rpm, rpm)
            else reactor_pause 0.1 ;; baseline_loop fuel start_time rpm
        | None => reactor_pause 0.1 ;; baseline_loop fuel start_time rpm
        end
      else ret (None, rpm)
  end.

(** The regulation loop of [rewind_until_tension]; it returns the last
    [(wheel_rpm, motor_rpm)]. *)
Fixpoint regulation_loop (fuel : nat) (start_time cutoff target_rpm pwm_val : R)
    (rpm : option R * option R) : M (option R * option R) :=
  match fuel with
  | O => diverge
  | S fuel =>
      s <- get ;;
      if Rlt_dec (monotonic s - start_time) (tension_max_time (config s)) then
        rpm <- sensor_read ;;
        match fst rpm with
        | Some wheel_rpm =>
            pwm_val <-
              (if Rlt_dec wheel_rpm (target_rpm * 0.9) then
                 let pwm_val := Rmax (pwm_val - 0.05) (-1) in
                 assist pwm_val ;; ret pwm_val
               else if Rgt_dec wheel_rpm (target_rpm * 1.1) then
                 let pwm_val := Rmin (pwm_val + 0.05) 0 in
                 assist pwm_val ;; ret pwm_val
               else ret pwm_val) ;;
            if Rlt_dec wheel_rpm cutoff then ret rpm
            else reactor_pause 0.1 ;;
                 regulation_loop fuel start_time cutoff target_rpm pwm_val rpm
        | None =>
            reactor_pause 0.1 ;;
            regulation_loop fuel start_time cutoff target_rpm pwm_val rpm
        end
      else ret rpm
  end.

(** [rewind_until_tension(speed)]. *)
Definition rewind_until_tension (fuel : nat) (speed : R) : M unit :=
  s <- get ;;
  match wheel_sensor s, afc_motor_rwd (config s) with
  | Some _, Some _ =>
      pwm_val <- lane_pwm_value speed true ;;
      let pwm_val := if Rgt_dec pwm_val 1 then 1 else pwm_val in
      let pwm_val := - pwm_val in
      assist pwm_val ;;
      start <- get ;;
      let start_time := monotonic start in
      found <- baseline_loop fuel start_time (Some 0, Some 0) ;;
      match fst found with
      | None =>
          assist 0 ;;
          emit (LogInfo MsgBaselineNotFound)
      | Some baseline_rpm =>
          let cutoff := baseline_rpm * tension_drop_fraction (config s) in
          let target_rpm := baseline_rpm in
          rpm <- regulation_loop fuel start_time cutoff target_rpm pwm_val (snd found) ;;
          wheel_rpm <- lift (format_1f (fst rpm)) ;;
          motor_rpm <- lift (format_1f (snd rpm)) ;;
          emit (RespondInfo (MsgRpm wheel_rpm motor_rpm)) ;;
          assist 0 ;;
          emit (RespondInfo (MsgTensionDetected cutoff))
      end
  | _, _ => emit (LogInfo MsgCannotRewind)
  end.

(** [assist_move] is a generator-based context manager with two [yield]
    statements; [with] runs it up to a [yield], runs the block, then resumes
    the generator, or throws the block's exception into it at that
    [yield]. *)
Inductive yield_point : Type :=
| YieldAfterRewind      (* the bare [yield] after [rewind_until_tension] *)
| YieldInTry.           (* the [yield] inside [try: ... finally:] *)

(** [assist_move] up to its [yield]. *)
Definition assist_move_enter (fuel : nat) (speed : R) (rewind assist_active : bool)
    : M yield_point :=
  if assist_active then
    modify (set_wheel_follow_paused true) ;; emit (FollowPaused true) ;;
    s <- get ;;
    if rewind && bound (wheel_sensor s) then
      rewind_until_tension fuel speed ;;
      ret YieldAfterRewind
    else
      value <- (if rewind
                then v <- lane_pwm_value speed true ;; ret (v * -1)
                else lane_pwm_value speed false) ;;
      let value := if Rgt_dec value 1 then 1 else value in
      assist value ;;
      ret YieldInTry
  else ret YieldInTry.

(** The [finally] block of [assist_move]. *)
Definition assist_move_finally (rewind assist_active : bool) : M unit :=
  s <- get ;;
  (if assist_active && negb (rewind && bound (wheel_sensor s))
   then assist 0 else ret tt) ;;
  modify (set_wheel_follow_paused false) ;; emit (FollowPaused false).

(** [assist_move] resumed after the block completed. *)
Definition assist_move_resume (y : yield_point) (rewind assist_active : bool) : M unit :=
  match y with
  | YieldAfterRewind =>
      modify (set_wheel_follow_paused false) ;; emit (FollowPaused false)
  | YieldInTry => assist_move_finally rewind assist_active
  end.

(** [assist_move] when the block raised [e]: the exception is thrown in at
    the [yield]. *)
Definition assist_move_throw {A : Type} (y : yield_point) (e : exn)
    (rewind assist_active : bool) : M A :=
  match y with
  | YieldAfterRewind => raise e
  | YieldInTry => assist_move_finally rewind assist_active ;; raise e
  end.

(** [with self.assist_move(speed, rewind, assist_active): block]. *)
Definition with_assist_move {A : Type} (fuel : nat) (speed : R)
    (rewind assist_active : bool) (block : M A) : M A :=
  y <- assist_move_enter fuel speed rewind assist_active ;;
  r <- attempt block ;;
  match r with
  | Ok a => assist_move_resume y rewind assist_active ;; ret a
  | Raise e => assist_move_throw y e rewind assist_active
  end.

(** ** Follow controller *)

(** [_wheel_follow_handler(eventtime)]; the result is the next wake time. *)
Definition _wheel_follow_handler (eventtime : R) : M R :=
  s <- get ;;
  if _wheel_follow_paused s then ret (eventtime + 0.1)
  else
    rpm <- (if bound (wheel_sensor s) then r <- sensor_read ;; ret (fst r)
            else ret None) ;;
    s <- get ;;
    let inactive :=
      if assist_activate s
      then assist 0 ;; modify (set_assist_activate false)
      else ret tt in
    match rpm with
    | Some rpm =>
        if Rge_dec rpm (wheel_follow_min_rpm (config s)) then
          if negb (assist_activate s) then
            let pwm := Rmax 0 (Rmin (wheel_follow_pwm (config s)) 1) in
            assist pwm ;; modify (set_assist_activate true)
          else ret tt
        else inactive
    | None => inactive
    end ;;
    ret (eventtime + 0.1).

(** [n] consecutive timer ticks: each tick runs the handler at the wake time
    the previous one returned. *)
Fixpoint follow_ticks (n : nat) (eventtime : R) : M R :=
  match n with
  | O => ret eventtime
  | S n => next <- _wheel_follow_handler eventtime ;; follow_ticks n next
  end.

(** ** Motion segmenter *)

(** The block of [_move]: queue one trapezoid on the lane's stepper and wait
    for it. The toolhead returns once the move is over, so the reactor has
    run for the duration of the segment. *)
Definition run_segment (distance speed accel : R) : M unit :=
  t <- lift (calc_move_time distance speed accel) ;;
  let '(axis_r, accel_t, cruise_t, cruise_v) := t in
  emit (TrapqAppend axis_r accel_t cruise_t cruise_v accel) ;;
  emit (Dwell (accel_t + cruise_t + accel_t)) ;;
  reactor_pause (accel_t + cruise_t + accel_t).

(** [_move(distance, speed, accel, assist_active)]. *)
Definition _move (fuel : nat) (distance speed accel : R) (assist_active : bool) : M unit :=
  emit (MoveSegment distance speed accel assist_active) ;;
  (if assist_active
   then modify (fun s =>
          set_remaining_weight
            (update_remaining_weight (config s) (remaining_weight s) distance) s)
   else ret tt) ;;
  with_assist_move fuel speed (if Rlt_dec distance 0 then true else false) assist_active
    (run_segment distance speed accel).

(** The [while move_total > 0] loop of [move]. [inner] is the fuel given to
    each segment. Over the reals [move_total -= move_value] is exact; the
    statements about the segments of the code keep to what the rounded
    subtraction preserves, and [Binary64.move_loop] below runs the same loop
    on floats. *)
Fixpoint move_loop (inner fuel : nat) (move_total direction speed accel : R)
    (assist_active : bool) : M unit :=
  match fuel with
  | O => diverge
  | S fuel =>
      if Rgt_dec move_total 0 then
        s <- get ;;
        let move_value :=
          if Rgt_dec move_total (max_move_dis (config s))
          then max_move_dis (config s) else move_total in
        let move_total := move_total - move_value in
        let move_value := move_value * direction in
        _move inner move_value speed accel assist_active ;;
        move_loop inner fuel move_total direction speed accel assist_active
      else ret tt
  end.

(** [move(distance, speed, accel, assist_active)]. *)
Definition move (fuel : nat) (distance speed accel : R) (assist_active : bool) : M unit :=
  let direction := if Rgt_dec distance 0 then 1 else -1 in
  let move_total := Rabs distance in
  move_loop fuel fuel move_total direction speed accel assist_active.

(** ** Lane state machine: the load retry of [prep_callback] *)

(** [do_enable(enable)]. *)
Definition do_enable (enable : bool) : M unit := emit (MotorEnable enable).

(** The [while self.load_state == False and self.prep_state == True and
    self.load != None] loop of the auto-load branch, with its counter [x]. *)
Fixpoint load_retry_loop (inner fuel : nat) (x : Z) : M Z :=
  match fuel with
  | O => diverge
  | S fuel =>
      s <- get ;;
      if negb (load_state s) && prep_state s && bound (load (config s)) then
        let x := (x + 1)%Z in
        do_enable true ;;
        move inner 10 500 400 false ;;
        reactor_pause 0.1 ;;
        if (40 <? x)%Z then
          emit (AfcError MsgFailedToLoad false) ;;
          emit LedFault ;;
          modify (set_status (Some EmptyString)) ;;
          ret x
        else load_retry_loop inner fuel x
      else ret x
  end.

(** The load retry of the auto-load branch: [x = 0], the loop, and the
    assignment [self.status = ''] that follows it. *)
Definition load_retry (fuel : nat) : M Z :=
  x <- load_retry_loop fuel fuel 0 ;;
  modify (set_status (Some EmptyString)) ;;
  ret x.

(** One iteration of that loop as the specification words it: enable the
    stepper, move 10 mm at 500 mm/s and 400 mm/s^2, then pause 0.1 s. *)
Definition load_attempt (inner : nat) : M unit :=
  do_enable true ;;
  move inner 10 500 400 false ;;
  reactor_pause 0.1.

(** [n] such iterations in a row. *)
Fixpoint load_attempts (inner n : nat) : M unit :=
  match n with
  | O => ret tt
  | S n => load_attempt inner ;; load_attempts inner n
  end.

End Lane.

Arguments config {Sensor} l.
Arguments wheel_sensor {Sensor} l.
Arguments remaining_weight {Sensor} l.
Arguments _wheel_follow_paused {Sensor} l.
Arguments assist_activate {Sensor} l.
Arguments prep_state {Sensor} l.
Arguments load_state {Sensor} l.
Arguments status {Sensor} l.
Arguments monotonic {Sensor} l.
Arguments set_wheel_sensor {Sensor} v s.
Arguments set_remaining_weight {Sensor} v s.
Arguments set_wheel_follow_paused {Sensor} v s.
Arguments set_assist_activate {Sensor} v s.
Arguments set_status {Sensor} v s.
Arguments suspended_until {Sensor} env t s.
Arguments ret {Sensor A} a _.
Arguments bind {Sensor A B} m k _.
Arguments raise {Sensor A} e _.
Arguments diverge {Sensor A} _.
Arguments get {Sensor} _.
Arguments modify {Sensor} f _.
Arguments emit {Sensor} e _.
Arguments lift {Sensor A} r _.
Arguments attempt {Sensor A} m _.
Arguments reactor_pause {Sensor} env delay _.
Arguments sensor_read {Sensor} env _.
Arguments brake_n20 {Sensor} env _.
Arguments drive {Sensor} p assit_motor value _.
Arguments assist {Sensor} env value _.
Arguments lane_pwm_value {Sensor} feed_rate rewind _.
Arguments baseline_loop {Sensor} env fuel start_time rpm _.
Arguments regulation_loop {Sensor} env fuel start_time cutoff target_rpm pwm_val rpm _.
Arguments rewind_until_tension {Sensor} env fuel speed _.
Arguments assist_move_enter {Sensor} env fuel speed rewind assist_active _.
Arguments assist_move_finally {Sensor} env rewind assist_active _.
Arguments assist_move_resume {Sensor} env y rewind assist_active _.
Arguments assist_move_throw {Sensor} env {A} y e rewind assist_active _.
Arguments with_assist_move {Sensor} env {A} fuel speed rewind assist_active block _.
Arguments _wheel_follow_handler {Sensor} env eventtime _.
Arguments follow_ticks {Sensor} env n eventtime _.
Arguments run_segment {Sensor} env distance speed accel _.
Arguments _move {Sensor} env fuel distance speed accel assist_active _.
Arguments move_loop {Sensor} env inner fuel move_total direction speed accel assist_active _.
Arguments move {Sensor} env fuel distance speed accel assist_active _.
Arguments do_enable {Sensor} enable _.
Arguments load_retry_loop {Sensor} env inner fuel x _.
Arguments load_retry {Sensor} env fuel _.
Arguments load_attempt {Sensor} env inner _.
Arguments load_attempts {Sensor} env inner n _.

Notation "x <- m ;; k" := (bind m (fun x => k))
  (at level 61, m at next level, right associativity) : lane_scope.
Notation "m ;; k" := (bind m (fun _ => k))
  (at level 61, right associativity) : lane_scope.

(** ** The segment loop of [move] on binary64 *)

(** The loop of [move] with Python's floats as IEEE 754 binary64 numbers,
    rounding to nearest: the lengths it passes to [_move], in order. The
    comparisons with the integer 0 and the product with the integer
    direction [1] or [-1] are exact, so only [move_total -= move_value]
    rounds. *)
Module Binary64.

Import Floats.
Local Open Scope float_scope.

Fixpoint move_loop (fuel : nat) (move_total max_move_dis direction : float)
    : option (list float) :=
  match fuel with
  | O => None
  | S fuel =>
      if 0 <? move_total then
        let move_value :=
          if max_move_dis <? move_total then max_move_dis else move_total in
        let move_total := move_total - move_value in
        let move_value := move_value * direction in
        option_map (cons move_value) (move_loop fuel move_total max_move_dis direction)
      else Some []
  end.

Definition move (fuel : nat) (distance max_move_dis : float) : option (list float) :=
  let direction := if 0 <? distance then 1 else -1 in
  let move_total := abs distance in
  move_loop fuel move_total max_move_dis direction.

(** The value of a finite float, as an integer multiple of [2^-1074]. *)
Definition exact (x : float) : option Z :=
  match Prim2SF x with
  | S754_zero _ => Some 0%Z
  | S754_finite sign m e =>
      Some ((if sign then -1 else 1) * Z.pos m * 2 ^ (e + 1074))%Z
  | _ => None
  end.




End Binary64.

(** ** Reading a run *)

(** What a run of [m] from [s] returned or raised, the lane it left, and
    what it did. *)
Definition outcome_of {Sensor A : Type} (m : M Sensor A) (s : lane Sensor) : outcome A :=
  fst (fst (m s)).
Definition final {Sensor A : Type} (m : M Sensor A) (s : lane Sensor) : lane Sensor :=
  snd (fst (m s)).
Definition events {Sensor A : Type} (m : M Sensor A) (s : lane Sensor) : list event :=
  snd (m s).

(** The values [assist] was called with. *)
Fixpoint assist_calls (l : list event) : list R :=
  match l with
  | [] => []
  | Assist v :: l => v :: assist_calls l
  | _ :: l => assist_calls l
  end.

(** The signed distances [_move] was called with. *)
Fixpoint segments (l : list event) : list R :=
  match l with
  | [] => []
  | MoveSegment d _ _ _ :: l => d :: segments l
  | _ :: l => segments l
  end.

Fixpoint Rsum (l : list R) : R :=
  match l with
  | [] => 0
  | x :: l => x + Rsum l
  end.

(** An assist session seen from outside: the exclusion flag is raised, a
    segment is queued on the stepper, the flag is lowered. *)
Inductive session_event : Type := Begin | Segment | End_.

Fixpoint session_trace (l : list event) : list session_event :=
  match l with
  | [] => []
  | FollowPaused true :: l => Begin :: session_trace l
  | FollowPaused false :: l => End_ :: session_trace l
  | TrapqAppend _ _ _ _ _ :: l => Segment :: session_trace l
  | _ :: l => session_trace l
  end.

(** One session around all [n] segments, and one session around each. *)
Definition one_session (n : nat) : list session_event :=
  [Begin] ++ repeat Segment n ++ [End_].

Fixpoint session_each (n : nat) : list session_event :=
  match n with
  | O => []
  | S n => [Begin; Segment; End_] ++ session_each n
  end.

(** The iterations of the load retry: each one starts by enabling the
    stepper. *)
Fixpoint retries (l : list event) : nat :=
  match l with
  | [] => O
  | MotorEnable true :: l => S (retries l)
  | _ :: l => retries l
  end.

(** The events [assist] and the tension rewind produce: motor commands and
    messages. *)
Definition motor_event (e : event) : bool :=
  match e with
  | Assist _ | SetPin _ _ | LogInfo _ | RespondInfo _ => true
  | _ => false
  end.

(** ** Example lanes *)

Definition pwm_motor : motor := {| scale := 1; is_pwm := true |}.

(** The defaults of [AFCExtruderStepper.__init__], with PWM reverse and
    forward channels, no enable channel, a load pin and a segment limit of
    100 mm. *)
Definition default_config : lane_config :=
  {| afc_motor_rwd := Some pwm_motor;
     afc_motor_fwd := Some pwm_motor;
     afc_motor_enb := None;
     load := Some "load"%string;
     n20_break_delay_time := 0.1;
     max_move_dis := 100;
     wheel_follow_pwm := 0.3;
     wheel_follow_min_rpm := 1;
     tension_baseline_min_rpm := 5;
     tension_drop_fraction := 0.75;
     tension_max_time := 10;
     filament_diameter := 1.75;
     filament_density := 1.24;
     inner_diameter := 100;
     empty_spool_weight := 190;
     max_motor_rpm := 500;
     rwd_speed_multi := 0.5;
     fwd_speed_multi := 0.5 |}.

(** A sensor that answers its [n]-th call with [script n] on both
    components; its state is the number of calls so far. *)
Definition scripted_sensor (script : nat -> option R) (now : R) (n : nat)
    : result (option R * option R) * nat :=
  (Ok (script n, script n), S n).

(** No edge is delivered while the lane is suspended. *)
Definition no_edges (t : R) (levels : bool * bool) : bool * bool := levels.

Definition scripted (script : nat -> option R) : environment nat :=
  {| sensor_get_rpm := scripted_sensor script; edges := no_edges |}.

(** A lane at reactor time 0 with a full spool. *)
Definition lane_at_rest (c : lane_config) (sensor : option nat) (prep load_ : bool)
    : lane nat :=
  {| config := c; wheel_sensor := sensor; remaining_weight := 1000;
     _wheel_follow_paused := false; assist_activate := false;
     prep_state := prep; load_state := load_; status := None; monotonic := 0 |}.

(** Free spin at 20 RPM on the first sample, no data afterwards. *)
Definition spin_then_silence (n : nat) : option R :=
  match n with
  | O => Some 20
  | S _ => None
  end.

(** Free spin at 20 RPM on the first sample, 4 RPM afterwards. *)
Definition spin_then_slack (n : nat) : option R :=
  match n with
  | O => Some 20
  | S _ => Some 4
  end.

(** ** Vocabulary of the specification *)

(** The direction of a signed distance: [-1] below zero, [1] otherwise. *)
Definition direction_of (d : R) : R := if Rlt_dec d 0 then -1 else 1.

(** A spool configuration on which the PWM mapping is defined: positive
    density, maximum RPM and duty divisors, and a non-negative empty-spool
    weight. *)
Definition spool_ok (c : lane_config) : Prop :=
  0 < filament_density c /\
  0 <= empty_spool_weight c /\
  0 < max_motor_rpm c /\
  0 < 1 + 9 * fwd_speed_multi c /\
  0 < 15 + 15 * rwd_speed_multi c.

(** The mass of filament of length [len], in grams. *)
Definition filament_mass (c : lane_config) (len : R) : R :=
  PI * (filament_diameter c / 2) ^ 2 * len * filament_density c / 1000.

(** ** Vocabulary for reasoning about runs *)

(** [wp m s Q]: the run of [m] from [s] ends in an outcome, a lane and a
    list of events that satisfy [Q]. *)
Definition wp {Sensor A : Type} (m : M Sensor A) (s : lane Sensor)
    (Q : outcome A -> lane Sensor -> list event -> Prop) : Prop :=
  Q (outcome_of m s) (final m s) (events m s).

(** What the motor commands and the tension rewind leave alone: the
    configuration, the spool weight, the two flags, the status and whether
    a sensor is bound. The clock only advances; the sensor's state and the
    latched levels may change, and the levels do not when no edge is
    delivered. *)
Definition frame {Sensor : Type} (env : environment Sensor) (s s' : lane Sensor) : Prop :=
  config s' = config s /\
  remaining_weight s' = remaining_weight s /\
  _wheel_follow_paused s' = _wheel_follow_paused s /\
  assist_activate s' = assist_activate s /\
  status s' = status s /\
  bound (wheel_sensor s') = bound (wheel_sensor s) /\
  monotonic s <= monotonic s' /\
  ((forall t levels, edges env t levels = levels) ->
   prep_state s' = prep_state s /\ load_state s' = load_state s).

(** [m] only issues motor commands and messages, and respects [frame]. *)
Definition motor_only {Sensor A : Type} (env : environment Sensor) (m : M Sensor A) : Prop :=
  forall s, wp m s (fun _ s' l => frame env s s' /\ forallb motor_event l = true).

(** The channels [assist] divides by have a nonzero scale. *)
Definition scales_ok (c : lane_config) : Prop :=
  (forall m, afc_motor_rwd c = Some m -> scale m <> 0) /\
  (forall m, afc_motor_fwd c = Some m -> scale m <> 0).

(** What a move leaves alone: as [frame], but for the exclusion flag and
    the spool weight. *)
Definition frame_move {Sensor : Type} (env : environment Sensor) (s s' : lane Sensor) : Prop :=
  config s' = config s /\
  assist_activate s' = assist_activate s /\
  status s' = status s /\
  bound (wheel_sensor s') = bound (wheel_sensor s) /\
  monotonic s <= monotonic s' /\
  ((forall t levels, edges env t levels = levels) ->
   prep_state s' = prep_state s /\ load_state s' = load_state s).

(** [m] comes to an end without running out of fuel, and respects
    [frame]. *)
Definition halts {Sensor A : Type} (env : environment Sensor) (m : M Sensor A) : Prop :=
  forall s, wp m s (fun o s' _ => o <> Diverge /\ frame env s s').

(** A lane on which an assisted segment takes the open-loop path and
    returns: no wheel sensor, no enable channel, nonzero channel scales and
    a well-formed spool. *)
Definition open_loop_ready {Sensor : Type} (s : lane Sensor) : Prop :=
  afc_motor_enb (config s) = None /\
  scales_ok (config s) /\
  spool_ok (config s) /\
  bound (wheel_sensor s) = false.

(** The condition of the load retry loop: [self.load_state == False and
    self.prep_state == True and self.load != None]. *)
Definition retry_wanted {Sensor : Type} (s : lane Sensor) : bool :=
  negb (load_state s) && prep_state s && bound (load (config s)).

(** The segments the loop of [move] cuts [move_total] into, for a segment
    limit [limit] and a direction [direction]. *)
Inductive splits (limit direction : R) : R -> list R -> Prop :=
| splits_done (move_total : R) :
    ~ move_total > 0 -> splits limit direction move_total []
| splits_step (move_total : R) (rest : list R) :
    move_total > 0 ->
    splits limit direction
      (move_total - (if Rgt_dec move_total limit then limit else move_total)) rest ->
    splits limit direction move_total
      ((if Rgt_dec move_total limit then limit else move_total) * direction :: rest).

(** ** Further vocabulary *)

(** The wheel sensor's edge callback run on a stream of [(eventtime, level)]
    edges, oldest first. *)
Definition edges_seen (evs : list (R * bool)) (s : WheelSensor.sensor) : WheelSensor.sensor :=
  fold_left (fun s ev => WheelSensor._edge_callback (fst ev) (snd ev) s) evs s.

(** The number of low-to-high transitions in a stream of levels that follows
    the level [prev]. *)
Fixpoint rising_edges (prev : bool) (levels : list bool) : Z :=
  match levels with
  | [] => 0%Z
  | level :: rest =>
      ((if negb prev && level then 1 else 0) + rising_edges level rest)%Z
  end.

(** The pin writes among the events, in order. *)
Fixpoint pin_writes (l : list event) : list (pin * R) :=
  match l with
  | [] => []
  | SetPin p v :: l => (p, v) :: pin_writes l
  | _ :: l => pin_writes l
  end.

(** The number of fault reports (error message or fault LED) among the
    events. *)
Fixpoint fault_reports (l : list event) : nat :=
  match l with
  | [] => O
  | AfcError _ _ :: l => S (fault_reports l)
  | LedFault :: l => S (fault_reports l)
  | _ :: l => fault_reports l
  end.

(** The error messages reported through [AFC.ERROR.AFC_error] among the
    events, each with its [pause] argument, in order. *)
Fixpoint error_messages (l : list event) : list (message * bool) :=
  match l with
  | [] => []
  | AfcError m pause :: l => (m, pause) :: error_messages l
  | _ :: l => error_messages l
  end.

(** The number of times the fault LED was set among the events. *)
Fixpoint led_faults (l : list event) : nat :=
  match l with
  | [] => O
  | LedFault :: l => S (led_faults l)
  | _ :: l => led_faults l
  end.

(** What a load retry that ended with its counter at [x] has reported,
    kind by kind: nothing below the cap, one failed-to-load message (without
    pausing) and one fault LED at it. *)
Definition retry_reported (x : Z) (l : list event) : Prop :=
  error_messages l = (if (x <? 41)%Z then [] else [(MsgFailedToLoad, false)]) /\
  led_faults l = (if (x <? 41)%Z then 0 else 1)%nat.

(** The events a move produces: motor commands and messages, the exclusion
    flag, and the segment on the stepper. *)
Definition motion_event (e : event) : bool :=
  match e with
  | MotorEnable _ | AfcError _ _ | LedFault => false
  | _ => true
  end.

(** The divisor of the duty mapping in each mode, as a factor of the RPM:
    [rpm / (max_motor_rpm / factor)]. *)
Definition duty_factor (c : lane_config) (rewind : bool) : R :=
  if rewind then 15 + 15 * rwd_speed_multi c else 1 + 9 * fwd_speed_multi c.

(** The condition under which the follow controller wants the assist on:
    [rpm is not None and rpm >= self.wheel_follow_min_rpm]. *)
Definition follow_wanted (c : lane_config) (rpm : option R) : bool :=
  match rpm with
  | Some r => if Rge_dec r (wheel_follow_min_rpm c) then true else false
  | None => false
  end.

(** Every value [m] passes to [assist] satisfies [P], and every value it
    returns satisfies [Q]. *)
Definition commands_within {Sensor A : Type} (P : R -> Prop) (Q : A -> Prop)
    (m : M Sensor A) : Prop :=
  forall s, wp m s (fun o _ l => Forall P (assist_calls l) /\ forall a, o = Ret a -> Q a).

(** Every event of [m] satisfies [f]. *)
Definition emits_only {Sensor A : Type} (f : event -> bool) (m : M Sensor A) : Prop :=
  forall s, wp m s (fun _ _ l => forallb f l = true).



(** ** Further code: the wheel sensor's constructor and its callers *)

(** [StandaloneWheelSensor.__init__]: [pulses_per_rev] is read with
    [config.getfloat("pulses_per_rev", 1.0, minval=0.1)], a configuration
    error below the minimum, and [pin] must be given. [None] stands for the
    configuration error; [now] is [self.reactor.monotonic()]. *)
Definition wheel_sensor_init (pulses_per_rev : option R) (pin : option string) (now : R)
    : option WheelSensor.sensor :=
  let checked :=
    match pulses_per_rev with
    | Some v => if Rlt_dec v 0.1 then None else Some v
    | None => Some 1
    end in
  match checked, pin with
  | Some ppr, Some _ =>
      Some {| WheelSensor.pulses_per_rev := ppr;
              WheelSensor._pulse_count := 0;
              WheelSensor._prev_state := false;
              WheelSensor._last_time := now |}
  | _, _ => None
  end.

(** What the reactor and the lane call on a wheel sensor. *)
Inductive sensor_call : Type :=
| EdgeCallback (eventtime : R) (state : bool)
| GetRpm (now : R).

(** A sequence of calls on a sensor, oldest first: the results of the
    reads, and the sensor afterwards. *)
Fixpoint sensor_calls (calls : list sensor_call) (s : WheelSensor.sensor)
    : list (result (option R * option R)) * WheelSensor.sensor :=
  match calls with
  | [] => ([], s)
  | EdgeCallback eventtime state :: calls =>
      sensor_calls calls (WheelSensor._edge_callback eventtime state s)
  | GetRpm now :: calls =>
      let '(r, s1) := WheelSensor.get_rpm now s in
      let '(rs, s2) := sensor_calls calls s1 in
      (r :: rs, s2)
  end.

(** ** Further code: the speed multiplier command *)

(** A float parameter of a GCode command, as [gcmd.get_float] finds it. *)
Inductive parameter : Type :=
| Absent
| Malformed
| Given (v : R).

Inductive gcode_error : Type :=
| UnableToParse
| BelowMinimum
| AboveMaximum.

(** [gcmd.get_float(name, default, minval=minval, maxval=maxval)]: the
    default when the parameter is absent, a command error when it does not
    parse or lies outside the bounds. *)
Definition get_float (p : parameter) (default minval maxval : R) : gcode_error + R :=
  match p with
  | Absent => inr default
  | Malformed => inl UnableToParse
  | Given v =>
      if Rlt_dec v minval then inl BelowMinimum
      else if Rgt_dec v maxval then inl AboveMaximum
      else inr v
  end.

Definition set_fwd_speed_multi (v : R) (c : lane_config) : lane_config :=
  {| afc_motor_rwd := afc_motor_rwd c; afc_motor_fwd := afc_motor_fwd c;
     afc_motor_enb := afc_motor_enb c; load := load c;
     n20_break_delay_time := n20_break_delay_time c; max_move_dis := max_move_dis c;
     wheel_follow_pwm := wheel_follow_pwm c; wheel_follow_min_rpm := wheel_follow_min_rpm c;
     tension_baseline_min_rpm := tension_baseline_min_rpm c;
     tension_drop_fraction := tension_drop_fraction c;
     tension_max_time := tension_max_time c;
     filament_diameter := filament_diameter c; filament_density := filament_density c;
     inner_diameter := inner_diameter c; empty_spool_weight := empty_spool_weight c;
     max_motor_rpm := max_motor_rpm c;
     rwd_speed_multi := rwd_speed_multi c; fwd_speed_multi := v |}.

Definition set_rwd_speed_multi (v : R) (c : lane_config) : lane_config :=
  {| afc_motor_rwd := afc_motor_rwd c; afc_motor_fwd := afc_motor_fwd c;
     afc_motor_enb := afc_motor_enb c; load := load c;
     n20_break_delay_time := n20_break_delay_time c; max_move_dis := max_move_dis c;
     wheel_follow_pwm := wheel_follow_pwm c; wheel_follow_min_rpm := wheel_follow_min_rpm c;
     tension_baseline_min_rpm := tension_baseline_min_rpm c;
     tension_drop_fraction := tension_drop_fraction c;
     tension_max_time := tension_max_time c;
     filament_diameter := filament_diameter c; filament_density := filament_density c;
     inner_diameter := inner_diameter c; empty_spool_weight := empty_spool_weight c;
     max_motor_rpm := max_motor_rpm c;
     rwd_speed_multi := v; fwd_speed_multi := fwd_speed_multi c |}.

Inductive multiplier_log : Type :=
| LogForwardSet (new old : R)    (* "... forward speed multiplier set, New: .., Old: .." *)
| LogReverseSet (new old : R)    (* "... reverse speed multiplier set, New: .., Old: .." *)
| LogRunSave.                    (* "Run SAVE_SPEED_MULTIPLIER LANE=.. to save values ..." *)

(** [cmd_SET_SPEED_MULTIPLIER(gcmd)], with the [FWD] and [RWD] parameters of
    the command: the error the command ended with, if any, the
    configuration it left and the lines it logged. Each multiplier is
    assigned as soon as it is read. *)
Definition cmd_SET_SPEED_MULTIPLIER (FWD RWD : parameter) (c : lane_config)
    : option gcode_error * lane_config * list multiplier_log :=
  let old_fwd_value := fwd_speed_multi c in
  let old_rwd_value := rwd_speed_multi c in
  match get_float FWD (fwd_speed_multi c) 0 1 with
  | inl e => (Some e, c, [])
  | inr fwd =>
      let c := set_fwd_speed_multi fwd c in
      match get_float RWD (rwd_speed_multi c) 0 1 with
      | inl e => (Some e, c, [])
      | inr rwd =>
          let c := set_rwd_speed_multi rwd c in
          let fwd_changed := if Req_dec_T (fwd_speed_multi c) old_fwd_value then false else true in
          let rwd_changed := if Req_dec_T (rwd_speed_multi c) old_rwd_value then false else true in
          (None, c,
           (if fwd_changed then [LogForwardSet (fwd_speed_multi c) old_fwd_value] else []) ++
           (if rwd_changed then [LogReverseSet (rwd_speed_multi c) old_rwd_value] else []) ++
           (if fwd_changed || rwd_changed then [LogRunSave] else []))
      end
  end.

(** ** Further code: the prep and load callbacks *)

(** The attributes [prep_callback] reads that are fixed once the lane is
    attached. *)
Record prep_config : Type := {
  hub : option string;
  load_to_hub : bool;
  dist_hub : R;
  dist_hub_move_speed : R;
  dist_hub_move_accel : R;
  runout_lane : string
}.

(** What the lane's collaborators answer during one call of
    [prep_callback]; what their calls do to the lane in turn is outside the
    model. [last_prep_edge t last] is the time of the last prep
    edge the reactor delivered while the lane was suspended until [t]
    ([last] when there was none): a prep edge that arrives while the
    callback is active records its time and its level and returns. *)
Record afc_view : Type := {
  printer_is_ready : bool;        (* self.printer.state_message == 'Printer is ready' *)
  require_home : bool;            (* self.AFC.require_home *)
  is_homed : bool;                (* self.AFC.FUNCTION.is_homed() *)
  is_printing_or_moving : bool;   (* self.AFC.FUNCTION.is_printing(check_movement=True) *)
  is_printing : bool;             (* self.AFC.FUNCTION.is_printing() *)
  is_current : bool;              (* self.name == self.AFC.current *)
  current_lane_known : bool;      (* self.AFC.current in self.AFC.lanes *)
  runout_lane_known : bool;       (* self.runout_lane in self.AFC.lanes *)
  unload_on_runout : bool;        (* self.unit_obj.unload_on_runout *)
  error_state : bool;             (* self.AFC.error_state, where the callback reads it *)
  default_material_type : string; (* self.AFC.default_material_type *)
  last_prep_edge : R -> R -> R
}.

Inductive prep_message : Type :=
| MsgHomeFirst          (* "Please home printer before directly loading to toolhead" *)
| MsgPrinterMoving      (* "Cannot load spools while printer is actively moving or homing" *)
| MsgRunout             (* "Runout triggered for lane .. and runout lane is not setup ..." *)
| MsgLoadSensorStuck.   (* "Cannot load .. load sensor is triggered. ..." *)

Inductive led_state : Type :=
| AfcLedReady           (* self.AFC.led_ready *)
| AfcLedNotReady        (* self.AFC.led_not_ready *)
| LaneLedNotReady.      (* self.led_not_ready *)

(** What [prep_callback] does to its collaborators, in order; [OnLane] is
    an event of the lane's own motion code. [PrepError m pause] is
    [AFC_error(m, pause)], with [None] when the call leaves [pause] out. *)
Inductive prep_event : Type :=
| OnLane (e : event)
| PrepError (m : prep_message) (pause : option bool)
| AfcLed (l : led_state)
| SetStartTime
| ToolLoad
| LogInfiniteSpool
| SendPause
| SavePos
| ChangeTool
| SetMap
| LaneUnloadScript
| RestorePos
| SendResume
| ToolUnload
| LaneUnload
| ClearValues
| SaveVars.

(** How a call of [prep_callback] ends: it returns, it raises an exception
    of the motion code, it raises [KeyError] on a lane name the AFC does
    not know, or it runs out of fuel. *)
Inductive prep_outcome (A : Type) : Type :=
| Returned (a : A)
| Raised (e : exn)
| RaisedKeyError
| Hung.
Arguments Returned {A} a.
Arguments Raised {A} e.
Arguments RaisedKeyError {A}.
Arguments Hung {A}.

Definition set_prep_state {Sensor : Type} (v : bool) (s : lane Sensor) : lane Sensor :=
  {| config := config s; wheel_sensor := wheel_sensor s;
     remaining_weight := remaining_weight s;
     _wheel_follow_paused := _wheel_follow_paused s; assist_activate := assist_activate s;
     prep_state := v; load_state := load_state s; status := status s;
     monotonic := monotonic s |}.

Definition set_load_state {Sensor : Type} (v : bool) (s : lane Sensor) : lane Sensor :=
  {| config := config s; wheel_sensor := wheel_sensor s;
     remaining_weight := remaining_weight s;
     _wheel_follow_paused := _wheel_follow_paused s; assist_activate := assist_activate s;
     prep_state := prep_state s; load_state := v; status := status s;
     monotonic := monotonic s |}.

Declare Scope prep_scope.
Delimit Scope prep_scope with prep.

Section Prep.

Variable Sensor : Type.
Variable env : environment Sensor.
Variable afc : afc_view.
Variable pc : prep_config.

(** The lane with the attributes the prep callback keeps besides those of
    the motion code. *)
Record prep_lane : Type := {
  the_lane : lane Sensor;
  prep_active : bool;
  last_prep_time : R;
  _afc_prep_done : bool;
  loaded_to_hub : bool;
  material : option string
}.

Definition with_lane (f : lane Sensor -> lane Sensor) (h : prep_lane) : prep_lane :=
  {| the_lane := f (the_lane h); prep_active := prep_active h;
     last_prep_time := last_prep_time h; _afc_prep_done := _afc_prep_done h;
     loaded_to_hub := loaded_to_hub h; material := material h |}.

Definition set_prep_active (v : bool) (h : prep_lane) : prep_lane :=
  {| the_lane := the_lane h; prep_active := v;
     last_prep_time := last_prep_time h; _afc_prep_done := _afc_prep_done h;
     loaded_to_hub := loaded_to_hub h; material := material h |}.

Definition set_last_prep_time (v : R) (h : prep_lane) : prep_lane :=
  {| the_lane := the_lane h; prep_active := prep_active h;
     last_prep_time := v; _afc_prep_done := _afc_prep_done h;
     loaded_to_hub := loaded_to_hub h; material := material h |}.

Definition set_loaded_to_hub (v : bool) (h : prep_lane) : prep_lane :=
  {| the_lane := the_lane h; prep_active := prep_active h;
     last_prep_time := last_prep_time h; _afc_prep_done := _afc_prep_done h;
     loaded_to_hub := v; material := material h |}.

Definition set_material (v : option string) (h : prep_lane) : prep_lane :=
  {| the_lane := the_lane h; prep_active := prep_active h;
     last_prep_time := last_prep_time h; _afc_prep_done := _afc_prep_done h;
     loaded_to_hub := loaded_to_hub h; material := v |}.

(** [set_afc_prep_done()]. *)
Definition set_afc_prep_done (h : prep_lane) : prep_lane :=
  {| the_lane := the_lane h; prep_active := prep_active h;
     last_prep_time := last_prep_time h; _afc_prep_done := true;
     loaded_to_hub := loaded_to_hub h; material := material h |}.

(** [load_callback(eventtime, state)]. *)
Definition load_callback (eventtime : R) (state : bool) (h : prep_lane) : prep_lane :=
  with_lane (set_load_state state) h.

Definition Callback (A : Type) : Type := prep_lane -> prep_outcome A * prep_lane * list prep_event.

Definition hret {A : Type} (a : A) : Callback A := fun h => (Returned a, h, []).

Definition hbind {A B : Type} (m : Callback A) (k : A -> Callback B) : Callback B := fun h =>
  match m h with
  | (Returned a, h1, l1) => let '(o, h2, l2) := k a h1 in (o, h2, l1 ++ l2)
  | (Raised e, h1, l1) => (Raised e, h1, l1)
  | (RaisedKeyError, h1, l1) => (RaisedKeyError, h1, l1)
  | (Hung, h1, l1) => (Hung, h1, l1)
  end.

Definition hget : Callback prep_lane := fun h => (Returned h, h, []).
Definition hmodify (f : prep_lane -> prep_lane) : Callback unit := fun h => (Returned tt, f h, []).
Definition hemit (e : prep_event) : Callback unit := fun h => (Returned tt, h, [e]).

(** [self.AFC.lanes[name]]. *)
Definition lanes_lookup (known : bool) : Callback unit := fun h =>
  if known then (Returned tt, h, []) else (RaisedKeyError, h, []).

(** The lane's motion code run from the callback. While it is suspended
    the reactor delivers edges, and a prep edge records its time. *)
Definition on_lane {A : Type} (m : M Sensor A) : Callback A := fun h =>
  let '(o, s, l) := m (the_lane h) in
  (match o with
   | Ret a => Returned a
   | Exc e => Raised e
   | Diverge => Hung
   end,
   {| the_lane := s; prep_active := prep_active h;
      last_prep_time := last_prep_edge afc (monotonic s) (last_prep_time h);
      _afc_prep_done := _afc_prep_done h;
      loaded_to_hub := loaded_to_hub h; material := material h |},
   map OnLane l).

Local Notation "x <- m ;; k" := (hbind m (fun x => k))
  (at level 61, m at next level, right associativity) : prep_scope.
Local Notation "m ;; k" := (hbind m (fun _ => k))
  (at level 61, right associativity) : prep_scope.
Local Open Scope prep_scope.

(** [x == name] on an attribute that may be [None]. *)
Definition is_string (x : option string) (name : string) : bool :=
  match x with
  | Some v => String.eqb v name
  | None => false
  end.

(** The branch of [prep_callback] that loads a lane when filament is
    inserted; leaving it early is the [break] out of the [for] loop. *)
Definition auto_load (fuel : nat) (delta_time : R) : Callback unit :=
  if Rlt_dec delta_time 1 then hret tt
  else if is_printing_or_moving afc then
    hemit (PrepError MsgPrinterMoving (Some false))
  else
    on_lane (load_retry env fuel) ;;
    h <- hget ;;
    if is_string (hub pc) "direct" && prep_state (the_lane h) then
      hemit SetStartTime ;;
      hemit ToolLoad ;;
      hmodify (set_material (Some (default_material_type afc)))
    else
      (if load_to_hub pc && negb (loaded_to_hub h)
          && load_state (the_lane h) && prep_state (the_lane h)
       then
         on_lane (move env fuel (dist_hub pc) (dist_hub_move_speed pc)
                    (dist_hub_move_accel pc)
                    (if Rgt_dec (dist_hub pc) 200 then true else false)) ;;
         hmodify (set_loaded_to_hub true)
       else hret tt) ;;
      on_lane (do_enable false) ;;
      h <- hget ;;
      if load_state (the_lane h) && prep_state (the_lane h) then
        hmodify (with_lane (set_status (Some "Loaded"%string))) ;;
        hemit (AfcLed AfcLedReady) ;;
        hmodify (set_material (Some (default_material_type afc)))
      else hret tt.

(** The branch of [prep_callback] for a runout of the lane that is
    printing. *)
Definition runout : Callback unit :=
  if negb (String.eqb (runout_lane pc) "NONE") then
    hmodify (with_lane (set_status None)) ;;
    hemit (AfcLed AfcLedNotReady) ;;
    hemit LogInfiniteSpool ;;
    lanes_lookup (current_lane_known afc) ;;
    lanes_lookup (runout_lane_known afc) ;;
    hemit SendPause ;;
    hemit SavePos ;;
    hemit ChangeTool ;;
    hemit SetMap ;;
    if negb (error_state afc) then
      hemit LaneUnloadScript ;;
      hemit RestorePos ;;
      hemit SendResume ;;
      hemit (AfcLed LaneLedNotReady)
    else hret tt
  else
    (if unload_on_runout afc then
       hemit SendPause ;;
       hemit SavePos ;;
       hemit ToolUnload ;;
       if negb (error_state afc) then hemit LaneUnload else hret tt
     else hret tt) ;;
    hmodify (with_lane (set_status None)) ;;
    hemit (AfcLed AfcLedNotReady) ;;
    hemit (PrepError MsgRunout None).

(** The body of the [for i in range(1)] loop of [prep_callback]. *)
Definition prep_body (fuel : nat) (delta_time : R) : Callback unit :=
  h <- hget ;;
  let s := the_lane h in
  if printer_is_ready afc && _afc_prep_done h
     && negb (is_string (status s) "Tool Unloading")
  then
    if prep_state s && negb (load_state s) then auto_load fuel delta_time
    else if negb (prep_state s) && is_current afc && is_printing afc
            && load_state s && negb (is_string (status s) "ejecting")
    then runout
    else if prep_state s && load_state s && negb (is_printing afc) then
      hemit (PrepError MsgLoadSensorStuck (Some false))
    else
      hmodify (with_lane (set_status None)) ;;
      hmodify (set_loaded_to_hub false) ;;
      hemit ClearValues ;;
      hemit (AfcLed AfcLedNotReady)
  else hret tt.

(** [prep_callback(eventtime, state)]; the result is [None] or [False]. *)
Definition prep_callback (fuel : nat) (eventtime : R) (state : bool) : Callback (option bool) :=
  hmodify (with_lane (set_prep_state state)) ;;
  h <- hget ;;
  let delta_time := eventtime - last_prep_time h in
  hmodify (set_last_prep_time eventtime) ;;
  if prep_active h then hret None
  else if is_string (hub pc) "direct" && require_home afc && negb (is_homed afc) then
    hemit (PrepError MsgHomeFirst (Some false)) ;;
    hret (Some false)
  else
    hmodify (set_prep_active true) ;;
    prep_body fuel delta_time ;;
    hmodify (set_prep_active false) ;;
    hemit SaveVars ;;
    hret None.

End Prep.

Arguments the_lane {Sensor} p.
Arguments prep_active {Sensor} p.
Arguments last_prep_time {Sensor} p.
Arguments _afc_prep_done {Sensor} p.
Arguments loaded_to_hub {Sensor} p.
Arguments material {Sensor} p.
Arguments with_lane {Sensor} f h.
Arguments set_prep_active {Sensor} v h.
Arguments set_last_prep_time {Sensor} v h.
Arguments set_loaded_to_hub {Sensor} v h.
Arguments set_material {Sensor} v h.
Arguments set_afc_prep_done {Sensor} h.
Arguments load_callback {Sensor} eventtime state h.
Arguments hret {Sensor A} a _.
Arguments hbind {Sensor A B} m k _.
Arguments hget {Sensor} _.
Arguments hmodify {Sensor} f _.
Arguments hemit {Sensor} e _.
Arguments lanes_lookup {Sensor} known _.
Arguments on_lane {Sensor} afc {A} m _.
Arguments auto_load {Sensor} env afc pc fuel delta_time _.
Arguments runout {Sensor} afc pc _.
Arguments prep_body {Sensor} env afc pc fuel delta_time _.
Arguments prep_callback {Sensor} env afc pc fuel eventtime state _.

Notation "x <- m ;; k" := (hbind m (fun x => k))
  (at level 61, m at next level, right associativity) : prep_scope.
Notation "m ;; k" := (hbind m (fun _ => k))
  (at level 61, right associativity) : prep_scope.

(** The events of the lane's motion code among the events of the
    callback. *)
Fixpoint lane_events (l : list prep_event) : list event :=
  match l with
  | [] => []
  | OnLane e :: l => e :: lane_events l
  | _ :: l => lane_events l
  end.

(** [m] leaves the re-entrancy guard of the prep callback as it is. *)
Definition keeps_guard {Sensor A : Type} (m : Callback Sensor A) : Prop :=
  forall h, prep_active (snd (fst (m h))) = prep_active h.

(** [m] does not run any of the lane's motion code. *)
Definition leaves_lane_alone {Sensor A : Type} (m : Callback Sensor A) : Prop :=
  forall h, lane_events (snd (m h)) = [].

(** An idle, ready printer that does not require homing and knows no
    runout lane; no prep edge arrives while the callback runs. *)
Definition idle_printer : afc_view :=
  {| printer_is_ready := true;
     require_home := false;
     is_homed := false;
     is_printing_or_moving := false;
     is_printing := false;
     is_current := false;
     current_lane_known := true;
     runout_lane_known := false;
     unload_on_runout := false;
     error_state := false;
     default_material_type := "PLA"%string;
     last_prep_edge := fun _ last => last |}.

(** A lane behind a hub, 60 mm away, without fast load to the hub. *)
Definition hub_config : prep_config :=
  {| hub := Some "Turtle_1"%string;
     load_to_hub := false;
     dist_hub := 60;
     dist_hub_move_speed := 50;
     dist_hub_move_accel := 400;
     runout_lane := "NONE"%string |}.

(** A lane at rest after PREP, with both sensors untriggered. *)
Definition prepared_lane (active : bool) : prep_lane nat :=
  {| the_lane := lane_at_rest default_config None false false;
     prep_active := active;
     last_prep_time := 0;
     _afc_prep_done := true;
     loaded_to_hub := false;
     material := None |}.

(** * Properties *)

(** ** Fallible arithmetic *)

Lemma fdiv_ok (x y : R) : y <> 0 -> fdiv x y = Ok (x / y).
Proof.
  intros Hy. unfold fdiv.
  destruct (Req_dec_T y 0) as [E | _]; [contradiction | reflexivity].
Qed.

Lemma fdiv_zero (x : R) : fdiv x 0 = Raise ZeroDivisionError.
Proof.
  unfold fdiv.
  destruct (Req_dec_T 0 0) as [_ | N]; [reflexivity | contradiction N; reflexivity].
Qed.

Lemma math_sqrt_ok (x : R) : 0 <= x -> math_sqrt x = Ok (sqrt x).
Proof.
  intros Hx. unfold math_sqrt.
  destruct (Rlt_dec x 0) as [L | _]; [lra | reflexivity].
Qed.

Lemma math_sqrt_neg (x : R) : x < 0 -> math_sqrt x = Raise ValueError.
Proof.
  intros Hx. unfold math_sqrt.
  destruct (Rlt_dec x 0) as [_ | N]; [reflexivity | contradiction].
Qed.

Lemma pow_half_ok (x : R) : 0 <= x -> pow_half x = Ok (sqrt x).
Proof.
  intros Hx. unfold pow_half.
  destruct (Rlt_dec x 0) as [L | _]; [lra | reflexivity].
Qed.

(** ** Timing of one segment *)

Lemma abs_as_code (d : R) : (if Rlt_dec d 0 then - d else d) = Rabs d.
Proof.
  unfold Rabs. destruct (Rlt_dec d 0) as [L | G], (Rcase_abs d) as [L' | G']; lra.
Qed.

Lemma peak_triangular (m v : R) :
  0 < v -> 0 <= m -> m < v ^ 2 -> Rmin v (sqrt m) = sqrt m.
Proof.
  intros Hv Hm Hlt. apply Rmin_right. left.
  rewrite <- (sqrt_pow2 v) by lra.
  apply sqrt_lt_1_alt. lra.
Qed.

Lemma peak_trapezoidal (m v : R) :
  0 < v -> ~ m < v ^ 2 -> Rmin v (sqrt m) = v.
Proof.
  intros Hv Hge. apply Rmin_left.
  rewrite <- (sqrt_pow2 v) at 1 by lra.
  apply sqrt_le_1_alt. lra.
Qed.

Lemma calc_move_time_constant (d v a : R) :
  v <> 0 -> a = 0 \/ d = 0 ->
  calc_move_time d v a = Ok (direction_of d, 0, Rabs d / v, v).
Proof.
  intros Hv Hz. unfold calc_move_time, direction_of.
  rewrite abs_as_code.
  destruct (Req_dec_T a 0) as [Ea | Na].
  - rewrite fdiv_ok by assumption. reflexivity.
  - destruct (Req_dec_T (Rabs d) 0) as [Ed | Nd].
    + rewrite fdiv_ok by assumption. reflexivity.
    + destruct Hz as [Ha | Hd]; [contradiction |].
      subst d. rewrite Rabs_R0 in Nd. contradiction Nd. reflexivity.
Qed.

Lemma calc_move_time_accel (d v a : R) :
  0 < v -> 0 < a -> d <> 0 ->
  let v' := Rmin v (sqrt (Rabs d * a)) in
  0 < v' /\
  calc_move_time d v a =
    Ok (direction_of d, v' / a, (Rabs d - v' / a * v') / v', v').
Proof.
  intros Hv Ha Hd v'.
  assert (Hd' : 0 < Rabs d) by (apply Rabs_pos_lt; assumption).
  assert (Hm : 0 < Rabs d * a) by (apply Rmult_lt_0_compat; assumption).
  assert (Hv' : 0 < v').
  { unfold v'. apply Rmin_glb_lt; [assumption | apply sqrt_lt_R0; assumption]. }
  split; [assumption |].
  unfold calc_move_time, direction_of.
  rewrite abs_as_code.
  destruct (Req_dec_T a 0) as [Ea | _]; [lra |].
  destruct (Req_dec_T (Rabs d) 0) as [Ed | _]; [lra |].
  assert (Hsel : (if Rlt_dec (Rabs d * a) (v ^ 2)
                  then math_sqrt (Rabs d * a) else Ok v) = Ok v').
  { destruct (Rlt_dec (Rabs d * a) (v ^ 2)) as [L | G].
    - rewrite math_sqrt_ok by lra. unfold v'.
      rewrite peak_triangular by lra. reflexivity.
    - unfold v'. rewrite peak_trapezoidal by assumption. reflexivity. }
  rewrite Hsel. cbn [rbind].
  rewrite fdiv_ok by lra. cbn [rbind].
  rewrite fdiv_ok by lra. reflexivity.
Qed.

Lemma calc_move_time_returns (d v a : R) :
  0 < v -> 0 <= a -> exists r, calc_move_time d v a = Ok r.
Proof.
  intros Hv Ha.
  destruct (Req_dec_T a 0) as [Ea | Na].
  - eexists. apply calc_move_time_constant; [lra | left; assumption].
  - destruct (Req_dec_T d 0) as [Ed | Nd].
    + eexists. apply calc_move_time_constant; [lra | right; assumption].
    + destruct (calc_move_time_accel d v a Hv) as [_ E]; [lra | assumption |].
      eexists. exact E.
Qed.

(** ** Spool model *)

Lemma effective_diameter_pos (c : lane_config) (w : R) :
  0 < filament_density c -> 0 < w ->
  exists D, calculate_effective_diameter c w = Ok D /\ 0 < D.
Proof.
  intros Hrho Hw. unfold calculate_effective_diameter.
  rewrite fdiv_ok by lra. cbn [rbind].
  set (x := 4 * (w / (filament_density c / 1000) / 0.785 / 60) / 3.14159
            + inner_diameter c ^ 2).
  assert (Hq : 0 < w / (filament_density c / 1000)).
  { apply Rdiv_lt_0_compat; lra. }
  assert (Hx : 0 < x).
  { unfold x. assert (0 <= inner_diameter c ^ 2) by (apply pow2_ge_0). lra. }
  exists (sqrt x). split.
  - apply pow_half_ok. lra.
  - apply sqrt_lt_R0. assumption.
Qed.

Lemma calculate_rpm_empty (c : lane_config) (w f : R) :
  w <= empty_spool_weight c -> calculate_rpm c w f = Ok 0.
Proof.
  intros Hw. unfold calculate_rpm.
  destruct (Rle_dec w (empty_spool_weight c)); [reflexivity | contradiction].
Qed.

Lemma calculate_rpm_loaded (c : lane_config) (w : R) :
  0 < filament_density c -> 0 <= empty_spool_weight c -> empty_spool_weight c < w ->
  exists k, 0 < k /\
    forall f, calculate_rpm c w f = Ok (Rmin (f * k) (max_motor_rpm c)).
Proof.
  intros Hrho He Hw.
  destruct (effective_diameter_pos c w Hrho) as (D & HD & HDpos); [lra |].
  assert (HPD : 0 < PI * D) by (apply Rmult_lt_0_compat; [apply PI_RGT_0 | assumption]).
  exists (60 / (PI * D)). split.
  - apply Rdiv_lt_0_compat; lra.
  - intros f. unfold calculate_rpm.
    destruct (Rle_dec w (empty_spool_weight c)) as [L | _]; [lra |].
    rewrite HD. cbn [rbind]. rewrite fdiv_ok by lra. cbn [rbind].
    f_equal. f_equal. field. split; [lra | apply PI_neq0].
Qed.

(** The duty is a clamped positive multiple of the RPM. *)
Lemma calculate_pwm_value_of_rpm (c : lane_config) (rewind : bool) :
  spool_ok c ->
  exists g, 0 < g /\
    (forall w' f' rpm', calculate_rpm c w' f' = Ok rpm' ->
       calculate_pwm_value c w' f' rewind = Ok (Rmax 0 (Rmin (rpm' * g) 1))).
Proof.
  intros (Hrho & He & Hmax & Hfwd & Hrwd).
  destruct rewind.
  - exists ((15 + 15 * rwd_speed_multi c) / max_motor_rpm c). split.
    + apply Rdiv_lt_0_compat; assumption.
    + intros w' f' rpm' Hr. unfold calculate_pwm_value. rewrite Hr. cbn [rbind negb].
      rewrite fdiv_ok by lra. cbn [rbind].
      assert (0 < max_motor_rpm c / (15 + 15 * rwd_speed_multi c))
        by (apply Rdiv_lt_0_compat; assumption).
      rewrite fdiv_ok by lra. cbn [rbind].
      f_equal. f_equal. f_equal. field. lra.
  - exists ((1 + 9 * fwd_speed_multi c) / max_motor_rpm c). split.
    + apply Rdiv_lt_0_compat; assumption.
    + intros w' f' rpm' Hr. unfold calculate_pwm_value. rewrite Hr. cbn [rbind negb].
      rewrite fdiv_ok by lra. cbn [rbind].
      assert (0 < max_motor_rpm c / (1 + 9 * fwd_speed_multi c))
        by (apply Rdiv_lt_0_compat; assumption).
      rewrite fdiv_ok by lra. cbn [rbind].
      f_equal. f_equal. f_equal. field. lra.
Qed.

Lemma clamp_bounds (x : R) : 0 <= Rmax 0 (Rmin x 1) <= 1.
Proof.
  split.
  - apply Rmax_l.
  - apply Rmax_lub; [lra | apply Rmin_r].
Qed.

Lemma clamp_monotone (x y : R) : x <= y -> Rmax 0 (Rmin x 1) <= Rmax 0 (Rmin y 1).
Proof.
  intros H. apply Rle_max_compat_l. apply Rle_min_compat_r. assumption.
Qed.

Lemma calculate_pwm_value_total (c : lane_config) (w f : R) (rewind : bool) :
  spool_ok c ->
  exists p, calculate_pwm_value c w f rewind = Ok p /\ 0 <= p <= 1 /\
            (w <= empty_spool_weight c -> p = 0).
Proof.
  intros Hc.
  destruct (Rle_dec w (empty_spool_weight c)) as [L | G].
  - pose proof (calculate_rpm_empty c w f L) as Hr.
    destruct (calculate_pwm_value_of_rpm c rewind Hc) as (g & Hg & Hp).
    exists (Rmax 0 (Rmin (0 * g) 1)). split; [apply Hp; assumption |].
    split; [apply clamp_bounds |].
    intros _. rewrite Rmult_0_l. rewrite Rmin_left by lra. apply Rmax_left. lra.
  - destruct Hc as (Hrho & He & Hrest).
    destruct (calculate_rpm_loaded c w Hrho He) as (k & Hk & Hr); [lra |].
    destruct (calculate_pwm_value_of_rpm c rewind
                (conj Hrho (conj He Hrest))) as (g & Hg & Hp).
    eexists. split; [apply Hp; apply Hr |].
    split; [apply clamp_bounds | intros; lra].
Qed.

Lemma calculate_pwm_value_monotone (c : lane_config) (w f1 f2 p1 p2 : R) (rewind : bool) :
  spool_ok c -> f1 <= f2 ->
  calculate_pwm_value c w f1 rewind = Ok p1 ->
  calculate_pwm_value c w f2 rewind = Ok p2 ->
  p1 <= p2.
Proof.
  intros Hc Hf H1 H2.
  destruct (Rle_dec w (empty_spool_weight c)) as [L | G].
  - destruct (calculate_pwm_value_total c w f1 rewind Hc) as (q1 & E1 & _ & Z1).
    destruct (calculate_pwm_value_total c w f2 rewind Hc) as (q2 & E2 & _ & Z2).
    rewrite E1 in H1. rewrite E2 in H2. inversion H1. inversion H2. subst.
    rewrite Z1, Z2 by assumption. lra.
  - pose proof Hc as (Hrho & He & Hrest).
    destruct (calculate_rpm_loaded c w Hrho He) as (k & Hk & Hr); [lra |].
    destruct (calculate_pwm_value_of_rpm c rewind Hc) as (g & Hg & Hp).
    rewrite (Hp _ _ _ (Hr f1)) in H1. rewrite (Hp _ _ _ (Hr f2)) in H2.
    inversion H1. inversion H2. subst.
    apply clamp_monotone.
    apply Rmult_le_compat_r; [lra |].
    apply Rle_min_compat_r.
    apply Rmult_le_compat_r; lra.
Qed.

Lemma update_remaining_weight_max (c : lane_config) (w d : R) :
  update_remaining_weight c w d = Rmax (empty_spool_weight c) (w - filament_mass c d).
Proof.
  unfold update_remaining_weight, filament_mass.
  destruct (Rlt_dec _ _) as [L | G].
  - rewrite Rmax_left by lra. reflexivity.
  - rewrite Rmax_right by lra. reflexivity.
Qed.

(** ** Claims on the numeric core *)

(** C6, as stated, fails: the claim ranges over every acceleration, and on a
    negative acceleration with a nonzero distance [calc_move_time] takes the
    square root of a negative number and raises a math domain error instead
    of returning a profile. *)
Lemma calc_move_time_negative_accel :
  0 < 1 /\ calc_move_time 1 1 (-1) = Raise ValueError /\
  forall r, calc_move_time 1 1 (-1) <> Ok r.
Proof.
  assert (E : calc_move_time 1 1 (-1) = Raise ValueError).
  { unfold calc_move_time.
    destruct (Rlt_dec 1 0) as [L | _]; [lra |].
    destruct (Req_dec_T (-1) 0) as [L | _]; [lra |].
    destruct (Req_dec_T 1 0) as [L | _]; [lra |].
    destruct (Rlt_dec (1 * -1) (1 ^ 2)) as [_ | G]; [| lra].
    rewrite math_sqrt_neg by lra. reflexivity. }
  split; [lra |]. split; [exact E |].
  intros r H. rewrite E in H. discriminate H.
Qed.

(** C6, amended: for every signed distance [d], speed [0 < v <= 1e154] and
    acceleration [a >= 0] with [a = 0], [d = 0] or [|d| * a >= 1e-300] (the
    range in which [speed ** 2] does not overflow and [dist * accel] does not
    underflow to zero in floating point), [calc_move_time] returns the
    direction of [d] ([-1] below zero, [1] otherwise); when [a = 0] or
    [d = 0] the acceleration time is 0, the cruise time [|d| / v] and the
    cruise speed [v]; otherwise the peak velocity is
    [v' = min(v, sqrt(|d| * a))], the acceleration time [t_a = v' / a] and
    the cruise time [(|d| - t_a * v') / v']. The duration of the segment is
    [t_a + cruise time + t_a]. *)
Theorem calc_move_time_profile (d v a : R) :
  0 < v <= 1e154 -> 0 <= a ->
  a = 0 \/ d = 0 \/ 1e-300 <= Rabs d * a ->
  exists t_a t_c v',
    calc_move_time d v a = Ok (direction_of d, t_a, t_c, v') /\
    (a = 0 \/ d = 0 -> t_a = 0 /\ t_c = Rabs d / v /\ v' = v) /\
    (a <> 0 /\ d <> 0 ->
       v' = Rmin v (sqrt (Rabs d * a)) /\
       t_a = v' / a /\
       t_c = (Rabs d - t_a * v') / v') /\
    segment_duration (direction_of d, t_a, t_c, v') = t_a + t_c + t_a.
Proof.
  intros [Hv _] Ha _.
  destruct (Req_dec_T a 0) as [Ea | Na].
  - exists 0, (Rabs d / v), v.
    split; [apply calc_move_time_constant; [lra | left; assumption] |].
    split; [intros _; repeat split |].
    split; [intros [N _]; contradiction | unfold segment_duration; ring].
  - destruct (Req_dec_T d 0) as [Ed | Nd].
    + exists 0, (Rabs d / v), v.
      split; [apply calc_move_time_constant; [lra | right; assumption] |].
      split; [intros _; repeat split |].
      split; [intros [_ N]; contradiction | unfold segment_duration; ring].
    + destruct (calc_move_time_accel d v a Hv) as [_ E]; [lra | assumption |].
      cbv zeta in E.
      eexists _, _, _. split; [exact E |].
      split; [intros [Z | Z]; contradiction |].
      split; [intros _; repeat split | unfold segment_duration; ring].
Qed.

Lemma calc_move_time_profile_witness :
  exists t_a t_c v',
    calc_move_time (-8) 2 1 = Ok (direction_of (-8), t_a, t_c, v') /\
    (1 = 0 \/ -8 = 0 -> t_a = 0 /\ t_c = Rabs (-8) / 2 /\ v' = 2) /\
    (1 <> 0 /\ -8 <> 0 ->
       v' = Rmin 2 (sqrt (Rabs (-8) * 1)) /\
       t_a = v' / 1 /\
       t_c = (Rabs (-8) - t_a * v') / v') /\
    segment_duration (direction_of (-8), t_a, t_c, v') = t_a + t_c + t_a.
Proof.
  apply (calc_move_time_profile (-8) 2 1); [lra | lra |].
  right. right. rewrite Rabs_left by lra. lra.
Defined.

(** C7: on a well-formed spool configuration, for every remaining weight
    and in both modes, [calculate_pwm_value] returns a duty in [[0, 1]], the
    duty is 0 when the remaining weight is at most the empty-spool weight,
    and the duty is monotonically non-decreasing in the feed rate. *)
Theorem calculate_pwm_value_monotone_bounded (c : lane_config) (w : R) (rewind : bool) :
  spool_ok c ->
  (forall f, exists p,
      calculate_pwm_value c w f rewind = Ok p /\
      0 <= p <= 1 /\
      (w <= empty_spool_weight c -> p = 0)) /\
  (forall f1 f2 p1 p2,
      f1 <= f2 ->
      calculate_pwm_value c w f1 rewind = Ok p1 ->
      calculate_pwm_value c w f2 rewind = Ok p2 ->
      p1 <= p2).
Proof.
  intros Hc. split.
  - intros f. apply calculate_pwm_value_total. assumption.
  - intros f1 f2 p1 p2. apply calculate_pwm_value_monotone. assumption.
Qed.

Lemma default_config_ok : spool_ok default_config.
Proof.
  unfold spool_ok, default_config. cbn. repeat split; lra.
Defined.

Lemma calculate_pwm_value_monotone_bounded_witness :
  (forall f, exists p,
      calculate_pwm_value default_config 1000 f true = Ok p /\
      0 <= p <= 1 /\
      (1000 <= empty_spool_weight default_config -> p = 0)) /\
  (forall f1 f2 p1 p2,
      f1 <= f2 ->
      calculate_pwm_value default_config 1000 f1 true = Ok p1 ->
      calculate_pwm_value default_config 1000 f2 true = Ok p2 ->
      p1 <= p2).
Proof.
  apply (calculate_pwm_value_monotone_bounded default_config 1000 true).
  exact default_config_ok.
Defined.

(** C8, as stated, fails: the claim takes the magnitude of the segment
    distance, so that a move never increases the weight; the code takes the
    signed distance, and a rewind of 100 mm raises the remaining weight from
    500 g. *)
Lemma update_remaining_weight_rewind_gains :
  500 < update_remaining_weight default_config 500 (-100) /\
  update_remaining_weight default_config 500 (-100) <>
    Rmax (empty_spool_weight default_config)
         (500 - filament_mass default_config (Rabs (-100))).
Proof.
  rewrite update_remaining_weight_max.
  assert (Hm : filament_mass default_config (-100) < 0).
  { unfold filament_mass, default_config. cbn [filament_diameter filament_density].
    pose proof PI_RGT_0 as Hpi. nra. }
  assert (Ha : 0 < filament_mass default_config (Rabs (-100))).
  { rewrite Rabs_left by lra.
    unfold filament_mass, default_config. cbn [filament_diameter filament_density].
    pose proof PI_RGT_0 as Hpi. nra. }
  change (empty_spool_weight default_config) with 190.
  set (gain := filament_mass default_config (-100)) in *.
  set (loss := filament_mass default_config (Rabs (-100))) in *.
  rewrite Rmax_right by lra.
  split; [lra |].
  destruct (Rle_dec 190 (500 - loss)) as [L | G].
  - rewrite Rmax_right by lra. lra.
  - rewrite Rmax_left by lra. lra.
Qed.

(** ** Wheel sensor: edges and samples *)

Lemma rising_edges_pos (levels : list bool) (prev : bool) :
  (0 <= rising_edges prev levels)%Z.
Proof.
  revert prev. induction levels as [| x levels IH]; intros prev; cbn [rising_edges].
  - lia.
  - specialize (IH x). destruct (negb prev && x); lia.
Qed.

Lemma edges_seen_counts (evs : list (R * bool)) (s : WheelSensor.sensor) :
  WheelSensor._pulse_count (edges_seen evs s)
    = (WheelSensor._pulse_count s
       + rising_edges (WheelSensor._prev_state s) (map snd evs))%Z /\
  WheelSensor._last_time (edges_seen evs s) = WheelSensor._last_time s /\
  WheelSensor.pulses_per_rev (edges_seen evs s) = WheelSensor.pulses_per_rev s.
Proof.
  revert s. induction evs as [| [t level] evs IH]; intros s.
  - cbn. repeat split; lia.
  - change (edges_seen ((t, level) :: evs) s)
      with (edges_seen evs (WheelSensor._edge_callback t level s)).
    destruct (IH (WheelSensor._edge_callback t level s)) as (Hc & Ht & Hp).
    rewrite Hc, Ht, Hp.
    cbn [map snd rising_edges WheelSensor._edge_callback WheelSensor._pulse_count
         WheelSensor._prev_state WheelSensor._last_time WheelSensor.pulses_per_rev].
    destruct (negb (WheelSensor._prev_state s) && level); repeat split; lia.
Qed.

Lemma get_rpm_reading (now : R) (s : WheelSensor.sensor) :
  WheelSensor.pulses_per_rev s <> 0 ->
  exists rpm,
    fst (WheelSensor.get_rpm now s) = Ok (rpm, rpm) /\
    (rpm = None <-> now - WheelSensor._last_time s <= 0) /\
    (0 < now - WheelSensor._last_time s ->
       rpm = Some (IZR (WheelSensor._pulse_count s) / WheelSensor.pulses_per_rev s
                   / (now - WheelSensor._last_time s) * 60)).
Proof.
  intros Hppr. unfold WheelSensor.get_rpm.
  destruct (Rle_dec (now - WheelSensor._last_time s) 0) as [L | G].
  - exists None. cbn [fst]. split; [reflexivity |].
    split; [tauto | intros; lra].
  - cbn [fst]. rewrite fdiv_ok by assumption. cbn [rbind].
    rewrite fdiv_ok by lra. cbn [rbind].
    eexists. split; [reflexivity |].
    split; [| intros _; reflexivity].
    split; [discriminate | intros; lra].
Qed.

(** C10: on a sensor with a nonzero [pulses_per_rev], every call to
    [get_rpm] returns a pair of identical components: [(None, None)]
    exactly when the time since the previous sample is [<= 0], and otherwise
    [(r, r)] with [r = (pulses / pulses_per_rev) / dt * 60]. The previous
    sample is the last call that returned a rate: a call that returns
    [(None, None)] leaves the sensor as it is, and a call that returns a
    rate clears the pulse counter and stamps the time, so that the next
    call, after any stream of edges, measures from that call: it returns
    [(None, None)] exactly when no time has passed since, and otherwise the
    rate of the rising edges counted since, over the time passed since. *)
Theorem get_rpm_pair (now : R) (s : WheelSensor.sensor) :
  WheelSensor.pulses_per_rev s <> 0 ->
  let dt := now - WheelSensor._last_time s in
  let s' := snd (WheelSensor.get_rpm now s) in
  (exists rpm,
     fst (WheelSensor.get_rpm now s) = Ok (rpm, rpm) /\
     (rpm = None <-> dt <= 0) /\
     (0 < dt ->
        rpm = Some (IZR (WheelSensor._pulse_count s) / WheelSensor.pulses_per_rev s
                    / dt * 60))) /\
  (dt <= 0 -> s' = s) /\
  (0 < dt ->
     s' = {| WheelSensor.pulses_per_rev := WheelSensor.pulses_per_rev s;
             WheelSensor._pulse_count := 0;
             WheelSensor._prev_state := WheelSensor._prev_state s;
             WheelSensor._last_time := now |} /\
     forall (evs : list (R * bool)) (later : R),
     exists rpm,
       fst (WheelSensor.get_rpm later (edges_seen evs s')) = Ok (rpm, rpm) /\
       (rpm = None <-> later - now <= 0) /\
       (0 < later - now ->
          rpm = Some (IZR (rising_edges (WheelSensor._prev_state s) (map snd evs))
                      / WheelSensor.pulses_per_rev s / (later - now) * 60))).
Proof.
  intros Hppr dt s'.
  split; [apply get_rpm_reading; exact Hppr |].
  assert (Es' : s' = if Rle_dec dt 0 then s
                     else {| WheelSensor.pulses_per_rev := WheelSensor.pulses_per_rev s;
                             WheelSensor._pulse_count := 0;
                             WheelSensor._prev_state := WheelSensor._prev_state s;
                             WheelSensor._last_time := now |}).
  { unfold s', WheelSensor.get_rpm. fold dt.
    destruct (Rle_dec dt 0); reflexivity. }
  split.
  - intros L. rewrite Es'. destruct (Rle_dec dt 0) as [_ | G]; [reflexivity | lra].
  - intros G. destruct (Rle_dec dt 0) as [L | _]; [lra |].
    split; [exact Es' |].
    intros evs later.
    destruct (edges_seen_counts evs s') as (Hc & Ht & Hp).
    destruct (get_rpm_reading later (edges_seen evs s')) as (rpm & E & Hnone & Hsome).
    { rewrite Hp, Es'. exact Hppr. }
    rewrite Hc, Ht, Hp in *. rewrite Es' in Hnone, Hsome.
    cbn [WheelSensor._pulse_count WheelSensor._last_time WheelSensor.pulses_per_rev
         WheelSensor._prev_state Z.add] in Hnone, Hsome.
    exists rpm. split; [exact E |]. split; [exact Hnone | exact Hsome].
Qed.

Lemma get_rpm_pair_witness :
  let s := {| WheelSensor.pulses_per_rev := 1; WheelSensor._pulse_count := 3;
              WheelSensor._prev_state := false; WheelSensor._last_time := 0 |} in
  let dt := 2 - WheelSensor._last_time s in
  let s' := snd (WheelSensor.get_rpm 2 s) in
  (exists rpm,
     fst (WheelSensor.get_rpm 2 s) = Ok (rpm, rpm) /\
     (rpm = None <-> dt <= 0) /\
     (0 < dt ->
        rpm = Some (IZR (WheelSensor._pulse_count s) / WheelSensor.pulses_per_rev s
                    / dt * 60))) /\
  (dt <= 0 -> s' = s) /\
  (0 < dt ->
     s' = {| WheelSensor.pulses_per_rev := WheelSensor.pulses_per_rev s;
             WheelSensor._pulse_count := 0;
             WheelSensor._prev_state := WheelSensor._prev_state s;
             WheelSensor._last_time := 2 |} /\
     forall (evs : list (R * bool)) (later : R),
     exists rpm,
       fst (WheelSensor.get_rpm later (edges_seen evs s')) = Ok (rpm, rpm) /\
       (rpm = None <-> later - 2 <= 0) /\
       (0 < later - 2 ->
          rpm = Some (IZR (rising_edges (WheelSensor._prev_state s) (map snd evs))
                      / WheelSensor.pulses_per_rev s / (later - 2) * 60))).
Proof.
  intros s.
  apply (get_rpm_pair 2 s). cbn. lra.
Defined.

(** ** Reasoning about runs *)

Ltac events_ok :=
  repeat rewrite forallb_app; cbn [forallb app andb motor_event];
  repeat match goal with
         | H : forallb _ _ = true |- _ => rewrite H; cbn [andb]
         end;
  try reflexivity.

Section Runs.

Variable Sensor : Type.
Variable env : environment Sensor.

Local Open Scope lane_scope.

Lemma wp_run {A : Type} (m : M Sensor A) (s : lane Sensor) o s' l
    (Q : outcome A -> lane Sensor -> list event -> Prop) :
  m s = (o, s', l) -> wp m s Q -> Q o s' l.
Proof.
  unfold wp, outcome_of, final, events. intros E. rewrite E. cbn. trivial.
Qed.

Lemma wp_intro {A : Type} (m : M Sensor A) (s : lane Sensor)
    (Q : outcome A -> lane Sensor -> list event -> Prop) :
  (forall o s' l, m s = (o, s', l) -> Q o s' l) -> wp m s Q.
Proof.
  intros H. unfold wp, outcome_of, final, events.
  destruct (m s) as [[o s'] l]. cbn. apply H. reflexivity.
Qed.

Lemma wp_elim {A : Type} (m : M Sensor A) (s : lane Sensor)
    (Q : outcome A -> lane Sensor -> list event -> Prop) :
  wp m s Q -> exists o s' l, m s = (o, s', l) /\ Q o s' l.
Proof.
  unfold wp, outcome_of, final, events. intros H.
  destruct (m s) as [[o s'] l]. exists o, s', l. split; [reflexivity | exact H].
Qed.

Lemma wp_mono {A : Type} (m : M Sensor A) (s : lane Sensor)
    (Q Q' : outcome A -> lane Sensor -> list event -> Prop) :
  wp m s Q -> (forall o s' l, Q o s' l -> Q' o s' l) -> wp m s Q'.
Proof.
  unfold wp. intros H HQ. apply HQ. exact H.
Qed.

Lemma wp_ret {A : Type} (a : A) s (Q : outcome A -> lane Sensor -> list event -> Prop) :
  Q (Ret a) s [] -> wp (ret a) s Q.
Proof. trivial. Qed.

Lemma wp_raise {A : Type} (e : exn) s (Q : outcome A -> lane Sensor -> list event -> Prop) :
  Q (Exc e) s [] -> wp (raise e) s Q.
Proof. trivial. Qed.

Lemma wp_diverge {A : Type} s (Q : outcome A -> lane Sensor -> list event -> Prop) :
  Q Diverge s [] -> wp diverge s Q.
Proof. trivial. Qed.

Lemma wp_get s (Q : outcome (lane Sensor) -> lane Sensor -> list event -> Prop) :
  Q (Ret s) s [] -> wp get s Q.
Proof. trivial. Qed.

Lemma wp_modify f s (Q : outcome unit -> lane Sensor -> list event -> Prop) :
  Q (Ret tt) (f s) [] -> wp (modify f) s Q.
Proof. trivial. Qed.

Lemma wp_emit e s (Q : outcome unit -> lane Sensor -> list event -> Prop) :
  Q (Ret tt) s [e] -> wp (emit e) s Q.
Proof. trivial. Qed.

Lemma wp_lift {A : Type} (r : result A) s
    (Q : outcome A -> lane Sensor -> list event -> Prop) :
  match r with
  | Ok a => Q (Ret a) s []
  | Raise e => Q (Exc e) s []
  end -> wp (lift r) s Q.
Proof. destruct r; trivial. Qed.

Lemma wp_bind {A B : Type} (m : M Sensor A) (k : A -> M Sensor B) s
    (Q : outcome B -> lane Sensor -> list event -> Prop) :
  wp m s (fun o s1 l1 =>
            match o with
            | Ret a => wp (k a) s1 (fun o2 s2 l2 => Q o2 s2 (l1 ++ l2))
            | Exc e => Q (Exc e) s1 l1
            | Diverge => Q Diverge s1 l1
            end) ->
  wp (bind m k) s Q.
Proof.
  unfold wp, outcome_of, final, events, bind.
  destruct (m s) as [[o s1] l1]. cbn.
  destruct o as [a | e |]; cbn; trivial.
  destruct (k a s1) as [[o2 s2] l2]. cbn. trivial.
Qed.

Lemma wp_attempt {A : Type} (m : M Sensor A) s
    (Q : outcome (result A) -> lane Sensor -> list event -> Prop) :
  wp m s (fun o s1 l1 =>
            match o with
            | Ret a => Q (Ret (Ok a)) s1 l1
            | Exc e => Q (Ret (Raise e)) s1 l1
            | Diverge => Q Diverge s1 l1
            end) ->
  wp (attempt m) s Q.
Proof.
  unfold wp, outcome_of, final, events, attempt.
  destruct (m s) as [[o s1] l1]. cbn.
  destruct o; cbn; trivial.
Qed.

Lemma frame_refl s : frame env s s.
Proof. unfold frame. repeat split; lra. Qed.

Lemma frame_trans s1 s2 s3 : frame env s1 s2 -> frame env s2 s3 -> frame env s1 s3.
Proof.
  unfold frame.
  intros (A1 & A2 & A3 & A4 & A5 & A6 & A7 & A8) (B1 & B2 & B3 & B4 & B5 & B6 & B7 & B8).
  repeat split; try congruence; try lra.
  - destruct (A8 H), (B8 H). congruence.
  - destruct (A8 H), (B8 H). congruence.
Qed.

Lemma motor_only_ret {A : Type} (a : A) : motor_only env (ret a).
Proof. intros s. apply wp_ret. split; [apply frame_refl | reflexivity]. Qed.

Lemma motor_only_raise {A : Type} (e : exn) : motor_only env (@raise Sensor A e).
Proof. intros s. apply wp_raise. split; [apply frame_refl | reflexivity]. Qed.

Lemma motor_only_diverge {A : Type} : motor_only env (@diverge Sensor A).
Proof. intros s. apply wp_diverge. split; [apply frame_refl | reflexivity]. Qed.

Lemma motor_only_get : motor_only env (@get Sensor).
Proof. intros s. apply wp_get. split; [apply frame_refl | reflexivity]. Qed.

Lemma motor_only_lift {A : Type} (r : result A) : motor_only env (@lift Sensor A r).
Proof.
  intros s. apply wp_lift. destruct r; (split; [apply frame_refl | reflexivity]).
Qed.

Lemma motor_only_emit (e : event) : motor_event e = true -> motor_only env (@emit Sensor e).
Proof.
  intros He s. apply wp_emit. split; [apply frame_refl |]. cbn. rewrite He. reflexivity.
Qed.

Lemma motor_only_bind {A B : Type} (m : M Sensor A) (k : A -> M Sensor B) :
  motor_only env m -> (forall a, motor_only env (k a)) -> motor_only env (bind m k).
Proof.
  intros Hm Hk s. apply wp_bind.
  apply (wp_mono _ _ _ _ (Hm s)).
  intros o s1 l1 [F1 E1]. destruct o as [a | e |]; [| split; assumption ..].
  apply (wp_mono _ _ _ _ (Hk a s1)).
  intros o2 s2 l2 [F2 E2]. split.
  - eapply frame_trans; eassumption.
  - rewrite forallb_app, E1, E2. reflexivity.
Qed.

Lemma motor_only_reactor_pause (delay : R) : motor_only env (reactor_pause env delay).
Proof.
  intros s. unfold reactor_pause. apply wp_modify.
  split; [| reflexivity].
  unfold frame, suspended_until. cbn.
  repeat split; try reflexivity.
  - apply Rmax_l.
  - rewrite H. reflexivity.
  - rewrite H. reflexivity.
Qed.

Lemma motor_only_set_sensor (st : Sensor) (s0 : lane Sensor) :
  bound (wheel_sensor s0) = true ->
  wp (modify (set_wheel_sensor (Some st))) s0
     (fun _ s' l => frame env s0 s' /\ forallb motor_event l = true).
Proof.
  intros Hb. apply wp_modify. split; [| reflexivity].
  unfold frame, set_wheel_sensor. cbn.
  repeat split; try reflexivity; try lra. symmetry. exact Hb.
Qed.

Lemma motor_only_sensor_read : motor_only env (sensor_read env).
Proof.
  intros s. unfold sensor_read. apply wp_bind. apply wp_get.
  destruct (wheel_sensor s) as [st |] eqn:Hs.
  - destruct (sensor_get_rpm env (monotonic s) st) as [r st'].
    apply wp_bind.
    apply (wp_mono _ _ _ _ (motor_only_set_sensor st' s ltac:(rewrite Hs; reflexivity))).
    intros o s1 l1 [F1 E1]. destruct o as [[] | e |]; [| split; assumption ..].
    apply (wp_mono _ _ _ _ (motor_only_lift r s1)).
    intros o2 s2 l2 [F2 E2]. split.
    + eapply frame_trans; eassumption.
    + events_ok.
  - apply wp_raise. split; [apply frame_refl | reflexivity].
Qed.

Ltac motor_only_step :=
  first
    [ apply motor_only_ret
    | apply motor_only_get
    | apply motor_only_raise
    | apply motor_only_diverge
    | apply motor_only_lift
    | apply motor_only_emit; reflexivity
    | apply motor_only_reactor_pause
    | apply motor_only_sensor_read
    | assumption
    | apply motor_only_bind; [| intros ?]
    | match goal with
      | |- motor_only _ (if ?c then _ else _) => destruct c
      | |- motor_only _ (match ?x with _ => _ end) => destruct x
      | |- motor_only _ (let (_, _) := ?x in _) => destruct x
      end ].

(** Symbolic execution of the primitive steps. *)

Lemma wp_bind_get {B : Type} (k : lane Sensor -> M Sensor B) s
    (Q : outcome B -> lane Sensor -> list event -> Prop) :
  wp (k s) s Q -> wp (bind get k) s Q.
Proof.
  unfold wp, outcome_of, final, events, bind, get.
  destruct (k s s) as [[o s'] l]. cbn. trivial.
Qed.

Lemma wp_bind_ret {A B : Type} (a : A) (k : A -> M Sensor B) s
    (Q : outcome B -> lane Sensor -> list event -> Prop) :
  wp (k a) s Q -> wp (bind (ret a) k) s Q.
Proof.
  unfold wp, outcome_of, final, events, bind, ret.
  destruct (k a s) as [[o s'] l]. cbn. trivial.
Qed.

Lemma wp_bind_modify {B : Type} f (k : unit -> M Sensor B) s
    (Q : outcome B -> lane Sensor -> list event -> Prop) :
  wp (k tt) (f s) Q -> wp (bind (modify f) k) s Q.
Proof.
  unfold wp, outcome_of, final, events, bind, modify.
  destruct (k tt (f s)) as [[o s'] l]. cbn. trivial.
Qed.

Lemma wp_bind_emit {B : Type} e (k : unit -> M Sensor B) s
    (Q : outcome B -> lane Sensor -> list event -> Prop) :
  wp (k tt) s (fun o s' l => Q o s' (e :: l)) -> wp (bind (emit e) k) s Q.
Proof.
  unfold wp, outcome_of, final, events, bind, emit.
  destruct (k tt s) as [[o s'] l]. cbn. trivial.
Qed.

Lemma wp_bind_lift {A B : Type} (r : result A) (k : A -> M Sensor B) s
    (Q : outcome B -> lane Sensor -> list event -> Prop) :
  match r with
  | Ok a => wp (k a) s Q
  | Raise e => Q (Exc e) s []
  end -> wp (bind (lift r) k) s Q.
Proof.
  destruct r as [a | e]; cbn [lift].
  - apply wp_bind_ret.
  - trivial.
Qed.

Lemma wp_bind_pause {B : Type} delay (k : unit -> M Sensor B) s
    (Q : outcome B -> lane Sensor -> list event -> Prop) :
  wp (k tt) (suspended_until env (Rmax (monotonic s) (monotonic s + delay)) s) Q ->
  wp (bind (reactor_pause env delay) k) s Q.
Proof.
  intros H. unfold reactor_pause. apply wp_bind_modify. exact H.
Qed.

Lemma wp_bind_assoc {A B C : Type} (m : M Sensor A) (k : A -> M Sensor B)
    (k' : B -> M Sensor C) s (Q : outcome C -> lane Sensor -> list event -> Prop) :
  wp (bind m (fun a => bind (k a) k')) s Q -> wp (bind (bind m k) k') s Q.
Proof.
  unfold wp, outcome_of, final, events, bind.
  destruct (m s) as [[o s1] l1]. destruct o as [a | e |]; cbn; trivial.
  destruct (k a s1) as [[o2 s2] l2]. destruct o2 as [b | e |]; cbn; trivial.
  destruct (k' b s2) as [[o3 s3] l3]. cbn. rewrite app_assoc. trivial.
Qed.

(** Sequencing under [motor_only], with the lane the first step ran from. *)
Lemma motor_only_seq {A B : Type} (m : M Sensor A) (k : A -> M Sensor B) s :
  motor_only env m ->
  (forall a s1, frame env s s1 ->
     wp (k a) s1 (fun _ s2 l2 => frame env s1 s2 /\ forallb motor_event l2 = true)) ->
  wp (bind m k) s (fun _ s' l => frame env s s' /\ forallb motor_event l = true).
Proof.
  intros Hm Hk. apply wp_bind.
  apply (wp_mono _ _ _ _ (Hm s)).
  intros o s1 l1 [F1 E1]. destruct o as [a | e |]; [| split; assumption ..].
  apply (wp_mono _ _ _ _ (Hk a s1 F1)).
  intros o2 s2 l2 [F2 E2]. split.
  - eapply frame_trans; eassumption.
  - events_ok.
Qed.

Lemma motor_only_brake_n20 : motor_only env (brake_n20 env).
Proof. unfold brake_n20. repeat motor_only_step. Qed.

Lemma motor_only_drive p mtr value : motor_only env (@drive Sensor p mtr value).
Proof. unfold drive. repeat motor_only_step. Qed.

Lemma motor_only_assist value : motor_only env (assist env value).
Proof.
  unfold assist.
  repeat first [ apply motor_only_brake_n20 | apply motor_only_drive | motor_only_step ].
Qed.

Lemma motor_only_lane_pwm_value feed_rate rewind :
  motor_only env (@lane_pwm_value Sensor feed_rate rewind).
Proof. unfold lane_pwm_value. repeat motor_only_step. Qed.

Lemma motor_only_baseline_loop fuel start_time rpm :
  motor_only env (baseline_loop env fuel start_time rpm).
Proof.
  revert rpm. induction fuel as [| fuel IH]; intros rpm; cbn [baseline_loop].
  - apply motor_only_diverge.
  - repeat first [ apply IH | motor_only_step ].
Qed.

Lemma motor_only_regulation_loop fuel start_time cutoff target_rpm pwm_val rpm :
  motor_only env (regulation_loop env fuel start_time cutoff target_rpm pwm_val rpm).
Proof.
  revert pwm_val rpm. induction fuel as [| fuel IH]; intros pwm_val rpm;
    cbn [regulation_loop].
  - apply motor_only_diverge.
  - repeat first [ apply IH | apply motor_only_assist | motor_only_step ].
Qed.

Lemma motor_only_rewind_until_tension fuel speed :
  motor_only env (rewind_until_tension env fuel speed).
Proof.
  unfold rewind_until_tension.
  repeat first [ apply motor_only_assist | apply motor_only_lane_pwm_value
               | apply motor_only_baseline_loop | apply motor_only_regulation_loop
               | motor_only_step ].
Qed.

(** Motor commands and messages are invisible to the readers of segments,
    sessions and retries. *)
Lemma motor_events_silent (l : list event) :
  forallb motor_event l = true ->
  segments l = [] /\ session_trace l = [] /\ retries l = O.
Proof.
  induction l as [| e l IH]; intros H; [repeat split |].
  cbn [forallb] in H. apply andb_prop in H. destruct H as [He Hl].
  destruct (IH Hl) as (I1 & I2 & I3).
  destruct e; cbn in He; try discriminate He; cbn; repeat split; assumption.
Qed.

Lemma segments_app (l1 l2 : list event) : segments (l1 ++ l2) = segments l1 ++ segments l2.
Proof.
  induction l1 as [| e l1 IH]; [reflexivity |].
  destruct e; cbn; rewrite ?IH; reflexivity.
Qed.

Lemma session_trace_app (l1 l2 : list event) :
  session_trace (l1 ++ l2) = session_trace l1 ++ session_trace l2.
Proof.
  induction l1 as [| e l1 IH]; [reflexivity |].
  destruct e as [| | [] | | | | | | | |]; cbn; rewrite ?IH; reflexivity.
Qed.

Lemma retries_app (l1 l2 : list event) : retries (l1 ++ l2) = (retries l1 + retries l2)%nat.
Proof.
  induction l1 as [| e l1 IH]; [reflexivity |].
  destruct e as [| | | | | | [] | | | |]; cbn; rewrite ?IH; reflexivity.
Qed.

Lemma assist_calls_app (l1 l2 : list event) :
  assist_calls (l1 ++ l2) = assist_calls l1 ++ assist_calls l2.
Proof.
  induction l1 as [| e l1 IH]; [reflexivity |].
  destruct e; cbn; rewrite ?IH; reflexivity.
Qed.

Lemma wp_seq {A B : Type} (m : M Sensor A) (k : A -> M Sensor B) s
    (P : outcome A -> lane Sensor -> list event -> Prop)
    (Q : outcome B -> lane Sensor -> list event -> Prop) :
  wp m s P ->
  (forall o s1 l1, P o s1 l1 ->
     match o with
     | Ret a => wp (k a) s1 (fun o2 s2 l2 => Q o2 s2 (l1 ++ l2))
     | Exc e => Q (Exc e) s1 l1
     | Diverge => Q Diverge s1 l1
     end) ->
  wp (bind m k) s Q.
Proof.
  intros Hm Hk. apply wp_bind. apply (wp_mono _ _ _ _ Hm). exact Hk.
Qed.

(** ** Follow controller *)

Lemma wheel_follow_handler_paused (eventtime : R) (s : lane Sensor) :
  _wheel_follow_paused s = true ->
  _wheel_follow_handler env eventtime s = (Ret (eventtime + 0.1), s, []).
Proof.
  intros H. unfold _wheel_follow_handler, bind, get. rewrite H. reflexivity.
Qed.

(** C3: while the exclusion flag is set, a tick of the follow handler, and
    any number of consecutive ticks, returns the next wake time and does
    nothing else: no event is produced (in particular [assist] is not
    called) and the lane is unchanged. *)
Theorem follow_paused_only_reschedules (n : nat) (eventtime : R) (s : lane Sensor) :
  _wheel_follow_paused s = true ->
  _wheel_follow_handler env eventtime s = (Ret (eventtime + 0.1), s, []) /\
  exists next,
    follow_ticks env n eventtime s = (Ret next, s, []) /\
    assist_calls (events (follow_ticks env n eventtime) s) = [].
Proof.
  intros H. split; [apply wheel_follow_handler_paused; assumption |].
  revert eventtime. induction n as [| n IH]; intros eventtime.
  - exists eventtime. split; reflexivity.
  - destruct (IH (eventtime + 0.1)) as (next & E & _).
    exists next.
    assert (E' : follow_ticks env (S n) eventtime s = (Ret next, s, [])).
    { cbn [follow_ticks]. unfold bind.
      rewrite (wheel_follow_handler_paused eventtime s H). rewrite E. reflexivity. }
    split; [exact E' |]. unfold events. rewrite E'. reflexivity.
Qed.

(** ** Assist controller *)

(** [assist(0)] always returns: it brakes or drives the reverse channel to
    zero duty, without any division. *)
Lemma assist_zero (s : lane Sensor) :
  wp (assist env 0) s
     (fun o s' l => o = Ret tt /\ frame env s s' /\
                    forallb motor_event l = true /\ assist_calls l = [0]).
Proof.
  unfold assist. apply wp_bind_emit. apply wp_bind_get.
  destruct (afc_motor_rwd (config s)) as [rwd |].
  - destruct (Rlt_dec 0 0) as [L | _]; [lra |].
    destruct (Rgt_dec 0 0) as [L | _]; [lra |].
    destruct (bound (afc_motor_enb (config s))).
    + unfold brake_n20. apply wp_bind_get.
      apply wp_bind_emit. apply wp_bind_emit.
      destruct (bound (afc_motor_fwd (config s))).
      * apply wp_bind_emit. apply wp_bind_pause.
        apply wp_bind_emit. apply wp_bind_emit. apply wp_emit.
        split; [reflexivity |]. split; [| split; reflexivity].
        apply (wp_run _ _ _ _ _ _ eq_refl
                 (motor_only_reactor_pause (n20_break_delay_time (config s)) s)).
      * apply wp_bind_ret. apply wp_bind_pause.
        apply wp_bind_emit. apply wp_bind_emit. apply wp_ret.
        split; [reflexivity |]. split; [| split; reflexivity].
        apply (wp_run _ _ _ _ _ _ eq_refl
                 (motor_only_reactor_pause (n20_break_delay_time (config s)) s)).
    + apply wp_emit. split; [reflexivity |].
      split; [apply frame_refl | split; reflexivity].
  - apply wp_ret. split; [reflexivity |].
    split; [apply frame_refl | split; reflexivity].
Qed.

(** Without an enable channel [assist] only queues pin writes: it leaves
    the lane as it is, and it returns when the channel scales are nonzero. *)
Lemma assist_stays (value : R) (s : lane Sensor) :
  afc_motor_enb (config s) = None -> scales_ok (config s) ->
  exists l, assist env value s = (Ret tt, s, Assist value :: l) /\
            forallb motor_event l = true /\ assist_calls l = [].
Proof.
  intros Henb [Hrwd Hfwd].
  unfold assist, bind, emit, get. cbn [app].
  destruct (afc_motor_rwd (config s)) as [rwd |] eqn:Er.
  - destruct (Rlt_dec value 0) as [L | _].
    + unfold drive, bind, get, lift. rewrite fdiv_ok by (apply Hrwd; reflexivity).
      unfold ret. rewrite Henb. cbn. eexists. split; [reflexivity |]. split; reflexivity.
    + destruct (Rgt_dec value 0) as [G | _].
      * destruct (afc_motor_fwd (config s)) as [fwd |] eqn:Ef.
        -- unfold drive, bind, get, lift. rewrite fdiv_ok by (apply Hfwd; reflexivity).
           unfold ret. rewrite Henb. cbn. eexists. split; [reflexivity |]. split; reflexivity.
        -- cbn. eexists. split; [reflexivity |]. split; reflexivity.
      * rewrite Henb. cbn. eexists. split; [reflexivity |]. split; reflexivity.
  - cbn. eexists. split; [reflexivity |]. split; reflexivity.
Qed.

Lemma frame_weaken s s' : frame env s s' -> frame_move env s s'.
Proof.
  unfold frame, frame_move. intros (A1 & A2 & A3 & A4 & A5 & A6 & A7 & A8).
  repeat split; try assumption; apply A8; assumption.
Qed.

Lemma frame_move_refl s : frame_move env s s.
Proof. unfold frame_move. repeat split; lra. Qed.

Lemma frame_move_trans s1 s2 s3 :
  frame_move env s1 s2 -> frame_move env s2 s3 -> frame_move env s1 s3.
Proof.
  unfold frame_move.
  intros (A1 & A2 & A3 & A4 & A5 & A6) (B1 & B2 & B3 & B4 & B5 & B6).
  repeat split; try congruence; try lra.
  - destruct (A6 H), (B6 H). congruence.
  - destruct (A6 H), (B6 H). congruence.
Qed.

Lemma frame_move_flag b s : frame_move env s (set_wheel_follow_paused b s).
Proof. unfold frame_move, set_wheel_follow_paused. cbn. repeat split; lra. Qed.

Lemma frame_move_weight w s : frame_move env s (set_remaining_weight w s).
Proof. unfold frame_move, set_remaining_weight. cbn. repeat split; lra. Qed.

(** ** Motion segmenter: one segment *)

Lemma run_segment_spec (distance speed accel : R) (s : lane Sensor) :
  wp (run_segment env distance speed accel) s
     (fun o s' l =>
        frame env s s' /\
        match o with
        | Ret _ => exists r, calc_move_time distance speed accel = Ok r /\
                             session_trace l = [Segment] /\ segments l = [] /\
                             retries l = O /\ assist_calls l = []
        | Exc e => calc_move_time distance speed accel = Raise e /\ l = []
        | Diverge => False
        end).
Proof.
  unfold run_segment. apply wp_bind_lift.
  destruct (calc_move_time distance speed accel) as [[[[axis_r accel_t] cruise_t] cruise_v] | e].
  - apply wp_bind_emit. apply wp_bind_emit.
    unfold reactor_pause. apply wp_modify. split.
    + apply (wp_run _ _ _ _ _ _ eq_refl
               (motor_only_reactor_pause (accel_t + cruise_t + accel_t) s)).
    + eexists. split; [reflexivity |]. repeat split.
  - split; [apply frame_refl | split; reflexivity].
Qed.

(** ** The assist guard *)

Lemma assist_move_enter_spec fuel speed rewind assist_active (s : lane Sensor) :
  wp (assist_move_enter env fuel speed rewind assist_active) s
     (fun o s' l =>
        frame env (if assist_active then set_wheel_follow_paused true s else s) s' /\
        (exists l', l = (if assist_active then [FollowPaused true] else []) ++ l' /\
                    forallb motor_event l' = true) /\
        (o = Ret YieldAfterRewind ->
           assist_active = true /\ rewind && bound (wheel_sensor s) = true) /\
        (o = Ret YieldInTry ->
           assist_active && (rewind && bound (wheel_sensor s)) = false)).
Proof.
  unfold assist_move_enter. destruct assist_active.
  - apply wp_bind_modify. apply wp_bind_emit. apply wp_bind_get.
    change (wheel_sensor (set_wheel_follow_paused true s)) with (wheel_sensor s).
    destruct (rewind && bound (wheel_sensor s)) eqn:Hrw.
    + eapply wp_seq;
        [apply (motor_only_rewind_until_tension fuel speed (set_wheel_follow_paused true s)) |].
      intros o s1 l1 [F1 E1]. destruct o as [[] | e |].
      * apply wp_ret. split; [assumption |]. split.
        -- exists l1. split; [rewrite app_nil_r; reflexivity | assumption].
        -- split; [intros _; split; reflexivity | discriminate].
      * split; [assumption |]. split; [exists l1; split; [reflexivity | assumption] |].
        split; discriminate.
      * split; [assumption |]. split; [exists l1; split; [reflexivity | assumption] |].
        split; discriminate.
    + assert (Hv : motor_only env
                (if rewind
                 then v <- lane_pwm_value speed true ;; @ret Sensor _ (v * -1)
                 else lane_pwm_value speed false)%lane).
      { repeat first [ apply motor_only_lane_pwm_value | motor_only_step ]. }
      eapply wp_seq; [apply (Hv (set_wheel_follow_paused true s)) |].
      intros o s1 l1 [F1 E1]. destruct o as [value | e |].
      * eapply wp_seq; [apply (motor_only_assist _ s1) |].
        intros o2 s2 l2 [F2 E2].
        assert (F : frame env (set_wheel_follow_paused true s) s2)
          by (eapply frame_trans; eassumption).
        destruct o2 as [[] | e |].
        -- apply wp_ret. split; [assumption |]. split.
           ++ exists (l1 ++ l2). split; [rewrite app_nil_r; reflexivity | events_ok].
           ++ split; [discriminate | intros _; reflexivity].
        -- split; [assumption |]. split.
           ++ exists (l1 ++ l2). split; [reflexivity | events_ok].
           ++ split; discriminate.
        -- split; [assumption |]. split.
           ++ exists (l1 ++ l2). split; [reflexivity | events_ok].
           ++ split; discriminate.
      * split; [assumption |]. split; [exists l1; split; [reflexivity | assumption] |].
        split; discriminate.
      * split; [assumption |]. split; [exists l1; split; [reflexivity | assumption] |].
        split; discriminate.
  - apply wp_ret. split; [apply frame_refl |].
    split; [exists []; split; reflexivity |].
    split; [discriminate | intros _; reflexivity].
Qed.

Lemma assist_move_finally_spec rewind assist_active (s : lane Sensor) :
  wp (assist_move_finally env rewind assist_active) s
     (fun o s' l =>
        o = Ret tt /\ frame_move env s s' /\
        remaining_weight s' = remaining_weight s /\
        _wheel_follow_paused s' = false /\
        exists l', l = l' ++ [FollowPaused false] /\
                   forallb motor_event l' = true /\
                   (assist_active && negb (rewind && bound (wheel_sensor s)) = true ->
                    assist_calls l' = [0])).
Proof.
  unfold assist_move_finally. apply wp_bind_get.
  destruct (assist_active && negb (rewind && bound (wheel_sensor s))).
  - eapply wp_seq; [apply assist_zero |].
    intros o s1 l1 (Ho & F1 & E1 & C1). subst o.
    apply wp_bind_modify. apply wp_emit.
    split; [reflexivity |]. split.
    { eapply frame_move_trans; [apply frame_weaken; eassumption | apply frame_move_flag]. }
    split; [apply F1 |]. split; [reflexivity |].
    exists l1. split; [reflexivity |]. split; [assumption | intros _; assumption].
  - apply wp_bind_ret. apply wp_bind_modify. apply wp_emit.
    split; [reflexivity |]. split; [apply frame_move_flag |].
    split; [reflexivity |]. split; [reflexivity |].
    exists []. split; [reflexivity |]. split; [reflexivity | discriminate].
Qed.

Lemma assist_move_resume_spec y rewind assist_active (s : lane Sensor) :
  wp (assist_move_resume env y rewind assist_active) s
     (fun o s' l =>
        o = Ret tt /\ frame_move env s s' /\
        remaining_weight s' = remaining_weight s /\
        _wheel_follow_paused s' = false /\
        exists l', l = l' ++ [FollowPaused false] /\
                   forallb motor_event l' = true /\
                   (y = YieldInTry ->
                    assist_active && negb (rewind && bound (wheel_sensor s)) = true ->
                    assist_calls l' = [0])).
Proof.
  destruct y; cbn [assist_move_resume].
  - apply wp_bind_modify. apply wp_emit.
    split; [reflexivity |]. split; [apply frame_move_flag |].
    split; [reflexivity |]. split; [reflexivity |].
    exists []. split; [reflexivity |]. split; [reflexivity | discriminate].
  - apply (wp_mono _ _ _ _ (assist_move_finally_spec rewind assist_active s)).
    intros o s' l (Ho & F & W & P & l' & El & Em & Ec).
    repeat (split; [assumption |]).
    exists l'. split; [assumption |]. split; [assumption | intros _; assumption].
Qed.

Lemma assist_move_throw_spec {A : Type} y e rewind assist_active (s : lane Sensor) :
  wp (@assist_move_throw Sensor env A y e rewind assist_active) s
     (fun o s' l =>
        o = Exc e /\ frame_move env s s' /\
        remaining_weight s' = remaining_weight s /\
        match y with
        | YieldAfterRewind => s' = s /\ l = []
        | YieldInTry =>
            _wheel_follow_paused s' = false /\
            exists l', l = l' ++ [FollowPaused false] /\
                       forallb motor_event l' = true /\
                       (assist_active && negb (rewind && bound (wheel_sensor s)) = true ->
                        assist_calls l' = [0])
        end).
Proof.
  destruct y; cbn [assist_move_throw].
  - apply wp_raise. split; [reflexivity |]. split; [apply frame_move_refl |].
    split; [reflexivity |]. split; reflexivity.
  - eapply wp_seq; [apply assist_move_finally_spec |].
    intros o s1 l1 (Ho & F & W & P & l' & El & Em & Ec). subst o.
    apply wp_raise. rewrite app_nil_r.
    split; [reflexivity |].
    split; [assumption |]. split; [assumption |]. split; [assumption |].
    exists l'. split; [assumption |]. split; assumption.
Qed.

Lemma silent_then_flag (l' : list event) (e : event) :
  forallb motor_event l' = true ->
  segments (l' ++ [e]) = segments [e] /\
  session_trace (l' ++ [e]) = session_trace [e] /\
  retries (l' ++ [e]) = retries [e].
Proof.
  intros H. destruct (motor_events_silent l' H) as (S1 & S2 & S3).
  rewrite segments_app, session_trace_app, retries_app, S1, S2, S3.
  repeat split.
Qed.

(** One call of [_move]: the segment it was called with, the weight
    update of an assisted segment, and, when it returns, a session of its
    own around the segment. *)
Lemma _move_spec fuel distance speed accel assist_active (s : lane Sensor) :
  wp (_move env fuel distance speed accel assist_active) s
     (fun o s' l =>
        frame_move env s s' /\
        segments l = [distance] /\
        retries l = O /\
        remaining_weight s' =
          (if assist_active
           then update_remaining_weight (config s) (remaining_weight s) distance
           else remaining_weight s) /\
        (o = Ret tt ->
           _wheel_follow_paused s' = false /\
           (exists r, calc_move_time distance speed accel = Ok r) /\
           session_trace l =
             (if assist_active then [Begin] else []) ++ [Segment; End_])).
Proof.
  unfold _move. apply wp_bind_emit.
  set (s0 := if assist_active
             then set_remaining_weight
                    (update_remaining_weight (config s) (remaining_weight s) distance) s
             else s).
  assert (F0 : frame_move env s s0).
  { unfold s0. destruct assist_active; [apply frame_move_weight | apply frame_move_refl]. }
  assert (W0 : remaining_weight s0 =
               (if assist_active
                then update_remaining_weight (config s) (remaining_weight s) distance
                else remaining_weight s)).
  { unfold s0. destruct assist_active; reflexivity. }
  assert (Hgo : wp (with_assist_move env fuel speed
                      (if Rlt_dec distance 0 then true else false) assist_active
                      (run_segment env distance speed accel)) s0
                  (fun o s' l =>
                     frame_move env s0 s' /\ segments l = [] /\ retries l = O /\
                     remaining_weight s' = remaining_weight s0 /\
                     (o = Ret tt ->
                      _wheel_follow_paused s' = false /\
                      (exists r, calc_move_time distance speed accel = Ok r) /\
                      session_trace l =
                        (if assist_active then [Begin] else []) ++ [Segment; End_]))).
  { set (rw := if Rlt_dec distance 0 then true else false).
    unfold with_assist_move.
    eapply wp_seq; [apply assist_move_enter_spec |].
    intros o s1 l1 (F1 & (l1' & El1 & Em1) & _ & _).
    assert (F1m : frame_move env s0 s1).
    { eapply frame_move_trans; [| apply frame_weaken; exact F1].
      destruct assist_active; [apply frame_move_flag | apply frame_move_refl]. }
    assert (W1 : remaining_weight s1 = remaining_weight s0).
    { destruct F1 as (_ & W & _). rewrite W. destruct assist_active; reflexivity. }
    destruct (motor_events_silent l1' Em1) as (Sg1 & St1 & Sr1).
    assert (Q1 : segments l1 = [] /\ retries l1 = O /\
                 session_trace l1 = (if assist_active then [Begin] else [])).
    { subst l1. rewrite segments_app, retries_app, session_trace_app, Sg1, St1, Sr1.
      destruct assist_active; repeat split. }
    destruct Q1 as (Sg & Sr & St).
    destruct o as [y | e |];
      [| (split; [assumption |]; split; [assumption |]; split; [assumption |];
          split; [assumption | discriminate]) ..].
    apply wp_bind. apply wp_attempt.
    apply (wp_mono _ _ _ _ (run_segment_spec distance speed accel s1)).
    intros o2 s2 l2 [F2 H2].
    assert (F2m : frame_move env s0 s2).
    { eapply frame_move_trans; [exact F1m | apply frame_weaken; exact F2]. }
    assert (W2 : remaining_weight s2 = remaining_weight s0).
    { destruct F2 as (_ & W & _). congruence. }
    destruct o2 as [[] | e |]; [| | contradiction].
    - destruct H2 as (r & Hr & T2 & G2 & R2 & _).
      eapply wp_seq; [apply assist_move_resume_spec |].
      intros o3 s3 l3 (Ho & F3 & W3 & P3 & l3' & El3 & Em3 & _). subst o3.
      apply wp_ret.
      destruct (silent_then_flag l3' (FollowPaused false) Em3) as (G3 & T3 & R3).
      rewrite <- El3 in G3, T3, R3.
      rewrite app_nil_r.
      rewrite !segments_app, !retries_app, !session_trace_app.
      rewrite Sg, Sr, St, T2, G2, R2, G3, T3, R3.
      split; [eapply frame_move_trans; eassumption |].
      split; [reflexivity |]. split; [reflexivity |].
      split; [congruence |].
      intros _. split; [assumption |]. split; [exists r; assumption |].
      destruct assist_active; reflexivity.
    - destruct H2 as [Hr El2]. subst l2.
      apply (wp_mono _ _ _ _ (assist_move_throw_spec y e rw assist_active s2)).
      intros o3 s3 l3 (Ho & F3 & W3 & H3). subst o3.
      cbn [app].
      assert (Q3 : segments l3 = [] /\ retries l3 = O).
      { destruct y.
        - destruct H3 as [_ El3]. subst l3. split; reflexivity.
        - destruct H3 as (_ & l3' & El3 & Em3 & _). subst l3.
          destruct (silent_then_flag l3' (FollowPaused false) Em3) as (G3 & T3 & R3).
          rewrite G3, R3. split; reflexivity. }
      destruct Q3 as [G3 R3].
      rewrite !segments_app, !retries_app, Sg, Sr, G3, R3.
      split; [eapply frame_move_trans; eassumption |].
      split; [reflexivity |]. split; [reflexivity |].
      split; [congruence | discriminate]. }
  destruct assist_active.
  - apply wp_bind_modify. fold s0.
    apply (wp_mono _ _ _ _ Hgo).
    intros o s' l (F & G & Rt & W & H).
    split; [exact (frame_move_trans _ _ _ F0 F) |].
    cbn [segments retries session_trace]. rewrite G, Rt.
    split; [reflexivity |]. split; [reflexivity |].
    split; [congruence |]. exact H.
  - apply wp_bind_ret. fold s0.
    apply (wp_mono _ _ _ _ Hgo).
    intros o s' l (F & G & Rt & W & H).
    split; [exact (frame_move_trans _ _ _ F0 F) |].
    cbn [segments retries session_trace]. rewrite G, Rt.
    split; [reflexivity |]. split; [reflexivity |].
    split; [congruence |]. exact H.
Qed.

Lemma wp_conj {A : Type} (m : M Sensor A) s
    (P Q : outcome A -> lane Sensor -> list event -> Prop) :
  wp m s P -> wp m s Q -> wp m s (fun o s' l => P o s' l /\ Q o s' l).
Proof. unfold wp. intros HP HQ. split; assumption. Qed.

(** An unassisted segment returns as soon as its timing is defined. *)
Lemma _move_unassisted_returns fuel distance speed accel (s : lane Sensor) :
  (exists r, calc_move_time distance speed accel = Ok r) ->
  wp (_move env fuel distance speed accel false) s (fun o _ _ => o = Ret tt).
Proof.
  intros [[[[axis_r accel_t] cruise_t] cruise_v] Hr].
  unfold wp, outcome_of, _move, with_assist_move, assist_move_enter, run_segment,
    assist_move_resume, assist_move_finally, reactor_pause,
    bind, attempt, emit, ret, get, modify, lift.
  rewrite Hr. reflexivity.
Qed.

(** ** Motion segmenter: the whole move *)

Lemma move_loop_spec inner fuel move_total direction speed accel assist_active
    (s : lane Sensor) :
  wp (move_loop env inner fuel move_total direction speed accel assist_active) s
     (fun o s' l =>
        frame_move env s s' /\
        retries l = O /\
        (assist_active = true ->
           remaining_weight s' =
             fold_left (update_remaining_weight (config s)) (segments l)
                       (remaining_weight s)) /\
        (o = Ret tt ->
           splits (max_move_dis (config s)) direction move_total (segments l) /\
           Forall (fun d => exists r, calc_move_time d speed accel = Ok r) (segments l) /\
           (assist_active = true ->
              session_trace l = session_each (List.length (segments l))))).
Proof.
  revert move_total s. induction fuel as [| fuel IH]; intros move_total s;
    cbn [move_loop].
  - apply wp_diverge. split; [apply frame_move_refl |]. split; [reflexivity |].
    split; [reflexivity | discriminate].
  - destruct (Rgt_dec move_total 0) as [Hpos | Hnpos].
    + apply wp_bind_get.
      set (limit := max_move_dis (config s)).
      set (mv := if Rgt_dec move_total limit then limit else move_total).
      eapply wp_seq; [apply _move_spec |].
      intros o s1 l1 (F1 & G1 & R1 & W1 & H1).
      assert (C1 : config s1 = config s) by apply F1.
      destruct o as [[] | e |].
      * apply (wp_mono _ _ _ _ (IH (move_total - mv) s1)).
        intros o2 s2 l2 (F2 & R2 & W2 & H2).
        rewrite segments_app, retries_app, session_trace_app, G1, R1, R2.
        split; [eapply frame_move_trans; eassumption |].
        split; [reflexivity |].
        split.
        { intros Ha. cbn [app fold_left]. rewrite (W2 Ha), C1. f_equal.
          rewrite W1, Ha. reflexivity. }
        intros Ho. destruct (H2 Ho) as (Sp & Fa & St).
        destruct (H1 eq_refl) as (_ & Hr & T1).
        rewrite C1 in Sp. split; [| split].
        -- cbn [app]. apply splits_step; assumption.
        -- cbn [app]. constructor; assumption.
        -- intros Ha. rewrite T1, (St Ha), Ha. reflexivity.
      * rewrite G1, R1. split; [assumption |]. split; [reflexivity |].
        split; [| discriminate].
        intros Ha. cbn [fold_left]. rewrite W1, Ha. reflexivity.
      * rewrite G1, R1. split; [assumption |]. split; [reflexivity |].
        split; [| discriminate].
        intros Ha. cbn [fold_left]. rewrite W1, Ha. reflexivity.
    + apply wp_ret. split; [apply frame_move_refl |]. split; [reflexivity |].
      split; [reflexivity |].
      intros _. split; [apply splits_done; assumption |].
      split; [constructor | reflexivity].
Qed.

(** The loop of [move] returns when every segment does: [n] segments of
    the limit cover [move_total], and [n + 1] units of fuel are enough.
    [good] is what the lane has to satisfy for a segment to return; it has
    to survive a segment. *)
Lemma move_loop_returns_when (good : lane Sensor -> Prop) assist_active
    speed accel direction (n : nat) :
  (forall s s', good s -> frame_move env s s' -> good s') ->
  (forall inner d s, good s ->
     wp (_move env inner d speed accel assist_active) s (fun o _ _ => o = Ret tt)) ->
  forall fuel inner move_total (s : lane Sensor),
    good s ->
    0 < max_move_dis (config s) ->
    move_total <= INR n * max_move_dis (config s) ->
    (n < fuel)%nat ->
    wp (move_loop env inner fuel move_total direction speed accel assist_active) s
       (fun o _ _ => o = Ret tt).
Proof.
  intros Hkeep Hseg.
  induction n as [| n IH]; intros fuel inner move_total s Hgood Hmax Hle Hfuel.
  - destruct fuel as [| fuel]; [lia |]. cbn [move_loop].
    cbn [INR] in Hle.
    destruct (Rgt_dec move_total 0) as [Hpos | _]; [lra | apply wp_ret; reflexivity].
  - destruct fuel as [| fuel]; [lia |]. cbn [move_loop].
    destruct (Rgt_dec move_total 0) as [Hpos | _]; [| apply wp_ret; reflexivity].
    apply wp_bind_get.
    eapply wp_seq.
    { apply wp_conj; [apply _move_spec | apply Hseg; exact Hgood]. }
    cbv beta. intros o s1 l1 [(F1 & _) Ho]. subst o.
    assert (C1 : config s1 = config s) by apply F1.
    assert (Hn : 0 <= INR n * max_move_dis (config s))
      by (apply Rmult_le_pos; [apply pos_INR | lra]).
    assert (Hle' : move_total
                   - (if Rgt_dec move_total (max_move_dis (config s))
                      then max_move_dis (config s) else move_total)
                   <= INR n * max_move_dis (config s1)).
    { rewrite C1. rewrite S_INR in Hle.
      destruct (Rgt_dec move_total (max_move_dis (config s))); lra. }
    apply (wp_mono _ _ _ _
             (IH fuel inner _ s1 (Hkeep _ _ Hgood F1)
                 ltac:(rewrite C1; exact Hmax) Hle' ltac:(lia))).
    intros o2 _ _ Ho2. exact Ho2.
Qed.

Lemma move_loop_unassisted_returns speed accel direction (n : nat) :
  0 < speed -> 0 <= accel ->
  forall fuel inner move_total (s : lane Sensor),
    0 < max_move_dis (config s) ->
    move_total <= INR n * max_move_dis (config s) ->
    (n < fuel)%nat ->
    wp (move_loop env inner fuel move_total direction speed accel false) s
       (fun o _ _ => o = Ret tt).
Proof.
  intros Hv Ha fuel inner move_total s.
  apply (move_loop_returns_when (fun _ => True) false speed accel direction n).
  - trivial.
  - intros inner' d s' _.
    apply _move_unassisted_returns. apply calc_move_time_returns; assumption.
  - trivial.
Qed.

Lemma splits_inv limit direction move_total segs :
  splits limit direction move_total segs ->
  (~ move_total > 0 /\ segs = []) \/
  (move_total > 0 /\
   exists rest,
     segs = (if Rgt_dec move_total limit then limit else move_total) * direction :: rest /\
     splits limit direction
       (move_total - (if Rgt_dec move_total limit then limit else move_total)) rest).
Proof.
  intros H. destruct H as [total Hn | total rest Hp Hrest].
  - left. split; [assumption | reflexivity].
  - right. split; [assumption |]. exists rest. split; [reflexivity | assumption].
Qed.

Lemma splits_full limit direction move_total segs :
  0 < limit -> move_total > limit ->
  splits limit direction move_total segs ->
  exists rest, segs = limit * direction :: rest /\
               splits limit direction (move_total - limit) rest.
Proof.
  intros Hl Hgt H. apply splits_inv in H. destruct H as [[Hn _] | [_ (rest & E & Hr)]].
  - exfalso. apply Hn. lra.
  - destruct (Rgt_dec move_total limit) as [_ | N]; [| contradiction].
    exists rest. split; assumption.
Qed.

Lemma splits_last limit direction move_total segs :
  move_total > 0 -> ~ move_total > limit ->
  splits limit direction move_total segs ->
  segs = [move_total * direction].
Proof.
  intros Hp Hle H. apply splits_inv in H. destruct H as [[Hn _] | [_ (rest & E & Hr)]].
  - contradiction.
  - destruct (Rgt_dec move_total limit) as [G | _]; [contradiction |].
    apply splits_inv in Hr. destruct Hr as [[_ Er] | [Hp' _]].
    + subst. reflexivity.
    + exfalso. lra.
Qed.

Lemma splits_bounded_signed_exact limit direction move_total segs :
  0 < limit -> direction * direction = 1 -> 0 <= move_total ->
  splits limit direction move_total segs ->
  Forall (fun d => Rabs d <= limit /\ 0 < d * direction) segs /\
  Rsum segs = move_total * direction.
Proof.
  intros Hl Hd Hnn H. induction H as [total Hn | total rest Hp Hrest IH].
  - split; [constructor |]. cbn. assert (total = 0) by lra. subst. ring.
  - set (mv := if Rgt_dec total limit then limit else total) in *.
    assert (Hmv : 0 < mv <= limit /\ mv <= total).
    { unfold mv. destruct (Rgt_dec total limit); lra. }
    destruct IH as [Fa Su]; [lra |].
    split.
    + constructor; [| assumption]. split.
      * assert (Hdir : Rabs direction = 1).
        { destruct (Rcase_abs direction) as [L | G].
          - rewrite Rabs_left by assumption. nra.
          - rewrite Rabs_right by assumption. nra. }
        rewrite Rabs_mult, Hdir, Rabs_right by lra. lra.
      * replace (mv * direction * direction) with (mv * (direction * direction)) by ring.
        rewrite Hd. lra.
    + cbn [Rsum]. rewrite Su. ring.
Qed.

Lemma cover_by_segments (limit move_total : R) :
  0 < limit -> exists n : nat, move_total <= INR n * limit.
Proof.
  intros Hl.
  destruct (archimed (move_total / limit)) as [Hup _].
  set (z := up (move_total / limit)) in *.
  exists (Z.to_nat z).
  destruct (Z_lt_le_dec 0 z) as [Hz | Hz].
  - rewrite INR_IZR_INZ, Z2Nat.id by lia.
    apply Rlt_le.
    apply (Rmult_lt_compat_r limit) in Hup; [| assumption].
    unfold Rdiv in Hup. rewrite Rmult_assoc, Rinv_l, Rmult_1_r in Hup by lra.
    exact Hup.
  - assert (Hz0 : Z.to_nat z = O) by lia. rewrite Hz0. cbn [INR].
    assert (IZR z <= 0) by (apply IZR_le in Hz; exact Hz).
    assert (Hq : move_total / limit < 0) by lra.
    assert (move_total < 0).
    { apply (Rmult_lt_compat_r limit) in Hq; [| assumption].
      unfold Rdiv in Hq. rewrite Rmult_assoc, Rinv_l, Rmult_1_r, Rmult_0_l in Hq by lra.
      exact Hq. }
    lra.
Qed.

Lemma move_run fuel distance speed accel assist_active (s s' : lane Sensor) l :
  move env fuel distance speed accel assist_active s = (Ret tt, s', l) ->
  splits (max_move_dis (config s)) (if Rgt_dec distance 0 then 1 else -1)
         (Rabs distance) (segments l) /\
  (assist_active = true -> session_trace l = session_each (List.length (segments l))) /\
  (assist_active = true ->
     remaining_weight s' =
       fold_left (update_remaining_weight (config s)) (segments l) (remaining_weight s)).
Proof.
  intros E. unfold move in E.
  pose proof (wp_run _ _ _ _ _ _ E
                (move_loop_spec fuel fuel (Rabs distance)
                   (if Rgt_dec distance 0 then 1 else -1) speed accel assist_active s))
    as (_ & _ & W & H).
  destruct (H eq_refl) as (Sp & _ & St).
  split; [assumption |]. split; assumption.
Qed.

(** C4, amended: when a move issued with [assist_active] true returns,
    every segment was executed inside an assist session of its own: the
    exclusion flag is raised before and lowered after each single segment,
    so a move of [n] segments opens and closes [n] sessions, and for two or
    more segments no single session spans the move. *)
Theorem move_session_per_segment fuel distance speed accel (s s' : lane Sensor) l :
  move env fuel distance speed accel true s = (Ret tt, s', l) ->
  session_trace l = session_each (List.length (segments l)) /\
  ((2 <= List.length (segments l))%nat ->
   session_trace l <> one_session (List.length (segments l))).
Proof.
  intros E. destruct (move_run _ _ _ _ _ _ _ _ E) as (_ & St & _).
  specialize (St eq_refl). split; [assumption |].
  intros Hlen. rewrite St.
  destruct (segments l) as [| d1 [| d2 rest]]; cbn [List.length] in Hlen; try lia.
  cbn. discriminate.
Qed.

(** ** Lane state machine: the load retry *)

Lemma abs_direction (d : R) : Rabs d * (if Rgt_dec d 0 then 1 else -1) = d.
Proof.
  destruct (Rgt_dec d 0) as [G | N].
  - rewrite Rabs_right by lra. ring.
  - rewrite Rabs_left1 by lra. ring.
Qed.

Lemma Rsum_app (l1 l2 : list R) : Rsum (l1 ++ l2) = Rsum l1 + Rsum l2.
Proof.
  induction l1 as [| x l1 IH]; cbn [app Rsum]; [ring | rewrite IH; ring].
Qed.

Lemma move_unassisted_spec inner (n : nat) distance speed accel (s : lane Sensor) :
  0 < speed -> 0 <= accel ->
  0 < max_move_dis (config s) ->
  Rabs distance <= INR n * max_move_dis (config s) ->
  (n < inner)%nat ->
  wp (move env inner distance speed accel false) s
     (fun o s' l => o = Ret tt /\ frame_move env s s' /\ retries l = O /\
                    Rsum (segments l) = distance).
Proof.
  intros Hv Ha Hmax Hn Hin. unfold move.
  apply (wp_mono _ _ _ _
           (wp_conj _ _ _ _
              (move_loop_spec inner inner (Rabs distance)
                 (if Rgt_dec distance 0 then 1 else -1) speed accel false s)
              (move_loop_unassisted_returns speed accel
                 (if Rgt_dec distance 0 then 1 else -1) n Hv Ha inner inner
                 (Rabs distance) s Hmax Hn Hin))).
  intros o s' l [(F & Rt & _ & H) Ho].
  split; [assumption |]. split; [assumption |]. split; [assumption |].
  destruct (H Ho) as (Sp & _).
  assert (Hdir : (if Rgt_dec distance 0 then 1 else -1)
                 * (if Rgt_dec distance 0 then 1 else -1) = 1)
    by (destruct (Rgt_dec distance 0); ring).
  destruct (splits_bounded_signed_exact _ _ _ _ Hmax Hdir (Rabs_pos distance) Sp)
    as [_ Su].
  rewrite Su. apply abs_direction.
Qed.

Lemma load_retry_loop_spec (c : lane_config) (n : nat) :
  0 < max_move_dis c -> 10 <= INR n * max_move_dis c ->
  forall (k fuel inner : nat) (x : Z) (s : lane Sensor),
    config s = c -> (n < inner)%nat -> (k < fuel)%nat ->
    (0 <= x <= 40)%Z -> (41 - x <= Z.of_nat k)%Z ->
    wp (load_retry_loop env inner fuel x) s
       (fun o s' l =>
          exists x',
            o = Ret x' /\ (x <= x' <= 41)%Z /\
            Z.of_nat (retries l) = (x' - x)%Z /\
            Rsum (segments l) = 10 * IZR (x' - x) /\
            config s' = c /\
            (x' = 41%Z ->
               status s' = Some EmptyString /\
               exists l0, l = l0 ++ [AfcError MsgFailedToLoad false; LedFault]) /\
            ((x' < 41)%Z -> retry_wanted s' = false) /\
            ((forall t levels, edges env t levels = levels) ->
             retry_wanted s = true -> x' = 41%Z)).
Proof.
  intros Hmax Hn. induction k as [| k IH]; intros fuel inner x s Hc Hin Hfuel Hx Hk;
    [lia |].
  destruct fuel as [| fuel]; [lia |]. cbn [load_retry_loop].
  apply wp_bind_get. fold (retry_wanted s).
  destruct (retry_wanted s) eqn:Hw.
  - unfold do_enable. apply wp_bind_emit.
    eapply wp_seq.
    { apply (move_unassisted_spec inner n 10 500 400 s); try lra.
      - rewrite Hc. exact Hmax.
      - rewrite Hc, Rabs_right by lra. exact Hn.
      - exact Hin. }
    cbv beta. intros o s1 l1 (Ho & F1 & R1 & D1). subst o.
    apply wp_bind_pause.
    set (s2 := suspended_until env (Rmax (monotonic s1) (monotonic s1 + 0.1)) s1).
    assert (F2 : frame_move env s1 s2).
    { apply frame_weaken.
      apply (wp_run _ _ _ _ _ _ eq_refl (motor_only_reactor_pause 0.1 s1)). }
    assert (F : frame_move env s s2) by (eapply frame_move_trans; eassumption).
    assert (C2 : config s2 = c) by (destruct F as (C & _); congruence).
    assert (Hkeep : (forall t levels, edges env t levels = levels) ->
                    retry_wanted s2 = true).
    { intros He. destruct F as (C & _ & _ & _ & _ & L). destruct (L He) as [Lp Ll].
      unfold retry_wanted in *. rewrite Lp, Ll, C. exact Hw. }
    destruct (40 <? x + 1)%Z eqn:Hcap.
    + apply Z.ltb_lt in Hcap.
      apply wp_bind_emit. apply wp_bind_emit. apply wp_bind_modify. apply wp_ret.
      exists (x + 1)%Z. split; [reflexivity |]. split; [lia |].
      split.
      { cbn [retries]. rewrite retries_app, R1. cbn [retries]. lia. }
      split.
      { cbn [segments]. rewrite segments_app, Rsum_app, D1. cbn [segments Rsum].
        replace (x + 1 - x)%Z with 1%Z by lia. lra. }
      split; [exact C2 |]. split.
      { intros _. split; [reflexivity |].
        exists (MotorEnable true :: l1). reflexivity. }
      split; [intros; lia | intros; lia].
    + apply Z.ltb_ge in Hcap.
      apply (wp_mono _ _ _ _
               (IH fuel inner (x + 1)%Z s2 C2 Hin ltac:(lia) ltac:(lia) ltac:(lia))).
      intros o3 s3 l3 (x' & Ho & Hb & Hr & Hd & C3 & H41 & Hlt & Hne).
      exists x'. split; [assumption |]. split; [lia |].
      split.
      { cbn [retries]. rewrite !retries_app, R1. cbn [plus].
        rewrite Nat2Z.inj_succ. lia. }
      split.
      { cbn [segments]. rewrite !segments_app, !Rsum_app, D1, Hd.
        replace (x' - x)%Z with (1 + (x' - (x + 1)))%Z by lia.
        rewrite plus_IZR. lra. }
      split; [assumption |]. split.
      { intros E41. destruct (H41 E41) as [Hs (l0 & El)]. split; [assumption |].
        exists (MotorEnable true :: l1 ++ l0). rewrite El.
        cbn [app]. rewrite app_assoc. reflexivity. }
      split; [assumption |].
      intros He _. apply Hne; [assumption | apply Hkeep; assumption].
  - apply wp_ret. exists x. split; [reflexivity |]. split; [lia |].
    split; [cbn; lia |].
    split; [cbn [segments Rsum]; rewrite Z.sub_diag; lra |].
    split; [assumption |].
    split; [intros; lia |]. split; [intros _; assumption | intros _ Habs; discriminate Habs].
Qed.

(** The load retry, from any lane with a positive segment limit. *)
Lemma load_retry_run (s : lane Sensor) :
  0 < max_move_dis (config s) ->
  exists n, forall fuel, (n <= fuel)%nat ->
    exists x s' l,
      load_retry env fuel s = (Ret x, s', l) /\
      (0 <= x <= 41)%Z /\
      Z.of_nat (retries l) = x /\
      Rsum (segments l) = 10 * IZR x /\
      status s' = Some EmptyString /\
      (x = 41%Z ->
         exists l0, l = l0 ++ [AfcError MsgFailedToLoad false; LedFault]) /\
      ((x < 41)%Z -> retry_wanted s' = false) /\
      ((forall t levels, edges env t levels = levels) ->
       retry_wanted s = true -> x = 41%Z).
Proof.
  intros Hmax.
  destruct (cover_by_segments (max_move_dis (config s)) 10 Hmax) as [n Hn].
  exists (S n + 42)%nat. intros fuel Hfuel.
  assert (Hwp : wp (load_retry env fuel) s
                  (fun o s' l =>
                     exists x, o = Ret x /\
                       (0 <= x <= 41)%Z /\
                       Z.of_nat (retries l) = x /\
                       Rsum (segments l) = 10 * IZR x /\
                       status s' = Some EmptyString /\
                       (x = 41%Z ->
                          exists l0, l = l0 ++ [AfcError MsgFailedToLoad false; LedFault]) /\
                       ((x < 41)%Z -> retry_wanted s' = false) /\
                       ((forall t levels, edges env t levels = levels) ->
                        retry_wanted s = true -> x = 41%Z))).
  { unfold load_retry.
    eapply wp_seq.
    { apply (load_retry_loop_spec (config s) n Hmax Hn 41 fuel fuel 0 s eq_refl);
        lia. }
    cbv beta. intros o s1 l1 (x & Ho & Hb & Hr & Hd & C1 & H41 & Hlt & Hne). subst o.
    apply wp_bind_modify. apply wp_ret.
    exists x. split; [reflexivity |]. split; [lia |].
    rewrite app_nil_r.
    split; [lia |]. split; [rewrite Hd; f_equal; f_equal; lia |].
    split; [reflexivity |].
    split; [intros E; apply H41; assumption |].
    split; [intros L; apply (Hlt L) | assumption]. }
  unfold wp, outcome_of, final, events in Hwp.
  destruct (load_retry env fuel s) as [[o s'] l]. cbn [fst snd] in Hwp.
  destruct Hwp as (x & Ho & H). subst o.
  exists x, s', l. split; [reflexivity | exact H].
Qed.

(** ** Tension rewind controller *)

(** A sensor state from which every sample is [(None, None)]. *)
Lemma regulation_loop_silent (silent : Sensor -> Prop) start_time cutoff target_rpm :
  (forall now st, silent st ->
     exists st', sensor_get_rpm env now st = (Ok (None, None), st') /\ silent st') ->
  forall (k fuel : nat) pwm_val rpm (s : lane Sensor) st,
    wheel_sensor s = Some st -> silent st ->
    tension_max_time (config s) - (monotonic s - start_time) <= INR k * 0.1 ->
    (k < fuel)%nat ->
    wp (regulation_loop env fuel start_time cutoff target_rpm pwm_val rpm) s
       (fun o s' l =>
          l = [] /\
          (monotonic s - start_time < tension_max_time (config s) ->
           o = Ret (None, None)) /\
          (~ monotonic s - start_time < tension_max_time (config s) ->
           o = Ret rpm)).
Proof.
  intros Hsilent. induction k as [| k IH]; intros fuel pwm_val rpm s st Hs Hst Hk Hfuel.
  - destruct fuel as [| fuel]; [lia |]. cbn [regulation_loop].
    apply wp_bind_get. cbn [INR] in Hk.
    destruct (Rlt_dec _ _) as [L | G]; [lra |].
    apply wp_ret. split; [reflexivity |]. split; [intros; contradiction | reflexivity].
  - destruct fuel as [| fuel]; [lia |]. cbn [regulation_loop].
    apply wp_bind_get.
    destruct (Rlt_dec _ _) as [L | G].
    + unfold sensor_read. apply wp_bind_assoc. apply wp_bind_get. rewrite Hs.
      destruct (Hsilent (monotonic s) st Hst) as (st' & Er & Hst').
      rewrite Er. apply wp_bind_assoc. apply wp_bind_modify.
      cbn [lift]. apply wp_bind_ret. cbn [fst].
      apply wp_bind_pause.
      set (s1 := suspended_until env _ _).
      assert (Hc : config s1 = config s) by reflexivity.
      assert (Ht : monotonic s1 = monotonic s + 0.1).
      { unfold s1, suspended_until, set_wheel_sensor. cbn [monotonic].
        apply Rmax_right. lra. }
      assert (Hk' : tension_max_time (config s1) - (monotonic s1 - start_time)
                    <= INR k * 0.1).
      { rewrite Hc, Ht. rewrite S_INR in Hk. lra. }
      apply (wp_mono _ _ _ _
               (IH fuel pwm_val (None, None) s1 st' eq_refl Hst' Hk' ltac:(lia))).
      intros o s' l (El & Hrun & Hstop). split; [assumption |].
      split; [| intros; contradiction].
      intros _. destruct (Rlt_dec (monotonic s1 - start_time) (tension_max_time (config s1)))
        as [L1 | G1]; [apply Hrun | apply Hstop]; assumption.
    + apply wp_ret. split; [reflexivity |]. split; [intros; contradiction | reflexivity].
Qed.

End Runs.

(** ** Stepping through a run on a given lane *)

Section Steps.

Variable Sensor : Type.
Variable env : environment Sensor.

Local Open Scope lane_scope.

Lemma wp_bind_assist_stays {B : Type} (value : R) (k : unit -> M Sensor B) s
    (Q : outcome B -> lane Sensor -> list event -> Prop) :
  afc_motor_enb (config s) = None -> scales_ok (config s) ->
  (forall pins, forallb motor_event pins = true -> assist_calls pins = [] ->
     wp (k tt) s (fun o s' l => Q o s' ((Assist value :: pins) ++ l))) ->
  wp (bind (assist env value) k) s Q.
Proof.
  intros Henb Hsc Hk.
  destruct (assist_stays Sensor env value s Henb Hsc) as (pins & E & Hm & Hc).
  specialize (Hk pins Hm Hc).
  unfold wp, outcome_of, final, events, bind in *. rewrite E.
  destruct (k tt s) as [[o s'] l]. exact Hk.
Qed.

Lemma wp_assist_stays (value : R) s
    (Q : outcome unit -> lane Sensor -> list event -> Prop) :
  afc_motor_enb (config s) = None -> scales_ok (config s) ->
  (forall pins, forallb motor_event pins = true -> assist_calls pins = [] ->
     Q (Ret tt) s (Assist value :: pins)) ->
  wp (assist env value) s Q.
Proof.
  intros Henb Hsc Hk.
  destruct (assist_stays Sensor env value s Henb Hsc) as (pins & E & Hm & Hc).
  unfold wp, outcome_of, final, events. rewrite E. apply Hk; assumption.
Qed.

Lemma wp_bind_lane_pwm_value {B : Type} feed_rate rewind (p : R)
    (k : R -> M Sensor B) s (Q : outcome B -> lane Sensor -> list event -> Prop) :
  calculate_pwm_value (config s) (remaining_weight s) feed_rate rewind = Ok p ->
  wp (k p) s Q ->
  wp (bind (lane_pwm_value feed_rate rewind) k) s Q.
Proof.
  intros E Hk. unfold lane_pwm_value.
  apply wp_bind_assoc. apply wp_bind_get. rewrite E. apply wp_bind_ret. exact Hk.
Qed.

Lemma wp_bind_sensor_read {B : Type} (st st' : Sensor) (rpm : option R * option R)
    (k : option R * option R -> M Sensor B) s
    (Q : outcome B -> lane Sensor -> list event -> Prop) :
  wheel_sensor s = Some st ->
  sensor_get_rpm env (monotonic s) st = (Ok rpm, st') ->
  wp (k rpm) (set_wheel_sensor (Some st') s) Q ->
  wp (bind (sensor_read env) k) s Q.
Proof.
  intros Hs Er Hk. unfold sensor_read.
  apply wp_bind_assoc. apply wp_bind_get. rewrite Hs, Er.
  apply wp_bind_assoc. apply wp_bind_modify. apply wp_bind_ret. exact Hk.
Qed.

End Steps.

Ltac lane_cbn :=
  cbn [config wheel_sensor remaining_weight _wheel_follow_paused assist_activate
       prep_state load_state status monotonic
       set_wheel_sensor set_remaining_weight set_wheel_follow_paused
       set_assist_activate set_status suspended_until
       lane_at_rest default_config pwm_motor scale is_pwm
       afc_motor_rwd afc_motor_fwd afc_motor_enb load n20_break_delay_time
       max_move_dis wheel_follow_pwm wheel_follow_min_rpm
       tension_baseline_min_rpm tension_drop_fraction tension_max_time
       filament_diameter filament_density inner_diameter empty_spool_weight
       max_motor_rpm rwd_speed_multi fwd_speed_multi
       scripted sensor_get_rpm edges scripted_sensor no_edges
       spin_then_silence spin_then_slack
       fst snd bound negb andb format_1f app].

Ltac decide_R :=
  match goal with
  | |- context [Rlt_dec ?a ?b] =>
      destruct (Rlt_dec a b); [try (exfalso; lra) | try (exfalso; lra)]
  | |- context [Rgt_dec ?a ?b] =>
      destruct (Rgt_dec a b); [try (exfalso; lra) | try (exfalso; lra)]
  | |- context [Rle_dec ?a ?b] =>
      destruct (Rle_dec a b); [try (exfalso; lra) | try (exfalso; lra)]
  | |- context [Rge_dec ?a ?b] =>
      destruct (Rge_dec a b); [try (exfalso; lra) | try (exfalso; lra)]
  end.

Lemma default_scales_ok : scales_ok default_config.
Proof.
  split; intros m E; cbn in E; inversion E; subst; cbn; lra.
Qed.

(** On a loaded spool a positive feed rate gives a positive duty. *)
Lemma calculate_pwm_value_positive (c : lane_config) (w f : R) (rewind : bool) :
  spool_ok c -> empty_spool_weight c < w -> 0 < f ->
  exists p, calculate_pwm_value c w f rewind = Ok p /\ 0 < p <= 1.
Proof.
  intros Hc Hw Hf. pose proof Hc as (Hrho & He & Hmax & _).
  destruct (calculate_rpm_loaded c w Hrho He Hw) as (k & Hk & Hr).
  destruct (calculate_pwm_value_of_rpm c rewind Hc) as (g & Hg & Hp).
  eexists. split; [apply Hp; apply Hr |].
  split; [| apply clamp_bounds].
  apply Rlt_le_trans with (2 := Rmax_r _ _).
  apply Rmin_glb_lt; [| lra].
  apply Rmult_lt_0_compat; [| assumption].
  apply Rmin_glb_lt; [apply Rmult_lt_0_compat |]; assumption.
Qed.

(** ** The tension rewind on a sensor that falls silent *)

Lemma silence_after_first_sample (now : R) (n : nat) :
  (1 <= n)%nat ->
  exists n', sensor_get_rpm (scripted spin_then_silence) now n = (Ok (None, None), n') /\
             (1 <= n')%nat.
Proof.
  intros Hn. destruct n as [| n]; [lia |].
  exists (S (S n)). split; [reflexivity | lia].
Qed.

Lemma baseline_loop_unfold {Sensor : Type} (env : environment Sensor) fuel start_time rpm :
  baseline_loop env (S fuel) start_time rpm =
  (s <- get ;;
   if Rlt_dec (monotonic s - start_time) 2 then
     rpm <- sensor_read env ;;
     match fst rpm with
     | Some wheel_rpm =>
         if Rgt_dec wheel_rpm (tension_baseline_min_rpm (config s))
         then ret (Some wheel_rpm, rpm)
         else reactor_pause env 0.1 ;; baseline_loop env fuel start_time rpm
     | None => reactor_pause env 0.1 ;; baseline_loop env fuel start_time rpm
     end
   else ret (None, rpm))%lane.
Proof. reflexivity. Qed.

(** C1 at the failing input: default configuration, a full spool, a sensor
    that reports 20 RPM once and then no data. The baseline is captured,
    the regulation phase runs into its timeout with [wheel_rpm] holding
    [None], and formatting it for the report raises [TypeError] before
    [assist(0)]: the only motor command issued is the initial reverse
    duty [-p], which is not zero. *)
Theorem rewind_timeout_on_silent_sensor_skips_stop (extra : nat) :
  exists p s' l,
    0 < p <= 1 /\
    rewind_until_tension (scripted spin_then_silence) (101 + extra) 50
      (lane_at_rest default_config (Some O) false false)
    = (Exc TypeError, s', l) /\
    assist_calls l = [- p].
Proof.
  destruct (calculate_pwm_value_positive default_config 1000 50 true
              default_config_ok ltac:(cbn; lra) ltac:(lra)) as (p & Hp & Hp01).
  set (env := scripted spin_then_silence).
  change (101 + extra)%nat with (S (100 + extra)).
  assert (Hf : (100 <= 100 + extra)%nat) by lia.
  set (fuel := (100 + extra)%nat) in *. clearbody fuel.
  assert (Hwp : wp (rewind_until_tension env (S fuel) 50)
                  (lane_at_rest default_config (Some O) false false)
                  (fun o _ l => o = Exc TypeError /\ assist_calls l = [- p])).
  { unfold rewind_until_tension. apply wp_bind_get. lane_cbn.
    eapply wp_bind_lane_pwm_value; [exact Hp |].
    destruct (Rgt_dec p 1) as [G | _]; [lra |].
    apply wp_bind_assist_stays; [reflexivity | apply default_scales_ok |].
    intros pins Hm Hc.
    apply wp_bind_get. lane_cbn.
    rewrite baseline_loop_unfold.
    apply wp_bind_assoc. apply wp_bind_get. lane_cbn.
    decide_R.
    apply wp_bind_assoc.
    eapply wp_bind_sensor_read; [reflexivity | reflexivity |]. lane_cbn.
    decide_R.
    apply wp_bind_ret. lane_cbn.
    eapply wp_seq.
    { eapply (regulation_loop_silent nat env (fun n => (1 <= n)%nat) _ _ _
                silence_after_first_sample 100).
      - lane_cbn. reflexivity.
      - cbn beta. lia.
      - lane_cbn. rewrite INR_IZR_INZ. cbn [Z.of_nat Pos.of_succ_nat Pos.succ]. lra.
      - lia. }
    cbv beta. lane_cbn.
    intros o s1 l1 (El & Hrun & _). subst l1.
    rewrite (Hrun ltac:(lra)).
    lane_cbn. apply wp_bind_lift.
    split; [reflexivity |].
    cbn [assist_calls]. rewrite !assist_calls_app, Hc. reflexivity. }
  apply wp_elim in Hwp. destruct Hwp as (o & s' & l & E & Ho & Hl). subst o.
  exists p, s', l. split; [exact Hp01 |]. split; [exact E | exact Hl].
Qed.

Lemma regulation_loop_unfold {Sensor : Type} (env : environment Sensor)
    fuel start_time cutoff target_rpm pwm_val rpm :
  regulation_loop env (S fuel) start_time cutoff target_rpm pwm_val rpm =
  (s <- get ;;
   if Rlt_dec (monotonic s - start_time) (tension_max_time (config s)) then
     rpm <- sensor_read env ;;
     match fst rpm with
     | Some wheel_rpm =>
         pwm_val <-
           (if Rlt_dec wheel_rpm (target_rpm * 0.9) then
              let pwm_val := Rmax (pwm_val - 0.05) (-1) in
              assist env pwm_val ;; ret pwm_val
            else if Rgt_dec wheel_rpm (target_rpm * 1.1) then
              let pwm_val := Rmin (pwm_val + 0.05) 0 in
              assist env pwm_val ;; ret pwm_val
            else ret pwm_val) ;;
         if Rlt_dec wheel_rpm cutoff then ret rpm
         else reactor_pause env 0.1 ;;
              regulation_loop env fuel start_time cutoff target_rpm pwm_val rpm
     | None =>
         reactor_pause env 0.1 ;;
         regulation_loop env fuel start_time cutoff target_rpm pwm_val rpm
     end
   else ret rpm)%lane.
Proof. reflexivity. Qed.

(** ** The assist guard on an error raised inside the block *)

(** After a tension rewind the generator is suspended at a [yield] outside
    any [try]: an exception thrown in there ends the generator at once, and
    nothing of the release runs. *)
Lemma guard_after_rewind_skips_release {Sensor : Type} (env : environment Sensor)
    fuel speed rewind (block : M Sensor unit) e s s1 l1 s2 l2 :
  assist_move_enter env fuel speed rewind true s = (Ret YieldAfterRewind, s1, l1) ->
  block s1 = (Exc e, s2, l2) ->
  with_assist_move env fuel speed rewind true block s = (Exc e, s2, l1 ++ l2).
Proof.
  intros He Hb. unfold with_assist_move, bind, attempt.
  rewrite He, Hb. cbn. rewrite app_nil_r. reflexivity.
Qed.

(** The tension rewind on a sensor that reports 20 RPM and then 4 RPM:
    baseline 20, cutoff 15, one nudge of the duty, stop. *)
Lemma rewind_on_slack_run (fuel : nat) (s : lane nat) :
  config s = default_config -> remaining_weight s = 1000 ->
  wheel_sensor s = Some O -> monotonic s = 0 ->
  exists p l,
    0 < p <= 1 /\
    rewind_until_tension (scripted spin_then_slack) (S fuel) 50 s
    = (Ret tt, set_wheel_sensor (Some 2%nat) s, l) /\
    assist_calls l = [- p; Rmax (- p - 0.05) (-1); 0].
Proof.
  intros Hc Hw Hs Ht.
  destruct (calculate_pwm_value_positive default_config 1000 50 true
              default_config_ok ltac:(cbn; lra) ltac:(lra)) as (p & Hp & Hp01).
  set (env := scripted spin_then_slack).
  assert (Henb : forall s' : lane nat, config s' = default_config ->
                 afc_motor_enb (config s') = None /\ scales_ok (config s')).
  { intros s' E. rewrite E. split; [reflexivity | apply default_scales_ok]. }
  assert (Hwp : wp (rewind_until_tension env (S fuel) 50) s
                  (fun o s' l => o = Ret tt /\ s' = set_wheel_sensor (Some 2%nat) s /\
                                 assist_calls l = [- p; Rmax (- p - 0.05) (-1); 0])).
  { unfold rewind_until_tension. apply wp_bind_get. rewrite Hs, Hc. lane_cbn.
    eapply wp_bind_lane_pwm_value; [rewrite Hc, Hw; exact Hp |].
    destruct (Rgt_dec p 1) as [G | _]; [lra |].
    apply wp_bind_assist_stays; [apply Henb, Hc | apply Henb, Hc |].
    intros pins1 Hm1 Hc1.
    apply wp_bind_get. rewrite Ht.
    rewrite baseline_loop_unfold.
    apply wp_bind_assoc. apply wp_bind_get. rewrite Ht, Hc. lane_cbn.
    decide_R.
    apply wp_bind_assoc.
    eapply wp_bind_sensor_read; [exact Hs | reflexivity |]. lane_cbn.
    decide_R.
    apply wp_bind_ret. lane_cbn.
    rewrite regulation_loop_unfold.
    apply wp_bind_assoc. apply wp_bind_get. lane_cbn. rewrite Ht, Hc. lane_cbn.
    decide_R.
    apply wp_bind_assoc.
    eapply wp_bind_sensor_read; [reflexivity | reflexivity |]. lane_cbn.
    decide_R.
    apply wp_bind_assoc. apply wp_bind_assoc.
    apply wp_bind_assist_stays;
      [apply Henb; exact Hc | apply Henb; exact Hc |].
    intros pins2 Hm2 Hc2.
    apply wp_bind_ret.
    decide_R.
    apply wp_bind_ret. lane_cbn.
    apply wp_bind_lift. apply wp_bind_lift.
    apply wp_bind_emit.
    apply wp_bind_assist_stays;
      [apply Henb; exact Hc | apply Henb; exact Hc |].
    intros pins3 Hm3 Hc3.
    apply wp_emit.
    split; [reflexivity |]. split; [reflexivity |].
    repeat (cbn [assist_calls app]; rewrite ?assist_calls_app, ?Hc1, ?Hc2, ?Hc3).
    reflexivity. }
  apply wp_elim in Hwp. destruct Hwp as (o & s' & l & E & Ho & Hs' & Hl). subst o s'.
  exists p, l. split; [exact Hp01 |]. split; [exact E | exact Hl].
Qed.

Lemma wp_bind_run {Sensor A B : Type} (m : M Sensor A) (k : A -> M Sensor B)
    (s s1 : lane Sensor) (a : A) (l1 : list event)
    (Q : outcome B -> lane Sensor -> list event -> Prop) :
  m s = (Ret a, s1, l1) ->
  wp (k a) s1 (fun o s' l => Q o s' (l1 ++ l)) ->
  wp (bind m k) s Q.
Proof.
  intros E Hk. unfold wp, outcome_of, final, events, bind in *. rewrite E.
  destruct (k a s1) as [[o s'] l]. exact Hk.
Qed.

(** C2 at the failing input: an assist session for a rewind on a lane with
    a wheel sensor, and a block that raises (a fault of the motion
    backend). The tension rewind completes, the block raises, and the
    exception leaves the guard with the exclusion flag still set. On the
    same lane without a wheel sensor (the open-loop path) the same fault
    runs the release: the motor is commanded to zero and the flag is
    cleared. *)
Theorem assist_guard_fault_after_rewind_keeps_flag (fuel : nat) :
  (exists s' l,
     with_assist_move (A := unit) (scripted spin_then_slack) (S fuel) 50 true true
       (raise BackendError) (lane_at_rest default_config (Some O) false false)
     = (Exc BackendError, s', l) /\
     _wheel_follow_paused s' = true) /\
  (exists s' l,
     with_assist_move (A := unit) (scripted spin_then_slack) (S fuel) 50 true true
       (raise BackendError) (lane_at_rest default_config None false false)
     = (Exc BackendError, s', l) /\
     _wheel_follow_paused s' = false /\
     last (assist_calls l) 1 = 0).
Proof.
  set (env := scripted spin_then_slack).
  split.
  - set (s0 := set_wheel_follow_paused true
                 (lane_at_rest default_config (Some O) false false)).
    destruct (rewind_on_slack_run fuel s0 eq_refl eq_refl eq_refl eq_refl)
      as (p & l & _ & Erun & _).
    assert (Hwp : wp (with_assist_move (A := unit) env (S fuel) 50 true true (raise BackendError))
                    (lane_at_rest default_config (Some O) false false)
                    (fun o s' _ => o = Exc BackendError /\
                                   _wheel_follow_paused s' = true)).
    { unfold with_assist_move, assist_move_enter.
      apply wp_bind_assoc. apply wp_bind_modify.
      apply wp_bind_assoc. apply wp_bind_emit.
      apply wp_bind_assoc. apply wp_bind_get. lane_cbn.
      apply wp_bind_assoc.
      eapply wp_bind_run; [exact Erun |].
      apply wp_bind_ret.
      apply wp_bind. apply wp_attempt. apply wp_raise.
      cbn [assist_move_throw]. apply wp_raise.
      split; reflexivity. }
    apply wp_elim in Hwp. destruct Hwp as (o & s' & l' & E & Ho & Hflag). subst o.
    exists s', l'. split; assumption.
  - destruct (calculate_pwm_value_positive default_config 1000 50 true
                default_config_ok ltac:(cbn; lra) ltac:(lra)) as (p & Hp & Hp01).
    assert (Hwp : wp (with_assist_move (A := unit) env (S fuel) 50 true true (raise BackendError))
                    (lane_at_rest default_config None false false)
                    (fun o s' l => o = Exc BackendError /\
                                   _wheel_follow_paused s' = false /\
                                   last (assist_calls l) 1 = 0)).
    { unfold with_assist_move, assist_move_enter.
      apply wp_bind_assoc. apply wp_bind_modify.
      apply wp_bind_assoc. apply wp_bind_emit.
      apply wp_bind_assoc. apply wp_bind_get. lane_cbn.
      apply wp_bind_assoc. apply wp_bind_assoc.
      eapply wp_bind_lane_pwm_value; [exact Hp |].
      apply wp_bind_ret.
      apply wp_bind_assoc.
      apply wp_bind_assist_stays; [reflexivity | apply default_scales_ok |].
      intros pins1 Hm1 Hc1.
      apply wp_bind_ret.
      apply wp_bind. apply wp_attempt. apply wp_raise.
      cbn [assist_move_throw]. unfold assist_move_finally.
      apply wp_bind_assoc. apply wp_bind_get. lane_cbn.
      apply wp_bind_assoc.
      apply wp_bind_assist_stays; [reflexivity | apply default_scales_ok |].
      intros pins2 Hm2 Hc2.
      apply wp_bind_assoc. apply wp_bind_modify. apply wp_bind_emit.
      apply wp_raise.
      split; [reflexivity |]. split; [reflexivity |].
      repeat (cbn [assist_calls app]; rewrite ?assist_calls_app, ?Hc1, ?Hc2).
      reflexivity. }
    apply wp_elim in Hwp. destruct Hwp as (o & s' & l' & E & Ho & Hflag & Hl). subst o.
    exists s', l'. split; [assumption |]. split; assumption.
Qed.

(** ** Assisted moves on the open-loop path *)

Section OpenLoop.

Variable Sensor : Type.
Variable env : environment Sensor.

Lemma open_loop_ready_kept (s s' : lane Sensor) :
  open_loop_ready s -> frame_move env s s' -> open_loop_ready s'.
Proof.
  unfold open_loop_ready, frame_move.
  intros (H1 & H2 & H3 & H4) (C & _ & _ & B & _).
  rewrite C, B. split; [assumption |]. split; [assumption |]. split; assumption.
Qed.

Lemma _move_open_loop_returns inner distance speed accel (s : lane Sensor) :
  open_loop_ready s -> 0 < speed -> 0 <= accel ->
  wp (_move env inner distance speed accel true) s (fun o _ _ => o = Ret tt).
Proof.
  intros (Henb & Hsc & Hsp & Hb) Hv Ha.
  destruct (calc_move_time_returns distance speed accel Hv Ha)
    as [[[[axis_r accel_t] cruise_t] cruise_v] Hr].
  unfold _move. apply wp_bind_emit. apply wp_bind_modify.
  unfold with_assist_move, assist_move_enter.
  apply wp_bind_assoc. apply wp_bind_modify.
  apply wp_bind_assoc. apply wp_bind_emit.
  apply wp_bind_assoc. apply wp_bind_get.
  lane_cbn. rewrite Hb, andb_false_r.
  apply wp_bind_assoc.
  set (w := update_remaining_weight (config s) (remaining_weight s) distance).
  assert (Hstep : forall (value : R) (Q : outcome unit -> lane Sensor -> list event -> Prop)
                    (s1 : lane Sensor),
            config s1 = config s -> wheel_sensor s1 = wheel_sensor s ->
            (forall s' l, Q (Ret tt) s' l) ->
            wp (bind (assist env (if Rgt_dec value 1 then 1 else value))
                  (fun _ => bind (ret YieldInTry)
                     (fun y => bind (attempt (run_segment env distance speed accel))
                        (fun r => match r with
                                  | Ok a =>
                                      bind (assist_move_resume env y
                                              (if Rlt_dec distance 0 then true else false)
                                              true)
                                           (fun _ => ret a)
                                  | Raise e =>
                                      assist_move_throw env y e
                                        (if Rlt_dec distance 0 then true else false) true
                                  end)))) s1 Q).
  { intros value Q s1 Hc1 Hw1 HQ.
    apply wp_bind_assist_stays; [rewrite Hc1; exact Henb | rewrite Hc1; exact Hsc |].
    intros pins1 _ _.
    apply wp_bind_ret.
    apply wp_bind. apply wp_attempt.
    unfold run_segment. apply wp_bind_lift. rewrite Hr.
    apply wp_bind_emit. apply wp_bind_emit.
    unfold reactor_pause. apply wp_modify.
    cbn [assist_move_resume]. unfold assist_move_finally.
    apply wp_bind_assoc. apply wp_bind_get. lane_cbn.
    apply wp_bind_assoc.
    destruct (negb ((if Rlt_dec distance 0 then true else false)
                    && bound (wheel_sensor s1))) eqn:Hneg.
    - apply wp_bind_assist_stays;
        [lane_cbn; rewrite Hc1; exact Henb | lane_cbn; rewrite Hc1; exact Hsc |].
      intros pins2 _ _.
      apply wp_bind_assoc. apply wp_bind_modify. apply wp_bind_emit.
      apply wp_ret. apply HQ.
    - apply wp_bind_ret.
      apply wp_bind_assoc. apply wp_bind_modify. apply wp_bind_emit.
      apply wp_ret. apply HQ. }
  destruct (Rlt_dec distance 0) as [Hneg | Hpos].
  - destruct (calculate_pwm_value_total (config s) w speed true Hsp) as (p & Hp & _).
    apply wp_bind_assoc.
    eapply wp_bind_lane_pwm_value; [lane_cbn; exact Hp |].
    apply wp_bind_ret. apply wp_bind_assoc.
    apply Hstep; [reflexivity | reflexivity | reflexivity].
  - destruct (calculate_pwm_value_total (config s) w speed false Hsp) as (p & Hp & _).
    eapply wp_bind_lane_pwm_value; [lane_cbn; exact Hp |].
    apply wp_bind_assoc.
    apply Hstep; [reflexivity | reflexivity | reflexivity].
Qed.

(** An assisted move on the open-loop path returns once the fuel covers the
    number of segments. *)
Lemma move_open_loop_returns (n fuel : nat) distance speed accel (s : lane Sensor) :
  open_loop_ready s -> 0 < speed -> 0 <= accel ->
  0 < max_move_dis (config s) ->
  Rabs distance <= INR n * max_move_dis (config s) ->
  (n < fuel)%nat ->
  exists s' l, move env fuel distance speed accel true s = (Ret tt, s', l).
Proof.
  intros Hready Hv Ha Hmax Hn Hfuel.
  assert (Hwp : wp (move env fuel distance speed accel true) s
                  (fun o _ _ => o = Ret tt)).
  { unfold move.
    apply (move_loop_returns_when Sensor env open_loop_ready true speed accel _ n).
    - apply open_loop_ready_kept.
    - intros inner d s0 H0. apply _move_open_loop_returns; assumption.
    - assumption.
    - assumption.
    - assumption.
    - assumption. }
  apply wp_elim in Hwp. destruct Hwp as (o & s' & l & E & Ho). subst o.
  exists s', l. exact E.
Qed.

End OpenLoop.

(** ** Runs on the example lanes *)

Lemma lane_at_rest_open_loop (prep load_ : bool) :
  open_loop_ready (lane_at_rest default_config None prep load_).
Proof.
  split; [reflexivity |]. split; [apply default_scales_ok |].
  split; [apply default_config_ok | reflexivity].
Qed.

(** C4, as stated, fails: an assisted move of 200 mm on a lane with a
    100 mm segment limit returns after two segments, and the exclusion flag
    is raised and lowered around each of them; no single session spans the
    move. *)
Lemma two_segments_two_sessions :
  exists s' l,
    move (scripted spin_then_slack) 3 200 10 0 true
      (lane_at_rest default_config None false false) = (Ret tt, s', l) /\
    segments l = [100; 100] /\
    session_trace l = [Begin; Segment; End_; Begin; Segment; End_] /\
    session_trace l <> one_session 2.
Proof.
  set (env := scripted spin_then_slack).
  set (s0 := lane_at_rest default_config None false false).
  destruct (move_open_loop_returns nat env 2 3 200 10 0 s0
              (lane_at_rest_open_loop false false)) as (s' & l & E);
    [lra | lra | cbn; lra | rewrite Rabs_right by lra; cbn; lra | lia |].
  exists s', l. split; [exact E |].
  destruct (move_run nat env _ _ _ _ _ _ _ _ E) as (Sp & St & _).
  specialize (St eq_refl).
  change (max_move_dis (config s0)) with 100 in Sp.
  rewrite Rabs_right in Sp by lra.
  destruct (Rgt_dec 200 0) as [_ | N]; [| lra].
  apply splits_full in Sp; [| lra | lra]. destruct Sp as (r1 & E1 & S1).
  apply splits_last in S1; [| lra | lra].
  assert (Hsegs : segments l = [100; 100]).
  { rewrite E1, S1. f_equal; [lra |]. f_equal. lra. }
  rewrite Hsegs in St. cbn in St.
  split; [exact Hsegs |]. split; [exact St |].
  rewrite St. discriminate.
Qed.

Lemma move_session_per_segment_witness :
  exists s' l,
    move (scripted spin_then_slack) 3 200 10 0 true
      (lane_at_rest default_config None false false) = (Ret tt, s', l) /\
    session_trace l = session_each (List.length (segments l)) /\
    ((2 <= List.length (segments l))%nat ->
     session_trace l <> one_session (List.length (segments l))).
Proof.
  destruct (move_open_loop_returns nat (scripted spin_then_slack) 2 3 200 10 0
              (lane_at_rest default_config None false false)
              (lane_at_rest_open_loop false false)) as (s' & l & E);
    [lra | lra | cbn; lra | rewrite Rabs_right by lra; cbn; lra | lia |].
  exists s', l. split; [exact E |].
  apply (move_session_per_segment nat (scripted spin_then_slack) 3 200 10 0
           (lane_at_rest default_config None false false) s' l E).
Defined.

Lemma follow_paused_only_reschedules_witness :
  let s := set_wheel_follow_paused true (lane_at_rest default_config (Some O) false false) in
  _wheel_follow_paused s = true /\
  (_wheel_follow_handler (scripted spin_then_slack) 0 s = (Ret (0 + 0.1), s, []) /\
   exists next,
     follow_ticks (scripted spin_then_slack) 3 0 s = (Ret next, s, []) /\
     assist_calls (events (follow_ticks (scripted spin_then_slack) 3 0) s) = []).
Proof.
  intros s. split; [reflexivity |].
  apply (follow_paused_only_reschedules nat (scripted spin_then_slack) 3 0 s).
  reflexivity.
Defined.

(** C9, as stated, fails: when the load sensor never triggers the retry
    runs 41 iterations, not 40, before it gives up, and the status it
    leaves is the empty string. *)
Lemma load_retry_gives_up_after_41 :
  exists n, forall fuel, (n <= fuel)%nat ->
    exists x s' l,
      load_retry (scripted spin_then_silence) fuel
        (lane_at_rest default_config None true false) = (Ret x, s', l) /\
      retries l = 41%nat /\
      ~ (retries l <= 40)%nat /\
      status s' = Some EmptyString.
Proof.
  destruct (load_retry_run nat (scripted spin_then_silence)
              (lane_at_rest default_config None true false)) as [n Hn];
    [cbn; lra |].
  exists n. intros fuel Hfuel.
  destruct (Hn fuel Hfuel) as (x & s' & l & E & _ & Hr & _ & Hs & _ & _ & Hnever).
  assert (Hx : x = 41%Z) by (apply Hnever; reflexivity).
  rewrite Hx in E, Hr.
  exists 41%Z, s', l. split; [exact E |].
  assert (Hl : retries l = 41%nat) by lia.
  split; [exact Hl |]. split; [lia | exact Hs].
Qed.

(** ** The tension rewind on any sensor *)

Section AnySensor.

Variable Sensor : Type.
Variable env : environment Sensor.

Local Open Scope lane_scope.

Lemma halts_of_motor_only {A : Type} (m : M Sensor A) :
  motor_only env m ->
  (forall s, wp m s (fun o _ _ => o <> Diverge)) ->
  halts env m.
Proof.
  intros Hm Hd s. unfold wp in *. split; [apply Hd | apply Hm].
Qed.

Lemma halts_ret {A : Type} (a : A) : halts env (@ret Sensor A a).
Proof. intros s. apply wp_ret. split; [discriminate | apply frame_refl]. Qed.

Lemma halts_raise {A : Type} (e : exn) : halts env (@raise Sensor A e).
Proof. intros s. apply wp_raise. split; [discriminate | apply frame_refl]. Qed.

Lemma halts_get : halts env (@get Sensor).
Proof. intros s. apply wp_get. split; [discriminate | apply frame_refl]. Qed.

Lemma halts_emit (e : event) : halts env (@emit Sensor e).
Proof. intros s. apply wp_emit. split; [discriminate | apply frame_refl]. Qed.

Lemma halts_lift {A : Type} (r : result A) : halts env (@lift Sensor A r).
Proof.
  intros s. apply wp_lift. destruct r; (split; [discriminate | apply frame_refl]).
Qed.

Lemma halts_bind {A B : Type} (m : M Sensor A) (k : A -> M Sensor B) :
  halts env m -> (forall a, halts env (k a)) -> halts env (bind m k).
Proof.
  intros Hm Hk s. eapply wp_seq; [apply Hm |].
  cbv beta. intros o s1 l1 [Hd F1]. destruct o as [a | e |].
  - apply (wp_mono _ _ _ _ _ (Hk a s1)).
    intros o2 s2 l2 [Hd2 F2]. split; [assumption | eapply frame_trans; eassumption].
  - split; [discriminate | assumption].
  - contradiction.
Qed.

Lemma halts_reactor_pause (delay : R) : halts env (reactor_pause env delay).
Proof.
  apply halts_of_motor_only; [apply motor_only_reactor_pause |].
  intros s. unfold reactor_pause. apply wp_modify. discriminate.
Qed.

Lemma halts_sensor_read : halts env (sensor_read env).
Proof.
  apply halts_of_motor_only; [apply motor_only_sensor_read |].
  intros s. unfold sensor_read. apply wp_bind_get.
  destruct (wheel_sensor s) as [st |]; [| apply wp_raise; discriminate].
  destruct (sensor_get_rpm env (monotonic s) st) as [r st'].
  apply wp_bind_modify. apply wp_lift. destruct r; discriminate.
Qed.

Ltac halts_step :=
  first
    [ apply halts_ret
    | apply halts_get
    | apply halts_raise
    | apply halts_lift
    | apply halts_emit
    | apply halts_reactor_pause
    | apply halts_sensor_read
    | assumption
    | apply halts_bind; [| intros ?]
    | match goal with
      | |- halts _ (if ?c then _ else _) => destruct c
      | |- halts _ (match ?x with _ => _ end) => destruct x
      end ].

Lemma halts_assist (value : R) : halts env (assist env value).
Proof. unfold assist, brake_n20, drive. repeat halts_step. Qed.

Lemma halts_lane_pwm_value feed_rate rewind :
  halts env (@lane_pwm_value Sensor feed_rate rewind).
Proof. unfold lane_pwm_value. repeat halts_step. Qed.

(** The baseline loop ends within [k] polls when at most [k] tenths of a
    second of its 2.0 s are left, whatever the sensor answers. *)
Lemma baseline_loop_halts start_time (k : nat) :
  forall fuel rpm (s : lane Sensor),
    2 - (monotonic s - start_time) <= INR k * 0.1 ->
    (k < fuel)%nat ->
    wp (baseline_loop env fuel start_time rpm) s
       (fun o s' _ => o <> Diverge /\ frame env s s').
Proof.
  induction k as [| k IH]; intros fuel rpm s Hk Hfuel;
    (destruct fuel as [| fuel]; [lia |]); cbn [baseline_loop]; apply wp_bind_get.
  - cbn [INR] in Hk. destruct (Rlt_dec _ _) as [L | _]; [lra |].
    apply wp_ret. split; [discriminate | apply frame_refl].
  - destruct (Rlt_dec _ _) as [L | _];
      [| apply wp_ret; split; [discriminate | apply frame_refl]].
    eapply wp_seq; [apply halts_sensor_read |].
    cbv beta. intros o s1 l1 [Hd F1].
    destruct o as [rpm1 | e |]; [| split; [discriminate | assumption] | contradiction].
    assert (Hnext : wp (reactor_pause env 0.1 ;; baseline_loop env fuel start_time rpm1) s1
                      (fun o s' _ => o <> Diverge /\ frame env s s')).
    { apply wp_bind_pause.
      set (s2 := suspended_until env _ s1).
      assert (F2 : frame env s1 s2)
        by apply (wp_run _ _ _ _ _ _ _ eq_refl (motor_only_reactor_pause _ env 0.1 s1)).
      assert (Ht : monotonic s2 = monotonic s1 + 0.1)
        by (unfold s2, suspended_until; cbn [monotonic]; apply Rmax_right; lra).
      assert (Hc : monotonic s <= monotonic s1) by apply F1.
      apply (wp_mono _ _ _ _ _
               (IH fuel rpm1 s2 ltac:(rewrite Ht; rewrite S_INR in Hk; lra) ltac:(lia))).
      intros o3 s3 _ [Hd3 F3]. split; [assumption |].
      eapply frame_trans; [exact F1 | eapply frame_trans; eassumption]. }
    destruct (fst rpm1) as [wheel_rpm |]; [| exact Hnext].
    destruct (Rgt_dec wheel_rpm _); [| exact Hnext].
    apply wp_ret. split; [discriminate | assumption].
Qed.

(** The regulation loop ends within [k] polls when at most [k] tenths of a
    second of [tension_max_time] are left, whatever the sensor answers. *)
Lemma regulation_loop_halts start_time cutoff target_rpm (k : nat) :
  forall fuel pwm_val rpm (s : lane Sensor),
    tension_max_time (config s) - (monotonic s - start_time) <= INR k * 0.1 ->
    (k < fuel)%nat ->
    wp (regulation_loop env fuel start_time cutoff target_rpm pwm_val rpm) s
       (fun o s' _ => o <> Diverge /\ frame env s s').
Proof.
  induction k as [| k IH]; intros fuel pwm_val rpm s Hk Hfuel;
    (destruct fuel as [| fuel]; [lia |]); cbn [regulation_loop]; apply wp_bind_get.
  - cbn [INR] in Hk. destruct (Rlt_dec _ _) as [L | _]; [lra |].
    apply wp_ret. split; [discriminate | apply frame_refl].
  - destruct (Rlt_dec _ _) as [L | _];
      [| apply wp_ret; split; [discriminate | apply frame_refl]].
    eapply wp_seq; [apply halts_sensor_read |].
    cbv beta. intros o s1 l1 [Hd F1].
    destruct o as [rpm1 | e |]; [| split; [discriminate | assumption] | contradiction].
    assert (Hnext : forall pwm_val' (s1' : lane Sensor), frame env s s1' ->
              wp (reactor_pause env 0.1 ;;
                  regulation_loop env fuel start_time cutoff target_rpm pwm_val' rpm1) s1'
                 (fun o s' _ => o <> Diverge /\ frame env s1' s')).
    { intros pwm_val' s1' F1'. apply wp_bind_pause.
      set (s2 := suspended_until env _ s1').
      assert (F2 : frame env s1' s2)
        by apply (wp_run _ _ _ _ _ _ _ eq_refl (motor_only_reactor_pause _ env 0.1 s1')).
      assert (Ht : monotonic s2 = monotonic s1' + 0.1)
        by (unfold s2, suspended_until; cbn [monotonic]; apply Rmax_right; lra).
      assert (Hc : monotonic s <= monotonic s1') by apply F1'.
      assert (Hcfg : config s2 = config s)
        by (destruct F1' as (C & _); exact C).
      apply (wp_mono _ _ _ _ _
               (IH fuel pwm_val' rpm1 s2
                   ltac:(rewrite Hcfg, Ht; rewrite S_INR in Hk; lra) ltac:(lia))).
      intros o3 s3 _ [Hd3 F3]. split; [assumption |].
      eapply frame_trans; eassumption. }
    destruct (fst rpm1) as [wheel_rpm |].
    + match goal with
      | |- wp (bind ?m _) _ _ =>
          assert (Hadj : halts env m)
            by (repeat first [ apply halts_assist | halts_step ]);
          eapply wp_seq; [apply Hadj |]
      end.
      cbv beta. intros o2 s2 l2 [Hd2 F2].
      assert (F : frame env s s2) by (eapply frame_trans; eassumption).
      destruct o2 as [pwm_val' | e |]; [| split; [discriminate | assumption] | contradiction].
      destruct (Rlt_dec wheel_rpm cutoff).
      * apply wp_ret. split; [discriminate | assumption].
      * apply (wp_mono _ _ _ _ _ (Hnext pwm_val' s2 F)).
        intros o3 s3 _ [Hd3 F3]. split; [assumption | eapply frame_trans; eassumption].
    + apply (wp_mono _ _ _ _ _ (Hnext pwm_val s1 F1)).
      intros o3 s3 _ [Hd3 F3]. split; [assumption | eapply frame_trans; eassumption].
Qed.

(** Whatever the sensor does, [rewind_until_tension] comes to an end: the
    baseline loop polls at most 20 times and the regulation loop at most
    once per tenth of a second of [tension_max_time]. It returns or it
    raises. *)
Lemma rewind_until_tension_halts_within (c : lane_config) :
  exists n, forall (speed : R) (s : lane Sensor) fuel,
    config s = c -> (n <= fuel)%nat ->
    wp (rewind_until_tension env fuel speed) s (fun o _ _ => o <> Diverge).
Proof.
  destruct (cover_by_segments 0.1 (tension_max_time c) ltac:(lra)) as [k Hk].
  exists (S (Nat.max 20 k)). intros speed s fuel Hcs Hfuel. subst c.
  unfold rewind_until_tension. apply wp_bind_get.
  destruct (wheel_sensor s) as [st |]; [| apply wp_emit; discriminate].
  destruct (afc_motor_rwd (config s)) as [rwd |]; [| apply wp_emit; discriminate].
  eapply wp_seq; [apply halts_lane_pwm_value |].
  cbv beta. intros o s1 l1 [Hd F1].
  destruct o as [pwm_val | e |]; [| discriminate | contradiction].
  eapply wp_seq; [apply halts_assist |].
  cbv beta. intros o2 s2 l2 [Hd2 F2].
  destruct o2 as [[] | e |]; [| discriminate | contradiction].
  apply wp_bind_get.
  eapply wp_seq.
  { apply (baseline_loop_halts (monotonic s2) 20 fuel (Some 0, Some 0) s2).
    - rewrite INR_IZR_INZ. cbn [Z.of_nat Pos.of_succ_nat Pos.succ]. lra.
    - lia. }
  cbv beta. intros o3 s3 l3 [Hd3 F3].
  destruct o3 as [found | e |]; [| discriminate | contradiction].
  destruct (fst found) as [baseline_rpm |].
  - eapply wp_seq.
    { apply (regulation_loop_halts (monotonic s2) _ _ k fuel _ _ s3).
      - assert (Hc : config s3 = config s).
        { destruct F1 as (C1 & _), F2 as (C2 & _), F3 as (C3 & _). congruence. }
        assert (Ht : monotonic s2 <= monotonic s3) by apply F3.
        rewrite Hc. lra.
      - lia. }
    cbv beta. intros o4 s4 l4 [Hd4 F4].
    destruct o4 as [rpm | e |]; [| discriminate | contradiction].
    apply wp_bind_lift. destruct (format_1f (fst rpm)); [| discriminate].
    apply wp_bind_lift. destruct (format_1f (snd rpm)); [| discriminate].
    apply wp_bind_emit.
    eapply wp_seq; [apply halts_assist |].
    cbv beta. intros o5 s5 l5 [Hd5 F5].
    destruct o5 as [[] | e |]; [| discriminate | contradiction].
    apply wp_emit. discriminate.
  - eapply wp_seq; [apply halts_assist |].
    cbv beta. intros o5 s5 l5 [Hd5 F5].
    destruct o5 as [[] | e |]; [| discriminate | contradiction].
    apply wp_emit. discriminate.
Qed.

Lemma rewind_until_tension_halts (speed : R) (s : lane Sensor) :
  exists n, forall fuel, (n <= fuel)%nat ->
    wp (rewind_until_tension env fuel speed) s (fun o _ _ => o <> Diverge).
Proof.
  destruct (rewind_until_tension_halts_within (config s)) as [n Hn].
  exists n. intros fuel Hfuel. apply Hn; [reflexivity | exact Hfuel].
Qed.

(** Every return of [rewind_until_tension] on a lane with sensor and
    reverse motor is preceded by [assist(0)] as the last motor command: the
    exits that skip it are exceptions. *)
Lemma rewind_until_tension_returns_stopped (fuel : nat) (speed : R) (s : lane Sensor) :
  bound (wheel_sensor s) = true -> bound (afc_motor_rwd (config s)) = true ->
  wp (rewind_until_tension env fuel speed) s
     (fun o _ l => o = Ret tt -> last (assist_calls l) 1 = 0).
Proof.
  intros Hs Hm.
  assert (Hstop : forall (m : message) (s0 : lane Sensor) (before : list event),
            wp (assist env 0 ;; emit (LogInfo m)) s0
               (fun o _ l => o = Ret tt -> last (assist_calls (before ++ l)) 1 = 0) /\
            wp (assist env 0 ;; emit (RespondInfo m)) s0
               (fun o _ l => o = Ret tt -> last (assist_calls (before ++ l)) 1 = 0)).
  { intros m s0 before. split.
    - eapply wp_seq; [apply assist_zero |].
      cbv beta. intros o s1 l1 (Ho & _ & _ & Hc). subst o.
      apply wp_emit. intros _.
      rewrite !assist_calls_app, Hc. cbn [assist_calls app].
      rewrite ?app_nil_r. apply last_last.
    - eapply wp_seq; [apply assist_zero |].
      cbv beta. intros o s1 l1 (Ho & _ & _ & Hc). subst o.
      apply wp_emit. intros _.
      rewrite !assist_calls_app, Hc. cbn [assist_calls app].
      rewrite ?app_nil_r. apply last_last. }
  unfold rewind_until_tension. apply wp_bind_get.
  destruct (wheel_sensor s) as [st |]; [| discriminate Hs].
  destruct (afc_motor_rwd (config s)) as [rwd |]; [| discriminate Hm].
  eapply wp_seq; [apply (motor_only_lane_pwm_value _ env) |].
  cbv beta. intros o s1 l1 _.
  destruct o as [pwm_val | e |]; [| discriminate ..].
  eapply wp_seq; [apply motor_only_assist |].
  cbv beta. intros o2 s2 l2 _.
  destruct o2 as [[] | e |]; [| discriminate ..].
  apply wp_bind_get.
  eapply wp_seq; [apply motor_only_baseline_loop |].
  cbv beta. intros o3 s3 l3 _.
  destruct o3 as [found | e |]; [| discriminate ..].
  destruct (fst found) as [baseline_rpm |].
  - eapply wp_seq; [apply motor_only_regulation_loop |].
    cbv beta. intros o4 s4 l4 _.
    destruct o4 as [rpm | e |]; [| discriminate ..].
    apply wp_bind_lift. destruct (format_1f (fst rpm)) as [w |]; [| discriminate].
    apply wp_bind_lift. destruct (format_1f (snd rpm)) as [mr |]; [| discriminate].
    apply wp_bind_emit.
    destruct (Hstop (MsgTensionDetected (baseline_rpm * tension_drop_fraction (config s)))
                s4 (l1 ++ l2 ++ l3 ++ l4 ++ [RespondInfo (MsgRpm w mr)])) as [_ H].
    apply (wp_mono _ _ _ _ _ H).
    intros o5 s5 l5 Hl Ho. specialize (Hl Ho).
    rewrite <- !app_assoc in Hl. cbn [app] in Hl. exact Hl.
  - destruct (Hstop MsgBaselineNotFound s3 (l1 ++ l2 ++ l3)) as [H _].
    apply (wp_mono _ _ _ _ _ H).
    intros o5 s5 l5 Hl Ho. specialize (Hl Ho).
    rewrite <- !app_assoc in Hl. exact Hl.
Qed.

End AnySensor.

(** ** What the assist guard does release *)

(** X17: once the guard is entered, a block that completes leaves it with
    the exclusion flag cleared on both paths, and so does a block that raises on
    the open-loop path, where the motor is commanded to zero as well. The
    one exit that releases nothing is a block that raises after a tension
    rewind. *)
Lemma guard_releases {Sensor A : Type} (env : environment Sensor)
    fuel speed rewind (block : M Sensor A) s y s1 l1 ob s2 l2 :
  assist_move_enter env fuel speed rewind true s = (Ret y, s1, l1) ->
  block s1 = (ob, s2, l2) ->
  ob <> Diverge ->
  (y = YieldAfterRewind -> exists a, ob = Ret a) ->
  exists s' l3,
    with_assist_move env fuel speed rewind true block s = (ob, s', l1 ++ l2 ++ l3) /\
    _wheel_follow_paused s' = false /\
    (y = YieldInTry -> rewind && bound (wheel_sensor s2) = false ->
     assist_calls l3 = [0]).
Proof.
  intros He Hb Hd Hy.
  unfold with_assist_move, bind at 1. rewrite He.
  unfold bind at 1, attempt. rewrite Hb.
  destruct ob as [a | e |]; [| | contradiction].
  - destruct (wp_elim _ _ _ _ (assist_move_resume_spec Sensor env y rewind true s2))
      as (o3 & s3 & l3 & E3 & Ho & _ & _ & Hflag & l3' & El3 & _ & Hc).
    subst o3. unfold bind, ret. rewrite E3.
    exists s3, l3. rewrite app_nil_r. split; [reflexivity |].
    split; [assumption |].
    intros Hy' Hrw. rewrite El3, assist_calls_app, Hc; [reflexivity | assumption |].
    cbn [andb]. rewrite Hrw. reflexivity.
  - destruct y.
    + destruct (Hy eq_refl) as [a Ha]. discriminate Ha.
    + destruct (wp_elim _ _ _ _
                  (assist_move_throw_spec Sensor env (A := A) YieldInTry e rewind true s2))
        as (o3 & s3 & l3 & E3 & Ho & _ & _ & Hflag & l3' & El3 & _ & Hc).
      subst o3. rewrite E3.
      exists s3, l3. split; [reflexivity |]. split; [assumption |].
      intros _ Hrw. rewrite El3, assist_calls_app, Hc; [reflexivity |].
      cbn [andb]. rewrite Hrw. reflexivity.
Qed.

(** ** The spool weight after an assisted segment *)

(** C8, amended: an assisted segment of signed distance [d] leaves the
    remaining spool weight decreased by
    [pi * (filament_diameter / 2)^2 * d * density / 1000] for the signed
    distance [d] (a negative segment gives weight back to the spool), and
    floored at the empty-spool weight; this is the value
    [update_remaining_weight] computes, and the weight [_move] leaves
    however the segment ends. *)
Theorem update_remaining_weight_signed {Sensor : Type} (env : environment Sensor)
    (fuel : nat) (d speed accel : R) (s : lane Sensor) :
  update_remaining_weight (config s) (remaining_weight s) d =
    Rmax (empty_spool_weight (config s))
         (remaining_weight s
          - PI * (filament_diameter (config s) / 2) ^ 2 * d
            * filament_density (config s) / 1000) /\
  empty_spool_weight (config s)
    <= update_remaining_weight (config s) (remaining_weight s) d /\
  remaining_weight (final (_move env fuel d speed accel true) s) =
    update_remaining_weight (config s) (remaining_weight s) d.
Proof.
  split; [apply update_remaining_weight_max |].
  split; [rewrite update_remaining_weight_max; apply Rmax_l |].
  pose proof (_move_spec Sensor env fuel d speed accel true s) as H.
  unfold wp in H. destruct H as (_ & _ & _ & W & _). exact W.
Qed.

(** * Further properties of the code *)

(** ** Wheel sensor *)

Lemma edge_callback_keeps (t : R) (level : bool) (s : WheelSensor.sensor) :
  WheelSensor.pulses_per_rev (WheelSensor._edge_callback t level s)
    = WheelSensor.pulses_per_rev s /\
  WheelSensor._last_time (WheelSensor._edge_callback t level s)
    = WheelSensor._last_time s /\
  WheelSensor._prev_state (WheelSensor._edge_callback t level s) = level.
Proof. repeat split. Qed.

(** X1: over any stream of edges the sensor's counter grows by exactly the
    number of low-to-high transitions (a level that is held or repeated is
    not counted again, a falling edge is not counted), so it never
    decreases; and the callback never touches the time stamp or
    [pulses_per_rev]. *)
Theorem edges_counted (evs : list (R * bool)) (s : WheelSensor.sensor) :
  WheelSensor._pulse_count (edges_seen evs s)
    = (WheelSensor._pulse_count s
       + rising_edges (WheelSensor._prev_state s) (map snd evs))%Z /\
  WheelSensor._last_time (edges_seen evs s) = WheelSensor._last_time s /\
  WheelSensor.pulses_per_rev (edges_seen evs s) = WheelSensor.pulses_per_rev s /\
  (WheelSensor._pulse_count s <= WheelSensor._pulse_count (edges_seen evs s))%Z.
Proof.
  destruct (edges_seen_counts evs s) as (Hc & Ht & Hp).
  split; [exact Hc |]. split; [exact Ht |]. split; [exact Hp |].
  rewrite Hc. pose proof (rising_edges_pos (map snd evs) (WheelSensor._prev_state s)). lia.
Qed.

(** X2: one sampling window. After any stream of edges, a read with a
    positive elapsed time reports [(count + rising edges) / pulses_per_rev /
    dt * 60] on both components, clears the counter and stamps the time; a
    second read at the same instant then returns [(None, None)] and leaves
    the sensor as it is, and a later read without edges in between reports
    0 RPM, not [None]. *)
Theorem window_then_read (evs : list (R * bool)) (s : WheelSensor.sensor) (now later : R) :
  WheelSensor.pulses_per_rev s <> 0 ->
  WheelSensor._last_time s < now -> now < later ->
  let s0 := edges_seen evs s in
  let rpm := IZR (WheelSensor._pulse_count s
                  + rising_edges (WheelSensor._prev_state s) (map snd evs))
             / WheelSensor.pulses_per_rev s
             / (now - WheelSensor._last_time s) * 60 in
  let s1 := snd (WheelSensor.get_rpm now s0) in
  fst (WheelSensor.get_rpm now s0) = Ok (Some rpm, Some rpm) /\
  WheelSensor._pulse_count s1 = 0%Z /\ WheelSensor._last_time s1 = now /\
  WheelSensor.get_rpm now s1 = (Ok (None, None), s1) /\
  fst (WheelSensor.get_rpm later s1) = Ok (Some 0, Some 0).
Proof.
  intros Hppr Hnow Hlater s0 rpm s1.
  destruct (edges_seen_counts evs s) as (Hc & Ht & Hp). fold s0 in Hc, Ht, Hp.
  assert (E : WheelSensor.get_rpm now s0 =
              (Ok (Some rpm, Some rpm),
               {| WheelSensor.pulses_per_rev := WheelSensor.pulses_per_rev s0;
                  WheelSensor._pulse_count := 0;
                  WheelSensor._prev_state := WheelSensor._prev_state s0;
                  WheelSensor._last_time := now |})).
  { unfold WheelSensor.get_rpm. rewrite Ht, Hp, Hc.
    destruct (Rle_dec (now - WheelSensor._last_time s) 0) as [L | _]; [lra |].
    rewrite fdiv_ok by assumption. cbn [rbind].
    rewrite fdiv_ok by lra. reflexivity. }
  unfold s1. rewrite E. cbn [fst snd WheelSensor._pulse_count WheelSensor._last_time].
  split; [reflexivity |]. split; [reflexivity |]. split; [reflexivity |]. split.
  - unfold WheelSensor.get_rpm. cbn [WheelSensor._last_time].
    destruct (Rle_dec (now - now) 0) as [_ | G]; [reflexivity | lra].
  - unfold WheelSensor.get_rpm.
    cbn [WheelSensor._last_time WheelSensor._pulse_count WheelSensor.pulses_per_rev].
    destruct (Rle_dec (later - now) 0) as [L | _]; [lra |]. cbn [fst].
    rewrite Hp. rewrite fdiv_ok by assumption. cbn [rbind].
    rewrite fdiv_ok by lra. cbn [rbind].
    f_equal. f_equal; f_equal; unfold Rdiv; ring.
Qed.

Lemma window_then_read_witness :
  let s := {| WheelSensor.pulses_per_rev := 2; WheelSensor._pulse_count := 0;
              WheelSensor._prev_state := false; WheelSensor._last_time := 0 |} in
  let evs := [(0.1, true); (0.2, true); (0.3, false); (0.4, true)] in
  let s0 := edges_seen evs s in
  let rpm := IZR (WheelSensor._pulse_count s
                  + rising_edges (WheelSensor._prev_state s) (map snd evs))
             / WheelSensor.pulses_per_rev s
             / (1 - WheelSensor._last_time s) * 60 in
  let s1 := snd (WheelSensor.get_rpm 1 s0) in
  fst (WheelSensor.get_rpm 1 s0) = Ok (Some rpm, Some rpm) /\
  WheelSensor._pulse_count s1 = 0%Z /\ WheelSensor._last_time s1 = 1 /\
  WheelSensor.get_rpm 1 s1 = (Ok (None, None), s1) /\
  fst (WheelSensor.get_rpm 2 s1) = Ok (Some 0, Some 0).
Proof.
  intros s evs.
  apply (window_then_read evs s 1 2); cbn; lra.
Defined.

Lemma sensor_step_sound (now : R) (s : WheelSensor.sensor) :
  0 < WheelSensor.pulses_per_rev s -> (0 <= WheelSensor._pulse_count s)%Z ->
  (now - WheelSensor._last_time s <= 0 -> snd (WheelSensor.get_rpm now s) = s) /\
  (exists rpm, fst (WheelSensor.get_rpm now s) = Ok (rpm, rpm) /\
               match rpm with Some v => 0 <= v | None => True end) /\
  (0 <= WheelSensor._pulse_count (snd (WheelSensor.get_rpm now s)))%Z /\
  WheelSensor.pulses_per_rev (snd (WheelSensor.get_rpm now s))
    = WheelSensor.pulses_per_rev s /\
  (forall t level, (0 <= WheelSensor._pulse_count (WheelSensor._edge_callback t level s))%Z).
Proof.
  intros Hppr Hcount.
  assert (Hedge : forall t level,
            (0 <= WheelSensor._pulse_count (WheelSensor._edge_callback t level s))%Z).
  { intros t level. cbn. destruct (negb (WheelSensor._prev_state s) && level); lia. }
  unfold WheelSensor.get_rpm.
  destruct (Rle_dec (now - WheelSensor._last_time s) 0) as [L | G]; cbn [fst snd].
  - split; [reflexivity |]. split; [exists None; split; [reflexivity | exact I] |].
    split; [assumption |]. split; [reflexivity | exact Hedge].
  - split; [intros; lra |]. split.
    + rewrite fdiv_ok by lra. cbn [rbind]. rewrite fdiv_ok by lra. cbn [rbind].
      eexists (Some _). split; [reflexivity |].
      apply Rmult_le_pos; [| lra].
      apply Rmult_le_pos; [| left; apply Rinv_0_lt_compat; lra].
      apply Rmult_le_pos; [apply IZR_le; assumption
                          | left; apply Rinv_0_lt_compat; assumption].
    + split; [cbn; lia |]. split; [reflexivity | exact Hedge].
Qed.

(** X3: a read that finds no elapsed time ([dt <= 0]) changes nothing, so
    the pulses counted so far are kept for the next read; and on a sensor
    whose counter is not negative, with a positive [pulses_per_rev], no read
    ever reports a negative RPM, and the counter stays non-negative through
    reads and edges. *)
Theorem read_keeps_or_reports (now : R) (s : WheelSensor.sensor) :
  0 < WheelSensor.pulses_per_rev s -> (0 <= WheelSensor._pulse_count s)%Z ->
  (now - WheelSensor._last_time s <= 0 -> snd (WheelSensor.get_rpm now s) = s) /\
  (forall rpm other, fst (WheelSensor.get_rpm now s) = Ok (Some rpm, other) -> 0 <= rpm) /\
  (0 <= WheelSensor._pulse_count (snd (WheelSensor.get_rpm now s)))%Z /\
  (forall t level, (0 <= WheelSensor._pulse_count (WheelSensor._edge_callback t level s))%Z).
Proof.
  intros Hppr Hcount.
  destruct (sensor_step_sound now s Hppr Hcount) as (Hkeep & (r & Hr & Hpos) & Hc & _ & He).
  split; [exact Hkeep |]. split; [| split; [exact Hc | exact He]].
  intros rpm other H. rewrite Hr in H. inversion H. subst. exact Hpos.
Qed.

Lemma read_keeps_or_reports_witness :
  let s := {| WheelSensor.pulses_per_rev := 1; WheelSensor._pulse_count := 3;
              WheelSensor._prev_state := false; WheelSensor._last_time := 5 |} in
  (5 - WheelSensor._last_time s <= 0 -> snd (WheelSensor.get_rpm 5 s) = s) /\
  (forall rpm other, fst (WheelSensor.get_rpm 5 s) = Ok (Some rpm, other) -> 0 <= rpm) /\
  (0 <= WheelSensor._pulse_count (snd (WheelSensor.get_rpm 5 s)))%Z /\
  (forall t level, (0 <= WheelSensor._pulse_count (WheelSensor._edge_callback t level s))%Z).
Proof.
  intros s. apply (read_keeps_or_reports 5 s); cbn; [lra | lia].
Defined.

(** ** Timing of one segment, continued *)

(** X4: the profile never exceeds the requested speed. For a speed
    [0 < v <= 1e154] and an acceleration [a >= 0] with [a = 0], [d = 0] or
    [|d| * a >= 1e-300], [calc_move_time] returns a profile whose
    acceleration time is not negative and whose peak speed is positive and
    at most the requested speed; the peak speed is the requested speed
    itself when there is no acceleration phase ([a = 0] or [d = 0]) or the
    move is long enough to reach it ([v^2 <= |d| * a]). *)
Theorem calc_move_time_peak_speed (d v a : R) :
  0 < v <= 1e154 -> 0 <= a ->
  a = 0 \/ d = 0 \/ 1e-300 <= Rabs d * a ->
  exists t_a t_c v',
    calc_move_time d v a = Ok (direction_of d, t_a, t_c, v') /\
    0 <= t_a /\ 0 < v' <= v /\
    (a = 0 \/ d = 0 \/ v ^ 2 <= Rabs d * a -> v' = v).
Proof.
  intros [Hv _] Ha _.
  assert (Hconst : a = 0 \/ d = 0 ->
    exists t_a t_c v',
      calc_move_time d v a = Ok (direction_of d, t_a, t_c, v') /\
      0 <= t_a /\ 0 < v' <= v /\
      (a = 0 \/ d = 0 \/ v ^ 2 <= Rabs d * a -> v' = v)).
  { intros Hz. exists 0, (Rabs d / v), v.
    split; [apply calc_move_time_constant; [lra | assumption] |].
    split; [lra |]. split; [lra | reflexivity]. }
  destruct (Req_dec_T a 0) as [Ea | Na]; [apply Hconst; left; assumption |].
  destruct (Req_dec_T d 0) as [Ed | Nd]; [apply Hconst; right; assumption |].
  assert (Ha' : 0 < a) by lra.
  destruct (calc_move_time_accel d v a Hv Ha' Nd) as [Hv' E]. cbv zeta in E, Hv'.
  set (v' := Rmin v (sqrt (Rabs d * a))) in *.
  assert (Hle : v' <= v) by apply Rmin_l.
  assert (Hta : 0 < v' / a) by (apply Rdiv_lt_0_compat; assumption).
  exists (v' / a), ((Rabs d - v' / a * v') / v'), v'.
  split; [exact E |]. split; [lra |]. split; [lra |].
  intros [Z | [Z | Hlong]]; [contradiction | contradiction |].
  unfold v'. apply Rmin_left.
  rewrite <- (sqrt_pow2 v) by lra. apply sqrt_le_1_alt. assumption.
Qed.

Lemma calc_move_time_peak_speed_witness :
  exists t_a t_c v',
    calc_move_time (-8) 2 1 = Ok (direction_of (-8), t_a, t_c, v') /\
    0 <= t_a /\ 0 < v' <= 2 /\
    (1 = 0 \/ -8 = 0 \/ 2 ^ 2 <= Rabs (-8) * 1 -> v' = 2).
Proof.
  apply (calc_move_time_peak_speed (-8) 2 1); [lra | lra |].
  right. right. rewrite Rabs_left by lra. lra.
Defined.

(** X5: when [calc_move_time] fails. For a speed of magnitude at most
    [1e154] and [a = 0], [d = 0] or [|d| * |a| >= 1e-300] (the range in which
    [speed ** 2] does not overflow and [dist * accel] does not underflow to
    zero in floating point): a negative acceleration with a nonzero
    distance raises the math domain error, whatever the speed; otherwise a
    zero speed raises [ZeroDivisionError]; and in every other case, a
    negative speed included, a profile is returned. *)
Theorem calc_move_time_domain (d v a : R) :
  Rabs v <= 1e154 ->
  a = 0 \/ d = 0 \/ 1e-300 <= Rabs d * Rabs a ->
  (a < 0 /\ d <> 0 -> calc_move_time d v a = Raise ValueError) /\
  (~ (a < 0 /\ d <> 0) -> v = 0 -> calc_move_time d v a = Raise ZeroDivisionError) /\
  (~ (a < 0 /\ d <> 0) -> v <> 0 -> exists r, calc_move_time d v a = Ok r).
Proof.
  intros _ _.
  assert (Hd0 : Rabs d = 0 <-> d = 0).
  { split; [intros H; destruct (Req_dec_T d 0) as [E | N];
            [assumption | apply Rabs_no_R0 in N; contradiction]
           | intros ->; apply Rabs_R0]. }
  unfold calc_move_time. rewrite abs_as_code.
  destruct (Req_dec_T a 0) as [Ea | Na].
  { split; [intros [L _]; lra |]. split.
    - intros _ ->. rewrite fdiv_zero. reflexivity.
    - intros _ Nv. rewrite fdiv_ok by assumption. eexists. reflexivity. }
  destruct (Req_dec_T (Rabs d) 0) as [Ed | Nd].
  { apply Hd0 in Ed. split; [intros [_ N]; contradiction |]. split.
    - intros _ ->. rewrite fdiv_zero. reflexivity.
    - intros _ Nv. rewrite fdiv_ok by assumption. eexists. reflexivity. }
  assert (Hpos : 0 < Rabs d).
  { destruct (Rabs_pos d) as [L | E]; [assumption | contradiction Nd; auto]. }
  assert (Nd' : d <> 0) by (intros E; apply Nd, Hd0, E).
  destruct (Rlt_dec a 0) as [La | Ga].
  - assert (Hm : Rabs d * a < 0) by nra.
    assert (Hsq : 0 <= v ^ 2) by apply pow2_ge_0.
    split.
    + intros _. destruct (Rlt_dec (Rabs d * a) (v ^ 2)) as [_ | G]; [| lra].
      rewrite math_sqrt_neg by assumption. reflexivity.
    + split; intros N; contradiction N; split; assumption.
  - assert (Ha : 0 < a) by lra.
    assert (Hm : 0 < Rabs d * a) by (apply Rmult_lt_0_compat; assumption).
    split; [intros [L _]; lra |]. split.
    + intros _ ->.
      destruct (Rlt_dec (Rabs d * a) (0 ^ 2)) as [L | _]; [lra |].
      cbn [rbind]. rewrite fdiv_ok by assumption. cbn [rbind].
      rewrite fdiv_zero. reflexivity.
    + intros _ Nv.
      destruct (Rlt_dec (Rabs d * a) (v ^ 2)) as [L | G].
      * rewrite math_sqrt_ok by lra. cbn [rbind].
        pose proof (sqrt_lt_R0 _ Hm) as Hs.
        rewrite fdiv_ok by assumption. cbn [rbind].
        rewrite fdiv_ok by lra. eexists. reflexivity.
      * cbn [rbind]. rewrite fdiv_ok by assumption. cbn [rbind].
        rewrite fdiv_ok by assumption. eexists. reflexivity.
Qed.

Lemma calc_move_time_domain_witness :
  (-400 < 0 /\ 10 <> 0 -> calc_move_time 10 500 (-400) = Raise ValueError) /\
  (~ (-400 < 0 /\ 10 <> 0) -> 500 = 0 ->
   calc_move_time 10 500 (-400) = Raise ZeroDivisionError) /\
  (~ (-400 < 0 /\ 10 <> 0) -> 500 <> 0 ->
   exists r, calc_move_time 10 500 (-400) = Ok r).
Proof.
  apply (calc_move_time_domain 10 500 (-400)).
  - rewrite Rabs_right by lra. lra.
  - right. right. rewrite Rabs_right by lra. rewrite Rabs_left by lra. lra.
Defined.

(** X6: the timing of a move does not depend on its direction: reversing the
    distance gives the same acceleration time, cruise time and peak speed
    (or the same error), and only the direction component is recomputed. *)
Theorem calc_move_time_reversed (d v a : R) :
  calc_move_time (- d) v a =
    match calc_move_time d v a with
    | Ok (_, accel_t, cruise_t, speed) => Ok (direction_of (- d), accel_t, cruise_t, speed)
    | Raise e => Raise e
    end.
Proof.
  unfold calc_move_time, direction_of. rewrite !abs_as_code, Rabs_Ropp.
  destruct (Req_dec_T a 0) as [Ea | Na].
  { unfold fdiv. destruct (Req_dec_T v 0); reflexivity. }
  destruct (Req_dec_T (Rabs d) 0) as [Ed | Nd].
  { unfold fdiv. destruct (Req_dec_T v 0); reflexivity. }
  destruct (Rlt_dec (Rabs d * a) (v ^ 2)) as [L | G].
  - unfold math_sqrt. destruct (Rlt_dec (Rabs d * a) 0); [reflexivity |].
    cbn [rbind]. unfold fdiv. destruct (Req_dec_T a 0); [reflexivity |].
    cbn [rbind]. destruct (Req_dec_T (sqrt (Rabs d * a)) 0); reflexivity.
  - cbn [rbind]. unfold fdiv. destruct (Req_dec_T a 0); [reflexivity |].
    cbn [rbind]. destruct (Req_dec_T v 0); reflexivity.
Qed.

(** ** Spool model, continued *)

Lemma effective_diameter_value (c : lane_config) (w : R) :
  0 < filament_density c -> 0 <= w ->
  calculate_effective_diameter c w =
    Ok (sqrt (4 * (w / (filament_density c / 1000) / 0.785 / 60) / 3.14159
              + inner_diameter c ^ 2)) /\
  0 <= 4 * (w / (filament_density c / 1000) / 0.785 / 60) / 3.14159.
Proof.
  intros Hrho Hw. unfold calculate_effective_diameter.
  rewrite fdiv_ok by lra. cbn [rbind].
  assert (Hq : 0 <= w / (filament_density c / 1000)).
  { apply Rmult_le_pos; [assumption | left; apply Rinv_0_lt_compat; lra]. }
  assert (Hx : 0 <= 4 * (w / (filament_density c / 1000) / 0.785 / 60) / 3.14159) by lra.
  split; [| exact Hx].
  apply pow_half_ok. pose proof (pow2_ge_0 (inner_diameter c)). lra.
Qed.

Lemma effective_diameter_monotone (c : lane_config) (w1 w2 : R) :
  0 < filament_density c -> 0 <= w1 <= w2 ->
  exists D0 D1 D2,
    calculate_effective_diameter c 0 = Ok D0 /\
    calculate_effective_diameter c w1 = Ok D1 /\
    calculate_effective_diameter c w2 = Ok D2 /\
    D0 = Rabs (inner_diameter c) /\ D0 <= D1 <= D2.
Proof.
  intros Hrho [H1 H2].
  destruct (effective_diameter_value c 0 Hrho) as [E0 _]; [lra |].
  destruct (effective_diameter_value c w1 Hrho H1) as [E1 P1].
  destruct (effective_diameter_value c w2 Hrho) as [E2 P2]; [lra |].
  eexists _, _, _. split; [exact E0 |]. split; [exact E1 |]. split; [exact E2 |].
  pose proof (pow2_ge_0 (inner_diameter c)) as Hi.
  assert (Hmono : w1 / (filament_density c / 1000) <= w2 / (filament_density c / 1000)).
  { apply Rmult_le_compat_r; [left; apply Rinv_0_lt_compat; lra | assumption]. }
  split.
  - replace (4 * (0 / (filament_density c / 1000) / 0.785 / 60) / 3.14159
             + inner_diameter c ^ 2) with (Rsqr (inner_diameter c))
      by (unfold Rsqr; field; lra).
    apply sqrt_Rsqr_abs.
  - split; apply sqrt_le_1_alt; [| lra].
    replace (0 / (filament_density c / 1000)) with 0 by (field; lra). lra.
Qed.

(** X7: with a positive filament density, the effective diameter of the
    spool is the core diameter [|inner_diameter|] when no filament is on it,
    is never below the core diameter, and does not decrease when the weight
    grows. *)
Theorem effective_diameter_grows (c : lane_config) (w1 w2 : R) :
  0 < filament_density c -> 0 <= w1 <= w2 ->
  exists D0 D1 D2,
    calculate_effective_diameter c 0 = Ok D0 /\
    calculate_effective_diameter c w1 = Ok D1 /\
    calculate_effective_diameter c w2 = Ok D2 /\
    D0 = Rabs (inner_diameter c) /\ D0 <= D1 <= D2.
Proof. exact (effective_diameter_monotone c w1 w2). Qed.

Lemma effective_diameter_grows_witness :
  exists D0 D1 D2,
    calculate_effective_diameter default_config 0 = Ok D0 /\
    calculate_effective_diameter default_config 200 = Ok D1 /\
    calculate_effective_diameter default_config 1000 = Ok D2 /\
    D0 = Rabs (inner_diameter default_config) /\ D0 <= D1 <= D2.
Proof.
  apply (effective_diameter_grows default_config 200 1000); cbn; lra.
Defined.

(** X8: on a well-formed spool configuration and for a feed rate that is
    not negative, a spool at or below the empty-spool weight gets 0 RPM;
    for two spool weights [w1 <= w2] that are both above the empty-spool
    weight the RPM is never negative and never above [max_motor_rpm], and
    the fuller spool [w2] turns no faster than the emptier one [w1] at the
    same feed rate. *)
Theorem calculate_rpm_capped_decreasing (c : lane_config) (w1 w2 f : R) :
  spool_ok c -> 0 <= f -> empty_spool_weight c < w1 <= w2 ->
  (forall w, w <= empty_spool_weight c -> calculate_rpm c w f = Ok 0) /\
  exists r1 r2,
    calculate_rpm c w1 f = Ok r1 /\ calculate_rpm c w2 f = Ok r2 /\
    0 <= r2 <= r1 /\ r1 <= max_motor_rpm c.
Proof.
  intros (Hrho & He & Hmax & _) Hf [H1 H2].
  split.
  { intros w Hw. unfold calculate_rpm.
    destruct (Rle_dec w (empty_spool_weight c)) as [_ | N]; [reflexivity | contradiction]. }
  destruct (effective_diameter_monotone c w1 w2 Hrho) as (D0 & D1 & D2 & _ & E1 & E2 & _ & _ & HD);
    [lra |].
  destruct (effective_diameter_pos c w1 Hrho) as (D1' & E1' & P1); [lra |].
  rewrite E1 in E1'. inversion E1'; subst D1'.
  assert (P2 : 0 < D2) by lra.
  pose proof PI_RGT_0 as Hpi.
  assert (HPD1 : 0 < PI * D1) by (apply Rmult_lt_0_compat; assumption).
  assert (HPD2 : 0 < PI * D2) by (apply Rmult_lt_0_compat; assumption).
  unfold calculate_rpm.
  destruct (Rle_dec w1 (empty_spool_weight c)) as [L | _]; [lra |].
  destruct (Rle_dec w2 (empty_spool_weight c)) as [L | _]; [lra |].
  rewrite E1, E2. cbn [rbind]. rewrite !fdiv_ok by lra. cbn [rbind].
  eexists _, _. split; [reflexivity |]. split; [reflexivity |].
  assert (Hq2 : 0 <= f * 60 / (PI * D2)).
  { apply Rmult_le_pos; [lra | left; apply Rinv_0_lt_compat; assumption]. }
  assert (Hq : f * 60 / (PI * D2) <= f * 60 / (PI * D1)).
  { apply Rmult_le_compat_l; [lra |].
    apply Rinv_le_contravar; [assumption |].
    apply Rmult_le_compat_l; lra. }
  split; [split |].
  - apply Rmin_glb; lra.
  - apply Rle_min_compat_r. assumption.
  - apply Rmin_r.
Qed.

Lemma calculate_rpm_capped_decreasing_witness :
  (forall w, w <= empty_spool_weight default_config ->
             calculate_rpm default_config w 50 = Ok 0) /\
  exists r1 r2,
    calculate_rpm default_config 500 50 = Ok r1 /\
    calculate_rpm default_config 1000 50 = Ok r2 /\
    0 <= r2 <= r1 /\ r1 <= max_motor_rpm default_config.
Proof.
  apply (calculate_rpm_capped_decreasing default_config 500 1000 50);
    [exact default_config_ok | lra | cbn; lra].
Defined.

Lemma calculate_pwm_value_factor (c : lane_config) (w f rpm : R) (rewind : bool) :
  0 < max_motor_rpm c -> 0 < duty_factor c rewind ->
  calculate_rpm c w f = Ok rpm ->
  calculate_pwm_value c w f rewind
    = Ok (Rmax 0 (Rmin (rpm * (duty_factor c rewind / max_motor_rpm c)) 1)).
Proof.
  intros Hmax Hg Hr. unfold calculate_pwm_value. rewrite Hr. cbn [rbind].
  unfold duty_factor in *.
  destruct rewind; cbn [negb].
  - rewrite fdiv_ok by lra. cbn [rbind].
    assert (0 < max_motor_rpm c / (15 + 15 * rwd_speed_multi c))
      by (apply Rdiv_lt_0_compat; assumption).
    rewrite fdiv_ok by lra. cbn [rbind].
    f_equal. f_equal. f_equal. field. lra.
  - rewrite fdiv_ok by lra. cbn [rbind].
    assert (0 < max_motor_rpm c / (1 + 9 * fwd_speed_multi c))
      by (apply Rdiv_lt_0_compat; assumption).
    rewrite fdiv_ok by lra. cbn [rbind].
    f_equal. f_equal. f_equal. field. lra.
Qed.

(** X9: with both speed multipliers in [[0, 1]] (the range the
    [SET_SPEED_MULTIPLIER] command accepts), a positive density and maximum
    RPM, and a feed rate that is not negative, the rewind duty is at least
    the forward duty at the same weight and feed rate; and whenever the
    spool RPM has reached [max_motor_rpm], both duties are 1. *)
Theorem rewind_duty_dominates (c : lane_config) (w f : R) :
  0 < filament_density c -> 0 <= empty_spool_weight c -> 0 < max_motor_rpm c ->
  0 <= fwd_speed_multi c <= 1 -> 0 <= rwd_speed_multi c <= 1 -> 0 <= f ->
  exists rpm p_fwd p_rwd,
    calculate_rpm c w f = Ok rpm /\
    calculate_pwm_value c w f false = Ok p_fwd /\
    calculate_pwm_value c w f true = Ok p_rwd /\
    p_fwd <= p_rwd /\
    (rpm = max_motor_rpm c -> p_fwd = 1 /\ p_rwd = 1).
Proof.
  intros Hrho He Hmax Hfwd Hrwd Hf.
  assert (Hr : exists rpm, calculate_rpm c w f = Ok rpm /\ 0 <= rpm).
  { destruct (Rle_dec w (empty_spool_weight c)) as [L | G].
    - exists 0. split; [apply calculate_rpm_empty; assumption | lra].
    - destruct (calculate_rpm_loaded c w Hrho He) as (k & Hk & E); [lra |].
      eexists. split; [apply E |].
      apply Rmin_glb; [apply Rmult_le_pos; lra | lra]. }
  destruct Hr as (rpm & Hr & Hpos).
  assert (Gf : 0 < duty_factor c false) by (unfold duty_factor; lra).
  assert (Gr : 0 < duty_factor c true) by (unfold duty_factor; lra).
  exists rpm. eexists _, _.
  split; [exact Hr |].
  split; [apply (calculate_pwm_value_factor c w f rpm false Hmax Gf Hr) |].
  split; [apply (calculate_pwm_value_factor c w f rpm true Hmax Gr Hr) |].
  assert (Hinv : 0 < / max_motor_rpm c) by (apply Rinv_0_lt_compat; assumption).
  split.
  - apply clamp_monotone. apply Rmult_le_compat_l; [assumption |].
    apply Rmult_le_compat_r; [lra |]. unfold duty_factor. lra.
  - intros ->.
    assert (Hone : forall g, 1 <= g ->
              Rmax 0 (Rmin (max_motor_rpm c * (g / max_motor_rpm c)) 1) = 1).
    { intros g Hg.
      replace (max_motor_rpm c * (g / max_motor_rpm c)) with g by (field; lra).
      rewrite Rmin_right by assumption. apply Rmax_right. lra. }
    split; apply Hone; unfold duty_factor; lra.
Qed.

Lemma rewind_duty_dominates_witness :
  exists rpm p_fwd p_rwd,
    calculate_rpm default_config 1000 50 = Ok rpm /\
    calculate_pwm_value default_config 1000 50 false = Ok p_fwd /\
    calculate_pwm_value default_config 1000 50 true = Ok p_rwd /\
    p_fwd <= p_rwd /\
    (rpm = max_motor_rpm default_config -> p_fwd = 1 /\ p_rwd = 1).
Proof.
  apply (rewind_duty_dominates default_config 1000 50); cbn; lra.
Defined.

(** ** Remaining weight, continued *)

Lemma filament_mass_monotone (c : lane_config) (d1 d2 : R) :
  0 <= filament_density c -> d1 <= d2 -> filament_mass c d1 <= filament_mass c d2.
Proof.
  intros Hrho Hd. unfold filament_mass.
  pose proof PI_RGT_0 as Hpi. pose proof (pow2_ge_0 (filament_diameter c / 2)) as Hsq.
  assert (Hk : 0 <= PI * (filament_diameter c / 2) ^ 2) by (apply Rmult_le_pos; lra).
  assert (H1 : PI * (filament_diameter c / 2) ^ 2 * d1
               <= PI * (filament_diameter c / 2) ^ 2 * d2)
    by (apply Rmult_le_compat_l; assumption).
  assert (H2 : PI * (filament_diameter c / 2) ^ 2 * d1 * filament_density c
               <= PI * (filament_diameter c / 2) ^ 2 * d2 * filament_density c)
    by (apply Rmult_le_compat_r; assumption).
  lra.
Qed.

(** X10: the weight bookkeeping is monotone. With a density that is not
    negative, a heavier spool stays at least as heavy after the same
    segment, and a longer feed (or a shorter rewind) leaves no more weight;
    a segment of length 0 leaves a weight at or above the empty-spool
    weight as it is; and at the empty-spool weight a feed changes
    nothing. *)
Theorem update_remaining_weight_monotone (c : lane_config) (w1 w2 d1 d2 : R) :
  0 <= filament_density c ->
  (w1 <= w2 -> update_remaining_weight c w1 d1 <= update_remaining_weight c w2 d1) /\
  (d1 <= d2 -> update_remaining_weight c w1 d2 <= update_remaining_weight c w1 d1) /\
  (empty_spool_weight c <= w1 -> update_remaining_weight c w1 0 = w1) /\
  (0 <= d1 -> update_remaining_weight c (empty_spool_weight c) d1 = empty_spool_weight c).
Proof.
  intros Hrho. rewrite !update_remaining_weight_max.
  split; [| split; [| split]].
  - intros Hw. apply Rle_max_compat_l. lra.
  - intros Hd. apply Rle_max_compat_l.
    pose proof (filament_mass_monotone c d1 d2 Hrho Hd). lra.
  - intros Hw. replace (filament_mass c 0) with 0 by (unfold filament_mass; field).
    rewrite Rminus_0_r. apply Rmax_right. exact Hw.
  - intros Hd. apply Rmax_left.
    pose proof (filament_mass_monotone c 0 d1 Hrho Hd) as Hm.
    replace (filament_mass c 0) with 0 in Hm by (unfold filament_mass; field). lra.
Qed.

Lemma update_remaining_weight_monotone_witness :
  (500 <= 1000 ->
   update_remaining_weight default_config 500 100
     <= update_remaining_weight default_config 1000 100) /\
  (100 <= 200 ->
   update_remaining_weight default_config 500 200
     <= update_remaining_weight default_config 500 100) /\
  (empty_spool_weight default_config <= 500 ->
   update_remaining_weight default_config 500 0 = 500) /\
  (0 <= 100 ->
   update_remaining_weight default_config (empty_spool_weight default_config) 100
     = empty_spool_weight default_config).
Proof.
  apply (update_remaining_weight_monotone default_config 500 1000 100 200).
  cbn. lra.
Defined.

(** ** Motor channels *)

Section AssistChannel.

Variable Sensor : Type.
Variable env : environment Sensor.

Local Open Scope lane_scope.

Lemma drive_run (p : pin) (m : motor) (v : R) (s : lane Sensor) :
  scale m <> 0 ->
  let q0 := v / scale m in
  let q := if negb (is_pwm m) then
             if Req_dec_T q0 0 then q0
             else if Req_dec_T q0 1 then q0
             else if Rgt_dec q0 0 then 1 else q0
           else q0 in
  drive p m v s =
    (Ret tt, s,
     (if bound (afc_motor_enb (config s))
      then [SetPin Enb (if Req_dec_T q 0 then 0 else 1)] else []) ++ [SetPin p q]).
Proof.
  intros Hs q0 q. unfold drive, bind, get, lift.
  rewrite fdiv_ok by assumption. fold q0. fold q.
  destruct (bound (afc_motor_enb (config s))); reflexivity.
Qed.

Lemma drive_pins (p : pin) (m : motor) (v : R) (s : lane Sensor) :
  Forall (fun w => fst w = Enb \/ fst w = p) (pin_writes (events (drive p m v) s)) /\
  assist_calls (events (drive p m v) s) = [].
Proof.
  unfold events. destruct (Req_dec_T (scale m) 0) as [Z | N].
  - unfold drive, bind, get, lift. rewrite Z, fdiv_zero. cbn. split; constructor.
  - rewrite drive_run by assumption.
    destruct (bound (afc_motor_enb (config s))); cbn [app pin_writes assist_calls];
      (split; [| reflexivity]).
    + apply Forall_cons; [left; reflexivity |].
      apply Forall_cons; [right; reflexivity | apply Forall_nil].
    + apply Forall_cons; [right; reflexivity | apply Forall_nil].
Qed.

Lemma brake_n20_run (s : lane Sensor) :
  let t := Rmax (monotonic s) (monotonic s + n20_break_delay_time (config s)) in
  let fwd := bound (afc_motor_fwd (config s)) in
  brake_n20 env s =
    (Ret tt, suspended_until env t s,
     [SetPin Rwd 1; SetPin Enb 1] ++ (if fwd then [SetPin Fwd 1] else []) ++
     [SetPin Rwd 0; SetPin Enb 0] ++ (if fwd then [SetPin Fwd 0] else [])).
Proof.
  intros t fwd. unfold brake_n20, reactor_pause, bind, get, emit, modify, ret.
  fold fwd. destruct fwd; reflexivity.
Qed.

(** X11: [assist] never drives both directions. A negative value writes no
    forward pin and a positive value no reverse pin; without a reverse
    motor nothing is written at all, whatever the value, and a positive
    value on a lane without a forward motor writes nothing either. *)
Theorem assist_one_direction (value : R) (s : lane Sensor) :
  (value < 0 ->
   Forall (fun w => fst w <> Fwd) (pin_writes (events (assist env value) s))) /\
  (0 < value ->
   Forall (fun w => fst w <> Rwd) (pin_writes (events (assist env value) s))) /\
  (afc_motor_rwd (config s) = None ->
   pin_writes (events (assist env value) s) = []) /\
  (0 < value -> afc_motor_fwd (config s) = None ->
   pin_writes (events (assist env value) s) = []).
Proof.
  assert (Hother : forall p q m v,
            p <> q -> q <> Enb ->
            Forall (fun w => fst w <> q) (pin_writes (events (drive p m v) s))).
  { intros p q m v Hpq Hq.
    destruct (drive_pins p m v s) as [H _].
    eapply Forall_impl; [| exact H].
    intros w [E | E]; rewrite E; auto. }
  unfold events in *. unfold assist, bind, emit, get.
  destruct (afc_motor_rwd (config s)) as [rwd |].
  2: { cbn. repeat split; intros; constructor. }
  destruct (Rlt_dec value 0) as [L | G].
  { specialize (Hother Rwd Fwd rwd (value * -1)).
    destruct (drive Rwd rwd (value * -1) s) as [[o s'] l]. cbn [snd fst app pin_writes] in *.
    split; [intros _; apply Hother; discriminate |].
    split; [intros; lra |]. split; [discriminate | intros; lra]. }
  destruct (Rgt_dec value 0) as [P | Z].
  { destruct (afc_motor_fwd (config s)) as [fwd |].
    - specialize (Hother Fwd Rwd fwd value).
      destruct (drive Fwd fwd value s) as [[o s'] l]. cbn [snd fst app pin_writes] in *.
      split; [intros; lra |].
      split; [intros _; apply Hother; discriminate |].
      split; discriminate.
    - cbn. repeat split; intros; try constructor; lra. }
  split; [intros; lra |]. split; [intros; lra |]. split; [discriminate | intros; lra].
Qed.

(** X12: a nonzero command on a channel with a positive scale returns
    without changing the lane, raises the enable pin (if there is one)
    first, and then writes the direction pin: the magnitude divided by the
    scale on a PWM channel, and 1 on a binary channel, whatever the
    magnitude. *)
Theorem assist_drives_channel (value : R) (s : lane Sensor) (rwd m : motor) :
  afc_motor_rwd (config s) = Some rwd ->
  value <> 0 ->
  (if Rlt_dec value 0 then m = rwd else afc_motor_fwd (config s) = Some m) ->
  0 < scale m ->
  assist env value s =
    (Ret tt, s,
     Assist value ::
     (if bound (afc_motor_enb (config s)) then [SetPin Enb 1] else []) ++
     [SetPin (if Rlt_dec value 0 then Rwd else Fwd)
             (if is_pwm m then Rabs value / scale m else 1)]).
Proof.
  intros Hrwd Hv Hm Hs.
  assert (Hq : 0 < Rabs value / scale m).
  { apply Rdiv_lt_0_compat; [apply Rabs_pos_lt |]; assumption. }
  assert (Hrun : forall p v, v = Rabs value ->
            drive p m v s =
              (Ret tt, s,
               (if bound (afc_motor_enb (config s)) then [SetPin Enb 1] else []) ++
               [SetPin p (if is_pwm m then Rabs value / scale m else 1)])).
  { intros p v ->. rewrite drive_run by lra.
    set (q0 := Rabs value / scale m) in *.
    assert (E : (if negb (is_pwm m)
                 then if Req_dec_T q0 0 then q0
                      else if Req_dec_T q0 1 then q0
                      else if Rgt_dec q0 0 then 1 else q0
                 else q0) = (if is_pwm m then q0 else 1)).
    { destruct (is_pwm m); cbn [negb]; [reflexivity |].
      destruct (Req_dec_T q0 0) as [Z | _]; [lra |].
      destruct (Req_dec_T q0 1) as [O | _]; [assumption |].
      destruct (Rgt_dec q0 0) as [_ | N]; [reflexivity | lra]. }
    rewrite E.
    destruct (Req_dec_T (if is_pwm m then q0 else 1) 0) as [Z | _];
      [destruct (is_pwm m); lra | reflexivity]. }
  unfold assist, bind, emit, get. rewrite Hrwd.
  destruct (Rlt_dec value 0) as [L | G].
  - subst m. rewrite (Hrun Rwd (value * -1)) by (rewrite Rabs_left by assumption; ring).
    reflexivity.
  - destruct (Rgt_dec value 0) as [P | Z]; [| lra].
    rewrite Hm. rewrite (Hrun Fwd value) by (rewrite Rabs_right by lra; reflexivity).
    reflexivity.
Qed.

(** With nonzero scales [assist] returns, the events after the call record
    hold no further call, and the lane is as before but for the reactor time
    (and the latched levels) when the brake waited. *)
Lemma assist_shape (value : R) (s : lane Sensor) :
  scales_ok (config s) ->
  exists s' l,
    assist env value s = (Ret tt, s', Assist value :: l) /\
    assist_calls l = [] /\
    config s' = config s /\ wheel_sensor s' = wheel_sensor s /\
    _wheel_follow_paused s' = _wheel_follow_paused s /\
    assist_activate s' = assist_activate s /\
    remaining_weight s' = remaining_weight s /\
    monotonic s <= monotonic s'.
Proof.
  intros [Hr Hf].
  assert (Hdrive : forall p m v, scale m <> 0 ->
            exists l, drive p m v s = (Ret tt, s, l) /\ assist_calls l = []).
  { intros p m v Hs. rewrite drive_run by assumption.
    eexists. split; [reflexivity |].
    destruct (bound (afc_motor_enb (config s))); reflexivity. }
  unfold assist, bind, emit, get.
  destruct (afc_motor_rwd (config s)) as [rwd |] eqn:Erwd.
  2: { exists s, []. repeat split. apply Rle_refl. }
  destruct (Rlt_dec value 0) as [L | G].
  { destruct (Hdrive Rwd rwd (value * -1) (Hr _ eq_refl)) as (l & E & Hl).
    rewrite E. exists s, l. repeat split; [assumption | apply Rle_refl]. }
  destruct (Rgt_dec value 0) as [P | Z].
  { destruct (afc_motor_fwd (config s)) as [fwd |] eqn:Efwd.
    - destruct (Hdrive Fwd fwd value (Hf _ eq_refl)) as (l & E & Hl).
      rewrite E. exists s, l. repeat split; [assumption | apply Rle_refl].
    - exists s, []. repeat split. apply Rle_refl. }
  destruct (bound (afc_motor_enb (config s))).
  - rewrite brake_n20_run. eexists _, _. split; [reflexivity |].
    split; [destruct (bound (afc_motor_fwd (config s))); reflexivity |].
    repeat split. apply Rmax_l.
  - exists s, [SetPin Rwd value]. repeat split. apply Rle_refl.
Qed.

End AssistChannel.

Lemma assist_drives_channel_witness :
  let s := lane_at_rest default_config None false false in
  assist (scripted spin_then_slack) (-0.5) s =
    (Ret tt, s,
     Assist (-0.5) ::
     (if bound (afc_motor_enb (config s)) then [SetPin Enb 1] else []) ++
     [SetPin (if Rlt_dec (-0.5) 0 then Rwd else Fwd)
             (if is_pwm pwm_motor then Rabs (-0.5) / scale pwm_motor else 1)]).
Proof.
  intros s.
  apply (assist_drives_channel nat (scripted spin_then_slack) (-0.5) s pwm_motor pwm_motor).
  - reflexivity.
  - lra.
  - destruct (Rlt_dec (-0.5) 0); [reflexivity | lra].
  - cbn. lra.
Defined.

(** ** Follow controller, continued *)

Section Follow.

Variable Sensor : Type.
Variable env : environment Sensor.

Local Open Scope lane_scope.

Lemma sensor_read_run (s : lane Sensor) st st' rpm :
  wheel_sensor s = Some st ->
  sensor_get_rpm env (monotonic s) st = (Ok rpm, st') ->
  sensor_read env s = (Ret rpm, set_wheel_sensor (Some st') s, []).
Proof.
  intros Hs Hr. unfold sensor_read, bind, get. rewrite Hs, Hr. reflexivity.
Qed.

(** One tick of the follow controller outside an assist session, on a
    sample [rpm] (or none when no sensor is bound). *)
Lemma wheel_follow_handler_tick (eventtime : R) (s s1 : lane Sensor) (rpm : option R) :
  _wheel_follow_paused s = false ->
  scales_ok (config s) ->
  match wheel_sensor s with
  | Some st => exists st' other,
      sensor_get_rpm env (monotonic s) st = (Ok (rpm, other), st') /\
      s1 = set_wheel_sensor (Some st') s
  | None => rpm = None /\ s1 = s
  end ->
  let wanted := follow_wanted (config s) rpm in
  exists s' l,
    _wheel_follow_handler env eventtime s = (Ret (eventtime + 0.1), s', l) /\
    assist_calls l =
      (if Bool.eqb wanted (assist_activate s) then []
       else if wanted then [Rmax 0 (Rmin (wheel_follow_pwm (config s)) 1)] else [0]) /\
    assist_activate s' = wanted /\
    config s' = config s /\ wheel_sensor s' = wheel_sensor s1 /\
    _wheel_follow_paused s' = false.
Proof.
  intros Hflag Hscales Hsample wanted.
  assert (Hread :
    (if bound (wheel_sensor s) then r <- sensor_read env ;; ret (fst r) else ret None) s
      = (Ret rpm, s1, []) /\
    config s1 = config s /\ assist_activate s1 = assist_activate s /\
    _wheel_follow_paused s1 = false).
  { destruct (wheel_sensor s) as [st |] eqn:Es.
    - destruct Hsample as (st' & other & Hr & ->). cbn [bound].
      unfold bind. rewrite (sensor_read_run s st st' _ Es Hr). cbn.
      repeat split; assumption.
    - destruct Hsample as [-> ->]. cbn [bound]. repeat split; assumption. }
  destruct Hread as (Hread & Hc1 & Ha1 & Hf1).
  assert (Hscales1 : scales_ok (config s1)) by (rewrite Hc1; assumption).
  assert (Hwp : wp (_wheel_follow_handler env eventtime) s
            (fun o s' l =>
               o = Ret (eventtime + 0.1) /\
               assist_calls l =
                 (if Bool.eqb wanted (assist_activate s) then []
                  else if wanted then [Rmax 0 (Rmin (wheel_follow_pwm (config s)) 1)]
                       else [0]) /\
               assist_activate s' = wanted /\
               config s' = config s /\ wheel_sensor s' = wheel_sensor s1 /\
               _wheel_follow_paused s' = false)).
  2: { apply wp_elim in Hwp. destruct Hwp as (o & s' & l & E & -> & H).
       exists s', l. split; assumption. }
  unfold _wheel_follow_handler.
  apply wp_bind_get. rewrite Hflag.
  eapply wp_bind_run; [exact Hread |].
  apply wp_bind_get. rewrite Hc1, Ha1.
  assert (Hidle : wanted = assist_activate s ->
            wp (bind (ret tt) (fun _ => ret (eventtime + 0.1))) s1
              (fun o s' l =>
                 o = Ret (eventtime + 0.1) /\
                 assist_calls ([] ++ [] ++ l) =
                   (if Bool.eqb wanted (assist_activate s) then []
                    else if wanted then [Rmax 0 (Rmin (wheel_follow_pwm (config s)) 1)]
                         else [0]) /\
                 assist_activate s' = wanted /\
                 config s' = config s /\ wheel_sensor s' = wheel_sensor s1 /\
                 _wheel_follow_paused s' = false)).
  { intros Hw. apply wp_bind_ret. apply wp_ret.
    rewrite Hw, Bool.eqb_reflx. repeat split; try assumption; try congruence. }
  assert (Hcmd : forall v b,
            wanted = b -> assist_activate s = negb b ->
            v = (if b then Rmax 0 (Rmin (wheel_follow_pwm (config s)) 1) else 0) ->
            wp (bind (assist env v ;; modify (set_assist_activate b))
                     (fun _ => ret (eventtime + 0.1))) s1
              (fun o s' l =>
                 o = Ret (eventtime + 0.1) /\
                 assist_calls ([] ++ [] ++ l) =
                   (if Bool.eqb wanted (assist_activate s) then []
                    else if wanted then [Rmax 0 (Rmin (wheel_follow_pwm (config s)) 1)]
                         else [0]) /\
                 assist_activate s' = wanted /\
                 config s' = config s /\ wheel_sensor s' = wheel_sensor s1 /\
                 _wheel_follow_paused s' = false)).
  { intros v b Hw Ha Hv.
    destruct (assist_shape Sensor env v s1 Hscales1)
      as (s2 & l2 & E2 & Hl2 & Hc2 & Hw2 & Hf2 & _).
    apply wp_bind_assoc. eapply wp_bind_run; [exact E2 |].
    apply wp_bind_modify. apply wp_ret.
    split; [reflexivity |].
    rewrite Hw, Ha. cbn [app assist_calls]. rewrite app_nil_r, Hl2, Hv.
    destruct b; cbn [Bool.eqb negb set_assist_activate assist_activate config
                     wheel_sensor _wheel_follow_paused];
      repeat split; congruence. }
  clear Hread. subst wanted. unfold follow_wanted in *.
  destruct rpm as [r |].
  - destruct (Rge_dec r (wheel_follow_min_rpm (config s))) as [G | L].
    + destruct (assist_activate s) eqn:Ea; cbn [negb].
      * apply Hidle; reflexivity.
      * apply (Hcmd _ true); reflexivity.
    + destruct (assist_activate s) eqn:Ea.
      * apply (Hcmd _ false); reflexivity.
      * apply Hidle; reflexivity.
  - destruct (assist_activate s) eqn:Ea.
    + apply (Hcmd _ false); reflexivity.
    + apply Hidle; reflexivity.
Qed.

End Follow.

Section FollowTicks.

Variable Sensor : Type.
Variable env : environment Sensor.

Local Open Scope lane_scope.

(** X13: the follow controller is level-triggered. Outside an assist
    session, over any number of consecutive ticks during which the wheel
    sensor keeps asking for the same thing ([b = true]: every sample is at
    least [wheel_follow_min_rpm]; [b = false]: every sample is below it or
    missing, or no sensor is bound), [assist] is called at most once: not at
    all when the assist is already in the wanted state, and otherwise once,
    with the follow duty clamped to [[0, 1]] to switch it on or with 0 to
    switch it off. *)
Theorem follow_level_triggered (inv : Sensor -> Prop) (b : bool) (c : lane_config)
    (n : nat) (eventtime : R) (s : lane Sensor) :
  (forall now st, inv st ->
     exists rpm other st',
       sensor_get_rpm env now st = (Ok (rpm, other), st') /\
       follow_wanted c rpm = b /\ inv st') ->
  config s = c ->
  match wheel_sensor s with Some st => inv st | None => b = false end ->
  _wheel_follow_paused s = false ->
  scales_ok c ->
  exists next s' l,
    follow_ticks env (S n) eventtime s = (Ret next, s', l) /\
    assist_calls l =
      (if Bool.eqb b (assist_activate s) then []
       else if b then [Rmax 0 (Rmin (wheel_follow_pwm c) 1)] else [0]) /\
    assist_activate s' = b /\
    0 <= Rmax 0 (Rmin (wheel_follow_pwm c) 1) <= 1.
Proof.
  intros Hsensor Hc Hinv Hflag Hscales.
  assert (Htick : forall t (s : lane Sensor),
    config s = c ->
    match wheel_sensor s with Some st => inv st | None => b = false end ->
    _wheel_follow_paused s = false ->
    exists s' l,
      _wheel_follow_handler env t s = (Ret (t + 0.1), s', l) /\
      assist_calls l =
        (if Bool.eqb b (assist_activate s) then []
         else if b then [Rmax 0 (Rmin (wheel_follow_pwm c) 1)] else [0]) /\
      assist_activate s' = b /\ config s' = c /\
      match wheel_sensor s' with Some st => inv st | None => b = false end /\
      _wheel_follow_paused s' = false).
  { clear s Hc Hinv Hflag. intros t s Hc Hinv Hflag.
    assert (Hsample : exists rpm s1,
      match wheel_sensor s with
      | Some st => exists st' other,
          sensor_get_rpm env (monotonic s) st = (Ok (rpm, other), st') /\
          s1 = set_wheel_sensor (Some st') s
      | None => rpm = None /\ s1 = s
      end /\
      follow_wanted c rpm = b /\
      match wheel_sensor s1 with Some st => inv st | None => b = false end).
    { destruct (wheel_sensor s) as [st |] eqn:Es.
      - destruct (Hsensor (monotonic s) st Hinv) as (rpm & other & st' & Hr & Hw & Hi).
        exists rpm, (set_wheel_sensor (Some st') s).
        split; [exists st', other; split; [exact Hr | reflexivity] |].
        split; [exact Hw | exact Hi].
      - exists None, s. split; [split; reflexivity |].
        split; [symmetry; exact Hinv | rewrite Es; exact Hinv]. }
    destruct Hsample as (rpm & s1 & Hs1 & Hw & Hi).
    destruct (wheel_follow_handler_tick Sensor env t s s1 rpm Hflag)
      as (s' & l & E & Hl & Ha & Hc' & Hws & Hf'); [rewrite Hc; assumption | exact Hs1 |].
    rewrite Hc, Hw in *.
    exists s', l. split; [exact E |]. split; [exact Hl |]. split; [exact Ha |].
    split; [exact Hc' |]. split; [rewrite Hws; exact Hi | exact Hf']. }
  revert eventtime s Hc Hinv Hflag.
  induction n as [| n IH]; intros t s Hc Hinv Hflag.
  - destruct (Htick t s Hc Hinv Hflag) as (s' & l & E & Hl & Ha & _).
    exists (t + 0.1), s', l. split.
    + cbn [follow_ticks]. unfold bind. rewrite E. cbn [ret].
      rewrite app_nil_r. reflexivity.
    + split; [exact Hl |]. split; [exact Ha | apply clamp_bounds].
  - destruct (Htick t s Hc Hinv Hflag) as (s1 & l1 & E1 & Hl1 & Ha1 & Hc1 & Hi1 & Hf1).
    destruct (IH (t + 0.1) s1 Hc1 Hi1 Hf1) as (next & s' & l2 & E2 & Hl2 & Ha2 & Hb).
    exists next, s', (l1 ++ l2). split.
    + change (follow_ticks env (S (S n)) t)
        with (bind (_wheel_follow_handler env t)
                   (fun next => follow_ticks env (S n) next)).
      unfold bind at 1. rewrite E1, E2. reflexivity.
    + rewrite assist_calls_app, Hl1, Hl2, Ha1, Bool.eqb_reflx, app_nil_r.
      split; [reflexivity |]. split; [exact Ha2 | exact Hb].
Qed.

End FollowTicks.

Lemma follow_level_triggered_witness :
  let s := lane_at_rest default_config (Some O) false false in
  exists next s' l,
    follow_ticks (scripted (fun _ => Some 20)) 5 0 s = (Ret next, s', l) /\
    assist_calls l =
      (if Bool.eqb true (assist_activate s) then []
       else if true then [Rmax 0 (Rmin (wheel_follow_pwm default_config) 1)] else [0]) /\
    assist_activate s' = true /\
    0 <= Rmax 0 (Rmin (wheel_follow_pwm default_config) 1) <= 1.
Proof.
  intros s.
  apply (follow_level_triggered nat (scripted (fun _ => Some 20)) (fun _ => True) true
           default_config 4 0 s).
  - intros now st _. exists (Some 20), (Some 20), (S st).
    split; [reflexivity |]. split; [| exact I].
    unfold follow_wanted. cbn [wheel_follow_min_rpm default_config].
    destruct (Rge_dec 20 1) as [_ | N]; [reflexivity | lra].
  - reflexivity.
  - exact I.
  - reflexivity.
  - exact default_scales_ok.
Defined.

(** ** The duties the lane commands *)

Lemma calculate_pwm_value_range (c : lane_config) (w f p : R) (rewind : bool) :
  calculate_pwm_value c w f rewind = Ok p -> 0 <= p <= 1.
Proof.
  unfold calculate_pwm_value.
  destruct (calculate_rpm c w f) as [rpm | e]; cbn [rbind]; [| discriminate].
  destruct (negb rewind).
  - destruct (fdiv (max_motor_rpm c) (1 + 9 * fwd_speed_multi c)) as [full | e];
      cbn [rbind]; [| discriminate].
    destruct (fdiv rpm full) as [q | e]; cbn [rbind]; [| discriminate].
    intros H. inversion H. apply clamp_bounds.
  - destruct (fdiv (max_motor_rpm c) (15 + 15 * rwd_speed_multi c)) as [full | e];
      cbn [rbind]; [| discriminate].
    destruct (fdiv rpm full) as [q | e]; cbn [rbind]; [| discriminate].
    intros H. inversion H. apply clamp_bounds.
Qed.

Section Commands.

Variable Sensor : Type.
Variable env : environment Sensor.
Variable P : R -> Prop.

Local Open Scope lane_scope.

Lemma cw_ret {A : Type} (Q : A -> Prop) (a : A) :
  Q a -> commands_within P Q (@ret Sensor A a).
Proof.
  intros H s. apply wp_ret. split; [constructor |]. intros a' E. inversion E. subst. exact H.
Qed.

Lemma cw_raise {A : Type} (Q : A -> Prop) (e : exn) :
  commands_within P Q (@raise Sensor A e).
Proof. intros s. apply wp_raise. split; [constructor | discriminate]. Qed.

Lemma cw_diverge {A : Type} (Q : A -> Prop) : commands_within P Q (@diverge Sensor A).
Proof. intros s. apply wp_diverge. split; [constructor | discriminate]. Qed.

Lemma cw_lift {A : Type} (Q : A -> Prop) (r : result A) :
  (forall a, r = Ok a -> Q a) -> commands_within P Q (@lift Sensor A r).
Proof.
  intros H s. apply wp_lift. destruct r as [a | e].
  - split; [constructor |]. intros a' E. inversion E. subst. apply H. reflexivity.
  - split; [constructor | discriminate].
Qed.

Lemma cw_modify (f : lane Sensor -> lane Sensor) :
  commands_within P (fun _ => True) (modify f).
Proof. intros s. apply wp_modify. split; [constructor | trivial]. Qed.

Lemma cw_emit (e : event) :
  assist_calls [e] = [] -> commands_within P (fun _ => True) (@emit Sensor e).
Proof.
  intros H s. apply wp_emit. rewrite H. split; [constructor | trivial].
Qed.

Lemma cw_weaken {A : Type} (Q Q' : A -> Prop) (m : M Sensor A) :
  commands_within P Q m -> (forall a, Q a -> Q' a) -> commands_within P Q' m.
Proof.
  intros H HQ s. eapply wp_mono; [apply H |].
  intros o s' l [HF Ha]. split; [exact HF |]. intros a E. apply HQ, Ha, E.
Qed.

Lemma cw_bind {A B : Type} (Q : A -> Prop) (Q' : B -> Prop)
    (m : M Sensor A) (k : A -> M Sensor B) :
  commands_within P Q m -> (forall a, Q a -> commands_within P Q' (k a)) ->
  commands_within P Q' (bind m k).
Proof.
  intros Hm Hk s.
  eapply wp_seq; [apply Hm |].
  intros o s1 l1 [HF Ha]. destruct o as [a | e |].
  - eapply wp_mono; [apply (Hk a (Ha a eq_refl)) |].
    intros o2 s2 l2 [HF2 Ha2]. rewrite assist_calls_app.
    split; [apply Forall_app; split; assumption | exact Ha2].
  - split; [exact HF | discriminate].
  - split; [exact HF | discriminate].
Qed.

Lemma cw_bind_get {B : Type} (Q' : B -> Prop) (k : lane Sensor -> M Sensor B) :
  (forall s0, commands_within P Q' (k s0)) -> commands_within P Q' (bind get k).
Proof. intros H s. apply wp_bind_get. apply H. Qed.

Lemma cw_attempt {A : Type} (m : M Sensor A) :
  commands_within P (fun _ => True) m ->
  commands_within P (fun _ => True) (attempt m).
Proof.
  intros H s. apply wp_attempt. eapply wp_mono; [apply H |].
  intros o s' l [HF _]. destruct o; split; trivial; discriminate.
Qed.

Lemma cw_reactor_pause (delay : R) :
  commands_within P (fun _ => True) (reactor_pause env delay).
Proof. apply cw_modify. Qed.

Lemma cw_sensor_read : commands_within P (fun _ => True) (sensor_read env).
Proof.
  unfold sensor_read. apply cw_bind_get. intros s0.
  destruct (wheel_sensor s0) as [st |]; [| apply cw_raise].
  destruct (sensor_get_rpm env (monotonic s0) st) as [r st'].
  eapply (cw_bind (fun _ => True)); [apply cw_modify |]. intros _ _. apply cw_lift. trivial.
Qed.

Lemma cw_lane_pwm_value (feed_rate : R) (rewind : bool) :
  commands_within P (fun p => 0 <= p <= 1) (@lane_pwm_value Sensor feed_rate rewind).
Proof.
  unfold lane_pwm_value. apply cw_bind_get. intros s0.
  apply cw_lift. intros p. apply calculate_pwm_value_range.
Qed.

Lemma cw_assist (value : R) :
  P value -> commands_within P (fun _ => True) (assist env value).
Proof.
  intros HP s. unfold wp, outcome_of, final, events.
  assert (H : assist_calls (snd (assist env value s)) = [value]).
  { unfold assist, bind, emit, get.
    destruct (afc_motor_rwd (config s)) as [rwd |]; [| reflexivity].
    destruct (Rlt_dec value 0).
    { destruct (drive_pins Sensor Rwd rwd (value * -1) s) as [_ H].
      unfold events in H.
      destruct (drive Rwd rwd (value * -1) s) as [[o s'] l]. cbn in *.
      rewrite H. reflexivity. }
    destruct (Rgt_dec value 0).
    { destruct (afc_motor_fwd (config s)) as [fwd |]; [| reflexivity].
      destruct (drive_pins Sensor Fwd fwd value s) as [_ H].
      unfold events in H.
      destruct (drive Fwd fwd value s) as [[o s'] l]. cbn in *.
      rewrite H. reflexivity. }
    destruct (bound (afc_motor_enb (config s))); [| reflexivity].
    rewrite brake_n20_run.
    destruct (bound (afc_motor_fwd (config s))); reflexivity. }
  rewrite H. split; [repeat constructor; exact HP | trivial].
Qed.

End Commands.

Section CommandRange.

Variable Sensor : Type.
Variable env : environment Sensor.

Local Open Scope lane_scope.

Ltac cw_step :=
  first
    [ apply cw_ret; trivial
    | apply cw_raise
    | apply cw_diverge
    | apply cw_modify
    | apply cw_reactor_pause
    | apply cw_sensor_read
    | apply cw_emit; reflexivity
    | apply cw_lift; intros; exact I
    | apply cw_bind_get; intros ?
    | assumption ].

Lemma cw_baseline_loop (P : R -> Prop) fuel start_time rpm :
  commands_within P (fun _ => True) (baseline_loop env fuel start_time rpm).
Proof.
  revert rpm. induction fuel as [| fuel IH]; intros rpm; [apply cw_diverge |].
  rewrite baseline_loop_unfold.
  apply cw_bind_get. intros s0.
  destruct (Rlt_dec (monotonic s0 - start_time) 2); [| cw_step].
  eapply (cw_bind _ _ (fun _ => True)); [apply cw_sensor_read |]. intros rpm' _.
  destruct (fst rpm') as [wheel_rpm |].
  - destruct (Rgt_dec wheel_rpm (tension_baseline_min_rpm (config s0))); [cw_step |].
    eapply (cw_bind _ _ (fun _ => True)); [apply cw_reactor_pause |]. intros _ _. apply IH.
  - eapply (cw_bind _ _ (fun _ => True)); [apply cw_reactor_pause |]. intros _ _. apply IH.
Qed.

Lemma cw_regulation_loop fuel start_time cutoff target_rpm pwm_val rpm :
  -1 <= pwm_val <= 0 ->
  commands_within (fun v => -1 <= v <= 0) (fun _ => True)
    (regulation_loop env fuel start_time cutoff target_rpm pwm_val rpm).
Proof.
  revert pwm_val rpm. induction fuel as [| fuel IH]; intros pwm_val rpm Hp;
    [apply cw_diverge |].
  rewrite regulation_loop_unfold.
  apply cw_bind_get. intros s0.
  destruct (Rlt_dec (monotonic s0 - start_time) (tension_max_time (config s0)));
    [| cw_step].
  eapply (cw_bind _ _ (fun _ => True)); [apply cw_sensor_read |]. intros rpm' _.
  destruct (fst rpm') as [wheel_rpm |].
  - eapply (cw_bind _ _ (fun p => -1 <= p <= 0)).
    + destruct (Rlt_dec wheel_rpm (target_rpm * 0.9)).
      { assert (Hn : -1 <= Rmax (pwm_val - 0.05) (-1) <= 0).
        { split; [apply Rmax_r | apply Rmax_lub; lra]. }
        eapply (cw_bind _ _ (fun _ => True)); [apply cw_assist; exact Hn |]. intros _ _.
        apply cw_ret. exact Hn. }
      destruct (Rgt_dec wheel_rpm (target_rpm * 1.1)).
      { assert (Hn : -1 <= Rmin (pwm_val + 0.05) 0 <= 0).
        { split; [apply Rmin_glb; lra | apply Rmin_r]. }
        eapply (cw_bind _ _ (fun _ => True)); [apply cw_assist; exact Hn |]. intros _ _.
        apply cw_ret. exact Hn. }
      apply cw_ret. exact Hp.
    + intros p Hp'. destruct (Rlt_dec wheel_rpm cutoff); [cw_step |].
      eapply (cw_bind _ _ (fun _ => True)); [apply cw_reactor_pause |]. intros _ _. apply IH. exact Hp'.
  - eapply (cw_bind _ _ (fun _ => True)); [apply cw_reactor_pause |]. intros _ _. apply IH. exact Hp.
Qed.

Lemma cw_rewind_until_tension fuel speed :
  commands_within (fun v => -1 <= v <= 0) (fun _ => True)
    (rewind_until_tension env fuel speed).
Proof.
  unfold rewind_until_tension. apply cw_bind_get. intros s0.
  destruct (wheel_sensor s0); [| cw_step].
  destruct (afc_motor_rwd (config s0)); [| cw_step].
  eapply (cw_bind _ _ (fun p => 0 <= p <= 1)); [apply cw_lane_pwm_value |]. intros p Hp. cbv beta in Hp.
  assert (Hn : -1 <= - (if Rgt_dec p 1 then 1 else p) <= 0).
  { destruct (Rgt_dec p 1); lra. }
  eapply (cw_bind _ _ (fun _ => True)); [apply cw_assist; exact Hn |]. intros _ _.
  apply cw_bind_get. intros start.
  eapply (cw_bind _ _ (fun _ => True)); [apply cw_baseline_loop |]. intros found _.
  destruct (fst found) as [baseline_rpm |].
  - eapply (cw_bind _ _ (fun _ => True)); [apply cw_regulation_loop; exact Hn |]. intros rpm _.
    eapply (cw_bind _ _ (fun _ => True)); [apply cw_lift; intros; exact I |]. intros wheel_rpm _.
    eapply (cw_bind _ _ (fun _ => True)); [apply cw_lift; intros; exact I |]. intros motor_rpm _.
    eapply (cw_bind _ _ (fun _ => True)); [apply cw_emit; reflexivity |]. intros _ _.
    eapply (cw_bind _ _ (fun _ => True)); [apply cw_assist; lra |]. intros _ _.
    apply cw_emit. reflexivity.
  - eapply (cw_bind _ _ (fun _ => True)); [apply cw_assist; lra |]. intros _ _.
    apply cw_emit. reflexivity.
Qed.

Lemma cw_widen {A : Type} (P P' : R -> Prop) (Q : A -> Prop) (m : M Sensor A) :
  (forall v, P v -> P' v) -> commands_within P Q m -> commands_within P' Q m.
Proof.
  intros HP H s. eapply wp_mono; [apply H |].
  intros o s' l [HF Ha]. split; [| exact Ha].
  eapply Forall_impl; [| exact HF]. exact HP.
Qed.

Lemma cw_assist_move_finally rewind assist_active :
  commands_within (fun v => -1 <= v <= 1) (fun _ => True)
    (assist_move_finally env rewind assist_active).
Proof.
  unfold assist_move_finally. apply cw_bind_get. intros s0.
  eapply (cw_bind _ _ (fun _ => True)).
  - destruct (assist_active && negb (rewind && bound (wheel_sensor s0)));
      [apply cw_assist; lra | apply cw_ret; trivial].
  - intros _ _. eapply (cw_bind _ _ (fun _ => True)); [apply cw_modify |]. intros _ _.
    apply cw_emit. reflexivity.
Qed.

Lemma cw_move_segment fuel distance speed accel assist_active :
  commands_within (fun v => -1 <= v <= 1) (fun _ => True)
    (_move env fuel distance speed accel assist_active).
Proof.
  unfold _move.
  eapply (cw_bind _ _ (fun _ => True)); [apply cw_emit; reflexivity |]. intros _ _.
  eapply (cw_bind _ _ (fun _ => True)); [destruct assist_active; [apply cw_modify | apply cw_ret; trivial] |].
  intros _ _. unfold with_assist_move.
  set (rewind := if Rlt_dec distance 0 then true else false). clearbody rewind.
  eapply (cw_bind _ _ (fun _ => True)).
  { unfold assist_move_enter. destruct assist_active; [| apply cw_ret; trivial].
    eapply (cw_bind _ _ (fun _ => True)); [apply cw_modify |]. intros _ _.
    eapply (cw_bind _ _ (fun _ => True)); [apply cw_emit; reflexivity |]. intros _ _.
    apply cw_bind_get. intros s0.
    destruct (rewind && bound (wheel_sensor s0)).
    - eapply (cw_bind _ _ (fun _ => True)).
      + eapply cw_widen; [| apply cw_rewind_until_tension]. intros v Hv. cbv beta in *. lra.
      + intros _ _. apply cw_ret. trivial.
    - eapply (cw_bind _ _ (fun v => -1 <= v <= 1)).
      + destruct rewind.
        * eapply (cw_bind _ _ (fun p => 0 <= p <= 1)); [apply cw_lane_pwm_value |]. intros v Hv.
          apply cw_ret. cbv beta in Hv. lra.
        * eapply cw_weaken; [apply cw_lane_pwm_value |]. intros v Hv. cbv beta in Hv. lra.
      + intros v Hv.
        eapply (cw_bind _ _ (fun _ => True)); [apply cw_assist; destruct (Rgt_dec v 1); lra |].
        intros _ _. apply cw_ret. trivial. }
  intros y _.
  eapply (cw_bind _ _ (fun _ => True)).
  { apply cw_attempt. unfold run_segment.
    eapply (cw_bind _ _ (fun _ => True)); [apply cw_lift; intros; exact I |]. intros [[[axis_r accel_t] cruise_t] cruise_v] _.
    eapply (cw_bind _ _ (fun _ => True)); [apply cw_emit; reflexivity |]. intros _ _.
    eapply (cw_bind _ _ (fun _ => True)); [apply cw_emit; reflexivity |]. intros _ _.
    apply cw_reactor_pause. }
  intros r _. destruct r as [a | e].
  - eapply (cw_bind _ _ (fun _ => True)); [| intros _ _; apply cw_ret; trivial].
    unfold assist_move_resume. destruct y; [| apply cw_assist_move_finally].
    eapply (cw_bind _ _ (fun _ => True)); [apply cw_modify |]. intros _ _. apply cw_emit. reflexivity.
  - unfold assist_move_throw. destruct y; [apply cw_raise |].
    eapply (cw_bind _ _ (fun _ => True)); [apply cw_assist_move_finally |]. intros _ _. apply cw_raise.
Qed.

Lemma cw_move_loop inner fuel move_total direction speed accel assist_active :
  commands_within (fun v => -1 <= v <= 1) (fun _ => True)
    (move_loop env inner fuel move_total direction speed accel assist_active).
Proof.
  revert move_total. induction fuel as [| fuel IH]; intros move_total;
    [apply cw_diverge |].
  cbn [move_loop].
  destruct (Rgt_dec move_total 0); [| apply cw_ret; trivial].
  apply cw_bind_get. intros s0.
  eapply (cw_bind _ _ (fun _ => True)); [apply cw_move_segment |]. intros _ _. apply IH.
Qed.

(** X14: the duty never leaves its range. Whatever the sensor reports and
    however the run ends, every value the tension rewind passes to [assist]
    lies in [[-1, 0]] (it never drives the spool forward), and every value
    a move passes to [assist], in either direction and with or without a
    wheel sensor, lies in [[-1, 1]]. *)
Theorem duty_stays_in_range (fuel : nat) (distance speed accel : R)
    (assist_active : bool) (s : lane Sensor) :
  Forall (fun v => -1 <= v <= 0)
         (assist_calls (events (rewind_until_tension env fuel speed) s)) /\
  Forall (fun v => -1 <= v <= 1)
         (assist_calls (events (move env fuel distance speed accel assist_active) s)).
Proof.
  split.
  - apply (cw_rewind_until_tension fuel speed s).
  - unfold move. apply (cw_move_loop fuel fuel _ _ speed accel assist_active s).
Qed.

End CommandRange.

(** ** The tension rewind, continued *)

Section RewindEnds.

Variable Sensor : Type.
Variable env : environment Sensor.

Local Open Scope lane_scope.

(** X15: whatever the wheel sensor answers, the tension rewind comes to an
    end: with fuel for the polls of its two bounded loops it returns or
    raises, and never spins forever. And whenever it returns on a lane with
    a sensor and a reverse motor, the last duty it commanded is 0. *)
Theorem rewind_ends_and_stops (speed : R) (s : lane Sensor) :
  exists n, forall fuel, (n <= fuel)%nat ->
    outcome_of (rewind_until_tension env fuel speed) s <> Diverge /\
    (bound (wheel_sensor s) = true -> bound (afc_motor_rwd (config s)) = true ->
     outcome_of (rewind_until_tension env fuel speed) s = Ret tt ->
     last (assist_calls (events (rewind_until_tension env fuel speed) s)) 1 = 0).
Proof.
  destruct (rewind_until_tension_halts Sensor env speed s) as (n & Hn).
  exists n. intros fuel Hfuel. split.
  - apply (Hn fuel Hfuel).
  - intros Hs Hm. apply (rewind_until_tension_returns_stopped Sensor env fuel speed s Hs Hm).
Qed.

(** The baseline loop on a spool that never turns fast enough: 20 polls,
    2.0 s, no baseline. *)
Lemma baseline_loop_slow (slow : Sensor -> Prop) (c : lane_config) (start_time : R) :
  (forall now st, slow st ->
     exists rpm other st',
       sensor_get_rpm env now st = (Ok (rpm, other), st') /\
       match rpm with Some r => r <= tension_baseline_min_rpm c | None => True end /\
       slow st') ->
  forall (k fuel : nat) rpm (s : lane Sensor) st,
    config s = c -> wheel_sensor s = Some st -> slow st ->
    monotonic s - start_time = 2 - INR k * 0.1 ->
    (k < fuel)%nat ->
    wp (baseline_loop env fuel start_time rpm) s
       (fun o s' l =>
          l = [] /\ (exists rpm', o = Ret (None, rpm')) /\
          config s' = c /\ remaining_weight s' = remaining_weight s /\
          monotonic s' = start_time + 2).
Proof.
  intros Hsensor. induction k as [| k IH]; intros fuel rpm s st Hc Hs Hslow Ht Hfuel;
    (destruct fuel as [| fuel]; [lia |]); rewrite baseline_loop_unfold;
    apply wp_bind_get.
  - cbn [INR] in Ht.
    destruct (Rlt_dec (monotonic s - start_time) 2) as [L | _]; [lra |].
    apply wp_ret. split; [reflexivity |]. split; [eexists; reflexivity |].
    split; [assumption |]. split; [reflexivity | lra].
  - rewrite S_INR in Ht. pose proof (pos_INR k) as Hk.
    destruct (Rlt_dec (monotonic s - start_time) 2) as [_ | G]; [| lra].
    destruct (Hsensor (monotonic s) st Hslow) as (rpm' & other & st' & Hr & Hlow & Hslow').
    eapply wp_bind_sensor_read; [exact Hs | exact Hr |]. cbn [fst].
    assert (Hnext : wp (reactor_pause env 0.1 ;;
                        baseline_loop env fuel start_time (rpm', other))
                       (set_wheel_sensor (Some st') s)
                       (fun o s' l =>
                          l = [] /\ (exists rpm'0, o = Ret (None, rpm'0)) /\
                          config s' = c /\ remaining_weight s' = remaining_weight s /\
                          monotonic s' = start_time + 2)).
    { apply wp_bind_pause.
      cbn [monotonic set_wheel_sensor].
      rewrite Rmax_right by lra.
      eapply wp_mono.
      - apply (IH fuel (rpm', other) _ st'); cbn; try assumption; try reflexivity;
          [lra | lia].
      - intros o s' l H. exact H. }
    destruct rpm' as [r |]; [| exact Hnext].
    rewrite Hc.
    destruct (Rgt_dec r (tension_baseline_min_rpm c)) as [G | _]; [lra | exact Hnext].
Qed.

(** X16: on a spool that never turns faster than [tension_baseline_min_rpm]
    (every sample is at most that, or missing), the tension rewind gives up
    after its 2.0 s baseline window: it returns, the only duties it
    commanded are the initial reverse duty and then 0, its last message is
    "Baseline RPM not found", and at least 2.0 s of reactor time have
    passed. Fuel for 21 polls is enough. *)
Theorem rewind_gives_up_without_baseline (slow : Sensor -> Prop) (speed p : R)
    (s : lane Sensor) (st : Sensor) (fuel : nat) :
  (forall now st, slow st ->
     exists rpm other st',
       sensor_get_rpm env now st = (Ok (rpm, other), st') /\
       match rpm with
       | Some r => r <= tension_baseline_min_rpm (config s)
       | None => True
       end /\
       slow st') ->
  wheel_sensor s = Some st -> slow st ->
  bound (afc_motor_rwd (config s)) = true ->
  scales_ok (config s) ->
  calculate_pwm_value (config s) (remaining_weight s) speed true = Ok p ->
  (21 <= fuel)%nat ->
  exists s' l,
    rewind_until_tension env fuel speed s = (Ret tt, s', l) /\
    assist_calls l = [- p; 0] /\
    last l LedFault = LogInfo MsgBaselineNotFound /\
    monotonic s + 2 <= monotonic s'.
Proof.
  intros Hsensor Hs Hslow Hrwd Hscales Hp Hfuel.
  pose proof (calculate_pwm_value_range _ _ _ _ _ Hp) as Hrange.
  assert (Hwp : wp (rewind_until_tension env fuel speed) s
            (fun o s' l =>
               o = Ret tt /\ assist_calls l = [- p; 0] /\
               last l LedFault = LogInfo MsgBaselineNotFound /\
               monotonic s + 2 <= monotonic s')).
  2: { apply wp_elim in Hwp. destruct Hwp as (o & s' & l & E & -> & H).
       exists s', l. split; assumption. }
  unfold rewind_until_tension. apply wp_bind_get. rewrite Hs.
  destruct (afc_motor_rwd (config s)) as [rwd |] eqn:Erwd; [| discriminate Hrwd].
  eapply wp_bind_lane_pwm_value; [exact Hp |].
  destruct (Rgt_dec p 1) as [G | _]; [lra |].
  destruct (assist_shape Sensor env (- p) s Hscales)
    as (s1 & l1 & E1 & Hl1 & Hc1 & Hw1 & _ & _ & Hr1 & Ht1).
  eapply wp_bind_run; [exact E1 |].
  apply wp_bind_get.
  eapply wp_seq.
  { apply (baseline_loop_slow slow (config s) (monotonic s1) Hsensor 20 fuel
             (Some 0, Some 0) s1 st); try assumption.
    all: try congruence.
    all: try lia.
    all: cbn [INR]; lra. }
  intros o s2 l2 (Hl2 & (rpm' & Ho) & Hc2 & Hr2 & Ht2). subst o l2. cbn [fst].
  destruct (assist_shape Sensor env 0 s2) as (s3 & l3 & E3 & Hl3 & _ & _ & _ & _ & _ & Ht3);
    [rewrite Hc2; assumption |].
  eapply wp_bind_run; [exact E3 |].
  apply wp_emit.
  split; [reflexivity |].
  split.
  { repeat first [rewrite assist_calls_app | progress cbn [app assist_calls]].
    rewrite Hl1, Hl3. reflexivity. }
  split.
  { cbn [app]. rewrite ?app_comm_cons, ?app_assoc. apply last_last. }
  lra.
Qed.

End RewindEnds.

Lemma rewind_gives_up_without_baseline_witness :
  let s := lane_at_rest default_config (Some O) false false in
  exists p s' l,
    calculate_pwm_value (config s) (remaining_weight s) 50 true = Ok p /\
    rewind_until_tension (scripted (fun _ => None)) 21 50 s = (Ret tt, s', l) /\
    assist_calls l = [- p; 0] /\
    last l LedFault = LogInfo MsgBaselineNotFound /\
    monotonic s + 2 <= monotonic s'.
Proof.
  intros s.
  destruct (calculate_pwm_value_total default_config 1000 50 true default_config_ok)
    as (p & Hp & _).
  exists p.
  destruct (rewind_gives_up_without_baseline nat (scripted (fun _ => None))
              (fun _ => True) 50 p s O 21) as (s' & l & H).
  - intros now st _. exists None, None, (S st). repeat split.
  - reflexivity.
  - exact I.
  - reflexivity.
  - exact default_scales_ok.
  - exact Hp.
  - apply le_n.
  - exists s', l. split; [exact Hp | exact H].
Defined.

(** ** The assist guard, continued *)

Lemma guard_releases_witness :
  let s := lane_at_rest default_config None false false in
  exists y s1 l1 s' l3,
    assist_move_enter (scripted spin_then_slack) 1 50 true true s = (Ret y, s1, l1) /\
    with_assist_move (A := unit) (scripted spin_then_slack) 1 50 true true
      (raise BackendError) s = (Exc BackendError, s', l1 ++ [] ++ l3) /\
    _wheel_follow_paused s' = false /\
    (y = YieldInTry -> true && bound (wheel_sensor s1) = false ->
     assist_calls l3 = [0]).
Proof.
  intros s.
  destruct (calculate_pwm_value_total default_config 1000 50 true default_config_ok)
    as (p & Hp & _).
  assert (Hwp : wp (assist_move_enter (scripted spin_then_slack) 1 50 true true) s
                   (fun o _ _ => o = Ret YieldInTry)).
  { unfold assist_move_enter.
    apply wp_bind_modify. apply wp_bind_emit. apply wp_bind_get.
    cbn [wheel_sensor set_wheel_follow_paused lane_at_rest s bound andb].
    apply wp_bind_assoc.
    eapply wp_bind_lane_pwm_value; [exact Hp |].
    apply wp_bind_ret.
    apply wp_bind_assist_stays; [reflexivity | exact default_scales_ok |].
    intros pins _ _. apply wp_ret. reflexivity. }
  apply wp_elim in Hwp. destruct Hwp as (o & s1 & l1 & E & Ho). subst o.
  destruct (guard_releases (A := unit) (scripted spin_then_slack) 1 50 true
              (raise BackendError) s YieldInTry s1 l1 (Exc BackendError) s1 [] E)
    as (s' & l3 & H).
  - reflexivity.
  - discriminate.
  - discriminate.
  - exists YieldInTry, s1, l1, s', l3. split; [exact E | exact H].
Defined.

Section Segments.

Variable Sensor : Type.
Variable env : environment Sensor.

Local Open Scope lane_scope.

(** X18: a segment without assist never calls [assist], writes no pin and
    leaves the spool weight as it is, and it cannot hang; yet on its way out
    it lowers the exclusion flag of the follow controller, whether the
    segment was queued or the timing failed, and whoever had raised the
    flag. *)
Theorem unassisted_segment_only_clears_flag (fuel : nat) (distance speed accel : R)
    (s : lane Sensor) :
  assist_calls (events (_move env fuel distance speed accel false) s) = [] /\
  pin_writes (events (_move env fuel distance speed accel false) s) = [] /\
  remaining_weight (final (_move env fuel distance speed accel false) s)
    = remaining_weight s /\
  _wheel_follow_paused (final (_move env fuel distance speed accel false) s) = false /\
  outcome_of (_move env fuel distance speed accel false) s <> Diverge.
Proof.
  unfold events, final, outcome_of.
  unfold _move, with_assist_move, assist_move_enter, attempt, run_segment,
    assist_move_resume, assist_move_throw, assist_move_finally, reactor_pause,
    bind, emit, modify, get, lift, ret, raise.
  destruct (calc_move_time distance speed accel) as [[[[axis_r accel_t] cruise_t] cruise_v] | e];
    cbn; repeat split; discriminate.
Qed.

(** A loop over a segment limit that is not positive makes no progress. *)
Lemma move_loop_stuck inner direction speed accel assist_active :
  forall fuel move_total (s : lane Sensor),
    move_total > 0 -> max_move_dis (config s) <= 0 ->
    wp (move_loop env inner fuel move_total direction speed accel assist_active) s
       (fun o _ _ =>
          o <> Ret tt /\
          (assist_active = false -> 0 < speed -> 0 <= accel -> o = Diverge)).
Proof.
  induction fuel as [| fuel IH]; intros move_total s Ht Hmax.
  - apply wp_diverge. split; [discriminate | reflexivity].
  - cbn [move_loop].
    destruct (Rgt_dec move_total 0) as [_ | N]; [| contradiction].
    apply wp_bind_get.
    destruct (Rgt_dec move_total (max_move_dis (config s))) as [_ | N]; [| lra].
    eapply wp_seq.
    + apply wp_conj; [apply _move_spec |].
      assert (H : wp (_move env inner (max_move_dis (config s) * direction) speed accel
                        assist_active) s
                    (fun o _ _ =>
                       assist_active = false -> 0 < speed -> 0 <= accel -> o = Ret tt)).
      { destruct assist_active; [apply wp_intro; intros; discriminate |].
        destruct (Rlt_dec 0 speed) as [Hv |]; [| apply wp_intro; intros; contradiction].
        destruct (Rle_dec 0 accel) as [Ha |]; [| apply wp_intro; intros; contradiction].
        eapply wp_mono; [apply _move_unassisted_returns;
                         apply calc_move_time_returns; assumption |].
        intros o s' l H _ _ _. exact H. }
      exact H.
    + intros o s1 l1 [(Hfm & _) Hret]. destruct o as [[] | e |].
      * eapply wp_mono.
        -- apply IH; [lra |]. destruct Hfm as (Hc & _). rewrite Hc. assumption.
        -- intros o2 s2 l2 H. exact H.
      * split; [discriminate |]. intros Ha Hv Hacc.
        specialize (Hret Ha Hv Hacc). discriminate Hret.
      * split; [discriminate | reflexivity].
Qed.

(** X19: a segment limit that is not positive stalls every move of nonzero
    length: [move] never returns normally, and an unassisted move with a
    positive speed and a non-negative acceleration keeps queueing segments
    that bring it no closer, for as long as it is run. *)
Theorem move_stalls_without_limit (fuel : nat) (distance speed accel : R)
    (assist_active : bool) (s : lane Sensor) :
  distance <> 0 -> max_move_dis (config s) <= 0 ->
  outcome_of (move env fuel distance speed accel assist_active) s <> Ret tt /\
  (assist_active = false -> 0 < speed -> 0 <= accel ->
   outcome_of (move env fuel distance speed accel assist_active) s = Diverge).
Proof.
  intros Hd Hmax. unfold move.
  apply (move_loop_stuck fuel _ speed accel assist_active fuel (Rabs distance) s);
    [apply Rabs_pos_lt; assumption | assumption].
Qed.


End Segments.

Lemma move_stalls_without_limit_witness :
  let c := {| afc_motor_rwd := None; afc_motor_fwd := None; afc_motor_enb := None;
              load := None; n20_break_delay_time := 0.1; max_move_dis := 0;
              wheel_follow_pwm := 0.3; wheel_follow_min_rpm := 1;
              tension_baseline_min_rpm := 5; tension_drop_fraction := 0.75;
              tension_max_time := 10; filament_diameter := 1.75;
              filament_density := 1.24; inner_diameter := 100;
              empty_spool_weight := 190; max_motor_rpm := 500;
              rwd_speed_multi := 0.5; fwd_speed_multi := 0.5 |} in
  let s := lane_at_rest c None false false in
  outcome_of (move (scripted spin_then_slack) 7 10 500 400 false) s <> Ret tt /\
  (false = false -> 0 < 500 -> 0 <= 400 ->
   outcome_of (move (scripted spin_then_slack) 7 10 500 400 false) s = Diverge).
Proof.
  intros c s.
  apply (move_stalls_without_limit nat (scripted spin_then_slack) 7 10 500 400 false s).
  - lra.
  - cbn. lra.
Defined.

(** ** Motion segmenter: the split of a move *)

Section Split.

Variable Sensor : Type.
Variable env : environment Sensor.

Local Open Scope lane_scope.

(** *** Coming to an end *)













(** *** What is queued, whatever the outcome *)

Lemma move_loop_bounded inner direction speed accel assist_active :
  direction * direction = 1 ->
  forall fuel move_total (s : lane Sensor),
    0 < max_move_dis (config s) ->
    wp (move_loop env inner fuel move_total direction speed accel assist_active) s
       (fun _ _ l =>
          Forall (fun d => Rabs d <= max_move_dis (config s) /\ 0 < d * direction)
                 (segments l)).
Proof.
  intros Hdir.
  assert (Habs : Rabs direction = 1).
  { destruct (Rcase_abs direction) as [L | G].
    - rewrite Rabs_left by assumption. nra.
    - rewrite Rabs_right by assumption. nra. }
  induction fuel as [| fuel IH]; intros move_total s Hmax; cbn [move_loop].
  - apply wp_diverge. constructor.
  - destruct (Rgt_dec move_total 0) as [Hpos | _]; [| apply wp_ret; constructor].
    apply wp_bind_get.
    set (limit := max_move_dis (config s)) in *.
    set (mv := if Rgt_dec move_total limit then limit else move_total).
    assert (Hmv : 0 < mv <= limit) by (unfold mv; destruct (Rgt_dec move_total limit); lra).
    assert (Hfirst : Rabs (mv * direction) <= limit /\ 0 < mv * direction * direction).
    { split.
      - rewrite Rabs_mult, Habs, Rabs_right by lra. lra.
      - replace (mv * direction * direction) with (mv * (direction * direction)) by ring.
        rewrite Hdir. lra. }
    eapply wp_seq; [apply _move_spec |].
    intros o s1 l1 (F1 & G1 & _).
    assert (C1 : config s1 = config s) by apply F1.
    destruct o as [[] | e |].
    + apply (wp_mono _ _ _ _ _ (IH (move_total - mv) s1 ltac:(rewrite C1; exact Hmax))).
      intros o2 s2 l2 H2. rewrite segments_app, G1. cbn [app].
      constructor; [exact Hfirst | rewrite C1 in H2; exact H2].
    + rewrite G1. constructor; [exact Hfirst | constructor].
    + rewrite G1. constructor; [exact Hfirst | constructor].
Qed.


(** *** How a move ends when only the timing can fail *)





End Split.



(** ** The spool weight over a whole move *)

Lemma filament_mass_scale (c : lane_config) (x : R) :
  filament_mass c x = filament_mass c 1 * x.
Proof. unfold filament_mass. field. Qed.

Lemma filament_mass_unit_pos (c : lane_config) :
  0 <= filament_density c -> 0 <= filament_mass c 1.
Proof.
  intros Hrho. unfold filament_mass.
  pose proof PI_RGT_0 as Hpi. pose proof (pow2_ge_0 (filament_diameter c / 2)) as Hsq.
  assert (0 <= PI * (filament_diameter c / 2) ^ 2) by (apply Rmult_le_pos; lra).
  assert (0 <= PI * (filament_diameter c / 2) ^ 2 * 1 * filament_density c)
    by (apply Rmult_le_pos; lra).
  lra.
Qed.

Lemma filament_mass_sign (c : lane_config) (d : R) :
  0 <= filament_density c ->
  (0 <= d -> 0 <= filament_mass c d) /\ (d <= 0 -> filament_mass c d <= 0).
Proof.
  intros Hrho. pose proof (filament_mass_unit_pos c Hrho) as Hk.
  rewrite (filament_mass_scale c d). split; intros Hd; nra.
Qed.

Lemma fold_update_forward (c : lane_config) (segs : list R) :
  0 <= filament_density c -> Forall (fun d => 0 < d) segs ->
  forall w, fold_left (update_remaining_weight c) segs w <= Rmax w (empty_spool_weight c).
Proof.
  intros Hrho Hsegs.
  induction Hsegs as [| x segs Hx _ IH]; intros w; cbn [fold_left].
  - apply Rmax_l.
  - destruct (filament_mass_sign c x Hrho) as [Hm _]. specialize (Hm ltac:(lra)).
    eapply Rle_trans; [apply IH |].
    rewrite update_remaining_weight_max.
    apply Rmax_lub; [| apply Rmax_r].
    apply Rmax_lub; [apply Rmax_r |].
    eapply Rle_trans; [| apply Rmax_l]. lra.
Qed.

Lemma fold_update_rewind (c : lane_config) (segs : list R) :
  0 <= filament_density c -> Forall (fun d => d < 0) segs ->
  forall w, w <= fold_left (update_remaining_weight c) segs w.
Proof.
  intros Hrho Hsegs.
  induction Hsegs as [| x segs Hx _ IH]; intros w; cbn [fold_left].
  - lra.
  - destruct (filament_mass_sign c x Hrho) as [_ Hm]. specialize (Hm ltac:(lra)).
    eapply Rle_trans; [| apply IH].
    rewrite update_remaining_weight_max.
    eapply Rle_trans; [| apply Rmax_r]. lra.
Qed.

Section Weight.

Variable Sensor : Type.
Variable env : environment Sensor.

Lemma move_loop_unassisted_weight inner direction speed accel :
  forall fuel move_total (s : lane Sensor),
    wp (move_loop env inner fuel move_total direction speed accel false) s
       (fun _ s' _ => remaining_weight s' = remaining_weight s).
Proof.
  induction fuel as [| fuel IH]; intros move_total s; cbn [move_loop].
  - apply wp_diverge. reflexivity.
  - destruct (Rgt_dec move_total 0) as [Hpos | _]; [| apply wp_ret; reflexivity].
    apply wp_bind_get.
    eapply wp_seq; [apply _move_spec |].
    intros o s1 l1 (_ & _ & _ & W1 & _).
    destruct o as [[] | e |]; [| exact W1 | exact W1].
    apply (wp_mono _ _ _ _ _ (IH _ s1)).
    intros o2 s2 l2 W2. congruence.
Qed.

(** X21: the weight bookkeeping of a whole move, however it ends. An
    unassisted move leaves the remaining weight as it is. An assisted move
    leaves the weight obtained by applying [update_remaining_weight] once
    for each segment it queued, in order, with that segment's signed
    length; a move that fails at a segment has booked that segment. With a
    positive segment limit and a density that is not negative, an assisted
    feed never takes the weight above the larger of the weight before and
    the empty-spool weight, and an assisted rewind never lowers it. *)
Theorem move_books_each_segment (fuel : nat) (distance speed accel : R)
    (assist_active : bool) (s : lane Sensor) :
  let w := remaining_weight s in
  let w' := remaining_weight (final (move env fuel distance speed accel assist_active) s) in
  let queued := segments (events (move env fuel distance speed accel assist_active) s) in
  (assist_active = false -> w' = w) /\
  (assist_active = true ->
     w' = fold_left (update_remaining_weight (config s)) queued w /\
     (0 < max_move_dis (config s) -> 0 <= filament_density (config s) ->
        (0 < distance -> w' <= Rmax w (empty_spool_weight (config s))) /\
        (distance < 0 -> w <= w'))).
Proof.
  intros w w' queued. split.
  - intros ->. unfold w', w, move.
    exact (move_loop_unassisted_weight fuel _ speed accel fuel (Rabs distance) s).
  - intros ->.
    pose proof (move_loop_spec _ env fuel fuel (Rabs distance)
                  (if Rgt_dec distance 0 then 1 else -1) speed accel true s)
      as (_ & _ & Hfold & _).
    specialize (Hfold eq_refl).
    change (w' = fold_left (update_remaining_weight (config s)) queued w) in Hfold.
    split; [exact Hfold |].
    intros Hmax Hrho.
    assert (Hdir : (if Rgt_dec distance 0 then 1 else -1)
                   * (if Rgt_dec distance 0 then 1 else -1) = 1)
      by (destruct (Rgt_dec distance 0); ring).
    pose proof (move_loop_bounded _ env fuel _ speed accel true Hdir
                  fuel (Rabs distance) s Hmax) as Hb.
    change (Forall (fun d => Rabs d <= max_move_dis (config s) /\
                             0 < d * (if Rgt_dec distance 0 then 1 else -1)) queued) in Hb.
    rewrite Hfold. split; intros Hd.
    + apply fold_update_forward; [exact Hrho |].
      apply Forall_impl with (2 := Hb). intros d [_ Hs].
      destruct (Rgt_dec distance 0) as [_ | N]; lra.
    + apply fold_update_rewind; [exact Hrho |].
      apply Forall_impl with (2 := Hb). intros d [_ Hs].
      destruct (Rgt_dec distance 0) as [G | _]; lra.
Qed.

End Weight.

(** ** What a move and the load retry report *)

Section Reports.

Variable Sensor : Type.
Variable env : environment Sensor.

Local Open Scope lane_scope.

Lemma eo_ret {A : Type} f (a : A) : emits_only f (@ret Sensor A a).
Proof. intros s. apply wp_ret. reflexivity. Qed.

Lemma eo_raise {A : Type} f (e : exn) : emits_only f (@raise Sensor A e).
Proof. intros s. apply wp_raise. reflexivity. Qed.

Lemma eo_diverge {A : Type} f : emits_only f (@diverge Sensor A).
Proof. intros s. apply wp_diverge. reflexivity. Qed.

Lemma eo_modify f (g : lane Sensor -> lane Sensor) : emits_only f (modify g).
Proof. intros s. apply wp_modify. reflexivity. Qed.

Lemma eo_lift {A : Type} f (r : result A) : emits_only f (@lift Sensor A r).
Proof. intros s. apply wp_lift. destruct r; reflexivity. Qed.

Lemma eo_emit f (e : event) : f e = true -> emits_only f (@emit Sensor e).
Proof. intros H s. apply wp_emit. cbn. rewrite H. reflexivity. Qed.

Lemma eo_bind {A B : Type} f (m : M Sensor A) (k : A -> M Sensor B) :
  emits_only f m -> (forall a, emits_only f (k a)) -> emits_only f (bind m k).
Proof.
  intros Hm Hk s. eapply wp_seq; [apply Hm |].
  intros o s1 l1 H1. destruct o as [a | e |]; [| exact H1 | exact H1].
  eapply wp_mono; [apply Hk |].
  intros o2 s2 l2 H2. rewrite forallb_app, H1, H2. reflexivity.
Qed.

Lemma eo_bind_get {B : Type} f (k : lane Sensor -> M Sensor B) :
  (forall s0, emits_only f (k s0)) -> emits_only f (bind get k).
Proof. intros H s. apply wp_bind_get. apply H. Qed.

Lemma eo_attempt {A : Type} f (m : M Sensor A) :
  emits_only f m -> emits_only f (attempt m).
Proof.
  intros H s. apply wp_attempt. eapply wp_mono; [apply H |].
  intros o s' l Hl. destruct o; exact Hl.
Qed.

Lemma eo_motor_only {A : Type} (m : M Sensor A) :
  motor_only env m -> emits_only motion_event m.
Proof.
  intros H s. eapply wp_mono; [apply H |].
  intros o s' l [_ Hl]. clear - Hl.
  induction l as [| e l IH]; [reflexivity |].
  cbn [forallb] in *. apply andb_prop in Hl. destruct Hl as [He Hl].
  rewrite (IH Hl). destruct e; try discriminate He; reflexivity.
Qed.

Lemma eo_move_segment fuel distance speed accel assist_active :
  emits_only motion_event (_move env fuel distance speed accel assist_active).
Proof.
  unfold _move.
  apply eo_bind; [apply eo_emit; reflexivity |]. intros _.
  apply eo_bind; [destruct assist_active; [apply eo_modify | apply eo_ret] |]. intros _.
  unfold with_assist_move.
  set (rewind := if Rlt_dec distance 0 then true else false). clearbody rewind.
  assert (Hfinally : emits_only motion_event (assist_move_finally env rewind assist_active)).
  { unfold assist_move_finally. apply eo_bind_get. intros s0.
    apply eo_bind.
    - destruct (assist_active && negb (rewind && bound (wheel_sensor s0)));
        [apply eo_motor_only, motor_only_assist | apply eo_ret].
    - intros _. apply eo_bind; [apply eo_modify |]. intros _.
      apply eo_emit. reflexivity. }
  apply eo_bind.
  { unfold assist_move_enter. destruct assist_active; [| apply eo_ret].
    apply eo_bind; [apply eo_modify |]. intros _.
    apply eo_bind; [apply eo_emit; reflexivity |]. intros _.
    apply eo_bind_get. intros s0.
    destruct (rewind && bound (wheel_sensor s0)).
    - apply eo_bind; [apply eo_motor_only, motor_only_rewind_until_tension |].
      intros _. apply eo_ret.
    - apply eo_bind.
      + destruct rewind.
        * apply eo_bind; [apply eo_motor_only, (motor_only_lane_pwm_value _ env) |].
          intros v. apply eo_ret.
        * apply eo_motor_only, (motor_only_lane_pwm_value _ env).
      + intros v. apply eo_bind; [apply eo_motor_only, motor_only_assist |].
        intros _. apply eo_ret. }
  intros y. apply eo_bind.
  { apply eo_attempt. unfold run_segment.
    apply eo_bind; [apply eo_lift |]. intros [[[axis_r accel_t] cruise_t] cruise_v].
    apply eo_bind; [apply eo_emit; reflexivity |]. intros _.
    apply eo_bind; [apply eo_emit; reflexivity |]. intros _.
    apply eo_modify. }
  intros r. destruct r as [a | e].
  - apply eo_bind; [| intros _; apply eo_ret].
    unfold assist_move_resume. destruct y; [| exact Hfinally].
    apply eo_bind; [apply eo_modify |]. intros _. apply eo_emit. reflexivity.
  - unfold assist_move_throw. destruct y; [apply eo_raise |].
    apply eo_bind; [exact Hfinally |]. intros _. apply eo_raise.
Qed.

Lemma eo_move_loop inner fuel move_total direction speed accel assist_active :
  emits_only motion_event
    (move_loop env inner fuel move_total direction speed accel assist_active).
Proof.
  revert move_total. induction fuel as [| fuel IH]; intros move_total;
    [apply eo_diverge |].
  cbn [move_loop].
  destruct (Rgt_dec move_total 0); [| apply eo_ret].
  apply eo_bind_get. intros s0.
  apply eo_bind; [apply eo_move_segment |]. intros _. apply IH.
Qed.

Lemma fault_reports_app (l1 l2 : list event) :
  fault_reports (l1 ++ l2) = (fault_reports l1 + fault_reports l2)%nat.
Proof.
  induction l1 as [| e l1 IH]; [reflexivity |].
  destruct e; cbn [app fault_reports]; rewrite IH; reflexivity.
Qed.

Lemma motion_reports_nothing (l : list event) :
  forallb motion_event l = true -> fault_reports l = O /\ retries l = O.
Proof.
  induction l as [| e l IH]; [split; reflexivity |].
  cbn [forallb]. intros H. apply andb_prop in H. destruct H as [He Hl].
  destruct (IH Hl) as [Hf Hr].
  destruct e; try discriminate He; cbn [fault_reports retries]; split; assumption.
Qed.

(** X22: a move reports nothing on its own account. Whatever its length,
    mode and outcome, [move] issues no error message, does not touch the
    fault LED and does not enable or disable the stepper: its events are
    motor commands, log lines, the exclusion flag and the segments. *)
Theorem move_reports_nothing (fuel : nat) (distance speed accel : R)
    (assist_active : bool) (s : lane Sensor) :
  forallb motion_event (events (move env fuel distance speed accel assist_active) s) = true /\
  fault_reports (events (move env fuel distance speed accel assist_active) s) = O /\
  retries (events (move env fuel distance speed accel assist_active) s) = O.
Proof.
  assert (H : forallb motion_event
                (events (move env fuel distance speed accel assist_active) s) = true).
  { unfold move. apply (eo_move_loop fuel fuel _ _ speed accel assist_active s). }
  split; [exact H | apply motion_reports_nothing; exact H].
Qed.

Lemma load_retry_loop_reports inner :
  forall fuel (x : Z) (s : lane Sensor),
    (x <= 40)%Z ->
    wp (load_retry_loop env inner fuel x) s
       (fun o _ l =>
          forall x', o = Ret x' ->
            fault_reports l = (if (x' <? 41)%Z then 0 else 2)%nat).
Proof.
  induction fuel as [| fuel IH]; intros x s Hx.
  - apply wp_diverge. discriminate.
  - cbn [load_retry_loop]. apply wp_bind_get.
    destruct (negb (load_state s) && prep_state s && bound (load (config s))).
    2: { apply wp_ret. intros x' E. inversion E. subst x'.
         destruct (Z.ltb_spec x 41); [reflexivity | lia]. }
    unfold do_enable. apply wp_bind_emit.
    eapply wp_seq; [apply (eo_move_loop inner inner (Rabs 10) _ 500 400 false s) |].
    intros o s1 l1 Hl1. destruct (motion_reports_nothing l1 Hl1) as [Hf1 _].
    destruct o as [[] | e |]; [| discriminate | discriminate].
    apply wp_bind_pause.
    destruct (40 <? x + 1)%Z eqn:Ecap.
    + apply wp_bind_emit. apply wp_bind_emit. apply wp_bind_modify. apply wp_ret.
      intros x' E. inversion E. subst x'.
      apply Z.ltb_lt in Ecap.
      destruct (Z.ltb_spec (x + 1) 41); [lia |].
      cbn [fault_reports]. rewrite fault_reports_app, Hf1. reflexivity.
    + apply Z.ltb_ge in Ecap.
      eapply wp_mono; [apply IH; lia |].
      intros o2 s2 l2 H x' E. specialize (H x' E).
      cbn [fault_reports]. rewrite fault_reports_app, Hf1. exact H.
Qed.

Lemma load_retry_faults (fuel : nat) (s : lane Sensor) :
  wp (load_retry env fuel) s
     (fun o _ l =>
        forall x', o = Ret x' ->
          fault_reports l = (if (x' <? 41)%Z then 0 else 2)%nat).
Proof.
  unfold load_retry.
  eapply wp_seq; [apply (load_retry_loop_reports fuel fuel 0 s); lia |].
  intros o s1 l1 H1. destruct o as [x1 | e |]; [| discriminate | discriminate].
  apply wp_bind_modify. apply wp_ret.
  intros x' Ex. inversion Ex. subst x'. rewrite !app_nil_r. apply H1. reflexivity.
Qed.

Lemma error_messages_app (l1 l2 : list event) :
  error_messages (l1 ++ l2) = error_messages l1 ++ error_messages l2.
Proof.
  induction l1 as [| e l1 IH]; [reflexivity |].
  destruct e; cbn [app error_messages]; rewrite IH; reflexivity.
Qed.

Lemma led_faults_app (l1 l2 : list event) :
  led_faults (l1 ++ l2) = (led_faults l1 + led_faults l2)%nat.
Proof.
  induction l1 as [| e l1 IH]; [reflexivity |].
  destruct e; cbn [app led_faults]; rewrite IH; reflexivity.
Qed.

Lemma motion_reports_neither (l : list event) :
  forallb motion_event l = true -> error_messages l = [] /\ led_faults l = O.
Proof.
  induction l as [| e l IH]; [split; reflexivity |].
  cbn [forallb]. intros H. apply andb_prop in H. destruct H as [He Hl].
  destruct (IH Hl) as [Hm Hd].
  destruct e; try discriminate He; cbn [error_messages led_faults]; split; assumption.
Qed.

Lemma load_retry_loop_reports_each inner :
  forall fuel (x : Z) (s : lane Sensor),
    (x <= 40)%Z ->
    wp (load_retry_loop env inner fuel x) s
       (fun o _ l => forall x', o = Ret x' -> retry_reported x' l).
Proof.
  induction fuel as [| fuel IH]; intros x s Hx.
  - apply wp_diverge. discriminate.
  - cbn [load_retry_loop]. apply wp_bind_get.
    destruct (negb (load_state s) && prep_state s && bound (load (config s))).
    2: { apply wp_ret. intros x' E. inversion E. subst x'. unfold retry_reported.
         destruct (Z.ltb_spec x 41); [split; reflexivity | lia]. }
    unfold do_enable. apply wp_bind_emit.
    eapply wp_seq; [apply (eo_move_loop inner inner (Rabs 10) _ 500 400 false s) |].
    intros o s1 l1 Hl1. destruct (motion_reports_neither l1 Hl1) as [Hm1 Hd1].
    destruct o as [[] | e |]; [| discriminate | discriminate].
    apply wp_bind_pause.
    destruct (40 <? x + 1)%Z eqn:Ecap.
    + apply wp_bind_emit. apply wp_bind_emit. apply wp_bind_modify. apply wp_ret.
      intros x' E. inversion E. subst x'.
      apply Z.ltb_lt in Ecap. unfold retry_reported.
      destruct (Z.ltb_spec (x + 1) 41); [lia |].
      cbn [error_messages led_faults].
      rewrite error_messages_app, led_faults_app, Hm1, Hd1. split; reflexivity.
    + apply Z.ltb_ge in Ecap.
      eapply wp_mono; [apply IH; lia |].
      intros o2 s2 l2 H x' E. specialize (H x' E). unfold retry_reported in *.
      cbn [error_messages led_faults].
      rewrite error_messages_app, led_faults_app, Hm1, Hd1. exact H.
Qed.

Lemma load_retry_reports_each (fuel : nat) (s : lane Sensor) :
  wp (load_retry env fuel) s
     (fun o _ l => forall x', o = Ret x' -> retry_reported x' l).
Proof.
  unfold load_retry.
  eapply wp_seq; [apply (load_retry_loop_reports_each fuel fuel 0 s); lia |].
  intros o s1 l1 H1. destruct o as [x1 | e |]; [| discriminate | discriminate].
  apply wp_bind_modify. apply wp_ret.
  intros x' Ex. inversion Ex. subst x'. rewrite !app_nil_r. apply H1. reflexivity.
Qed.

(** X23: the load retry reports a failure exactly once, and a success not
    at all. On a lane whose segment limit is at least 0.001 mm the retry
    returns its count [x] of attempts; when the loop stopped before the cap
    ([x < 41]: the load sensor triggered, or prep was released) no error
    message was reported and the fault LED was not set, and when it gave
    up ([x = 41]) exactly one error message was reported, the
    failed-to-load message without a pause of the print, and the fault LED
    was set exactly once. *)
Theorem load_retry_reports_once (s : lane Sensor) :
  1 / 1000 <= max_move_dis (config s) ->
  exists n, forall fuel, (n <= fuel)%nat ->
    exists x s' l,
      load_retry env fuel s = (Ret x, s', l) /\
      Z.of_nat (retries l) = x /\
      ((x < 41)%Z ->
         error_messages l = [] /\ led_faults l = O /\ retry_wanted s' = false) /\
      (x = 41%Z ->
         error_messages l = [(MsgFailedToLoad, false)] /\ led_faults l = 1%nat).
Proof.
  intros Hmax.
  destruct (load_retry_run Sensor env s ltac:(lra)) as (n & Hn).
  exists n. intros fuel Hfuel.
  destruct (Hn fuel Hfuel) as (x & s' & l & E & Hx & Hr & _ & _ & _ & Hw & _).
  exists x, s', l. split; [exact E |]. split; [exact Hr |].
  pose proof (load_retry_reports_each fuel s) as Hrep.
  pose proof (wp_run _ _ _ _ _ _ _ E Hrep x eq_refl) as [Hm Hd].
  split.
  - intros Hlt. rewrite Hm, Hd.
    destruct (Z.ltb_spec x 41); [| lia].
    split; [reflexivity |]. split; [reflexivity | apply Hw; exact Hlt].
  - intros ->. rewrite Hm, Hd. split; reflexivity.
Qed.

End Reports.

Lemma load_retry_reports_once_witness :
  let s := lane_at_rest default_config None true false in
  exists n, forall fuel, (n <= fuel)%nat ->
    exists x s' l,
      load_retry (scripted spin_then_silence) fuel s = (Ret x, s', l) /\
      Z.of_nat (retries l) = x /\
      ((x < 41)%Z ->
         error_messages l = [] /\ led_faults l = O /\ retry_wanted s' = false) /\
      (x = 41%Z ->
         error_messages l = [(MsgFailedToLoad, false)] /\ led_faults l = 1%nat).
Proof.
  intros s.
  apply (load_retry_reports_once nat (scripted spin_then_silence) s).
  cbn. lra.
Defined.

(** ** Lane state machine: the load retry, iteration by iteration *)

Section Attempts.

Variable Sensor : Type.
Variable env : environment Sensor.

Local Open Scope lane_scope.

Lemma set_status_twice (v : option string) (s : lane Sensor) :
  set_status v (set_status v s) = set_status v s.
Proof. reflexivity. Qed.

Lemma load_attempt_run inner (s s1 : lane Sensor) l1 :
  move env inner 10 500 400 false s = (Ret tt, s1, l1) ->
  load_attempt env inner s =
    (Ret tt, suspended_until env (Rmax (monotonic s1) (monotonic s1 + 0.1)) s1,
     MotorEnable true :: l1).
Proof.
  intros E.
  cbv beta iota delta [load_attempt bind do_enable emit reactor_pause modify].
  rewrite E. cbn [app]. rewrite app_nil_r. reflexivity.
Qed.

Lemma load_attempts_succ inner (n : nat) (s s2 s3 : lane Sensor) l2 l3 :
  load_attempt env inner s = (Ret tt, s2, l2) ->
  load_attempts env inner n s2 = (Ret tt, s3, l3) ->
  load_attempts env inner (S n) s = (Ret tt, s3, l2 ++ l3).
Proof.
  intros E2 E3. cbn [load_attempts]. unfold bind. rewrite E2, E3. reflexivity.
Qed.

Lemma load_attempts_final_succ inner (n : nat) (s s2 : lane Sensor) l2 :
  load_attempt env inner s = (Ret tt, s2, l2) ->
  final (load_attempts env inner (S n)) s = final (load_attempts env inner n) s2.
Proof.
  intros E2. unfold final. cbn [load_attempts]. unfold bind. rewrite E2.
  destruct (load_attempts env inner n s2) as [[o s3] l3]. reflexivity.
Qed.

Lemma load_retry_loop_step inner fuel (x : Z) (s s1 : lane Sensor) l1 :
  retry_wanted s = true ->
  move env inner 10 500 400 false s = (Ret tt, s1, l1) ->
  load_retry_loop env inner (S fuel) x s =
    let s2 := suspended_until env (Rmax (monotonic s1) (monotonic s1 + 0.1)) s1 in
    if (40 <? x + 1)%Z
    then (Ret (x + 1)%Z, set_status (Some EmptyString) s2,
          MotorEnable true :: l1 ++ [AfcError MsgFailedToLoad false; LedFault])
    else let '(o, s3, l3) := load_retry_loop env inner fuel (x + 1) s2 in
         (o, s3, MotorEnable true :: l1 ++ l3).
Proof.
  intros Hw E. unfold retry_wanted in Hw.
  cbn [load_retry_loop].
  cbv beta iota delta [bind get do_enable emit reactor_pause modify ret].
  rewrite Hw, E. cbv zeta.
  destruct (40 <? x + 1)%Z.
  - cbn [app]. reflexivity.
  - destruct (load_retry_loop env inner fuel (x + 1) _) as [[o s3] l3].
    cbn [app]. reflexivity.
Qed.

Lemma load_retry_loop_stop inner fuel (x : Z) (s : lane Sensor) :
  retry_wanted s = false ->
  load_retry_loop env inner (S fuel) x s = (Ret x, s, []).
Proof.
  intros Hw. unfold retry_wanted in Hw.
  cbn [load_retry_loop]. unfold bind, get. rewrite Hw. reflexivity.
Qed.

(** The loop from counter [x] is [x' - x] iterations, each entered with the
    loop condition true, and then the report if the cap was reached. *)
Lemma load_retry_loop_attempts (c : lane_config) (n : nat) :
  0 < max_move_dis c -> 10 <= INR n * max_move_dis c ->
  forall (k fuel inner : nat) (x : Z) (s : lane Sensor),
    config s = c -> (n < inner)%nat -> (k < fuel)%nat ->
    (0 <= x <= 40)%Z -> (41 - x <= Z.of_nat k)%Z ->
    exists x' s_end l_att,
      ((x < x')%Z \/ retry_wanted s = false) /\ (x <= x' <= 41)%Z /\
      load_attempts env inner (Z.to_nat (x' - x)) s = (Ret tt, s_end, l_att) /\
      load_retry_loop env inner fuel x s =
        (Ret x',
         (if (x' =? 41)%Z then set_status (Some EmptyString) s_end else s_end),
         l_att ++ (if (x' =? 41)%Z
                   then [AfcError MsgFailedToLoad false; LedFault] else [])) /\
      (forall i, (Z.of_nat i < x' - x)%Z ->
                 retry_wanted (final (load_attempts env inner i) s) = true) /\
      ((x' < 41)%Z -> retry_wanted s_end = false).
Proof.
  intros Hmax Hn.
  induction k as [| k IH]; intros fuel inner x s Hc Hin Hfuel Hx Hk; [lia |].
  destruct fuel as [| fuel]; [lia |].
  destruct (retry_wanted s) eqn:Hw.
  - destruct (wp_elim _ _ _ _
                (move_unassisted_spec _ env inner n 10 500 400 s
                   ltac:(lra) ltac:(lra)
                   ltac:(rewrite Hc; exact Hmax)
                   ltac:(rewrite Hc, Rabs_right by lra; exact Hn) Hin))
      as (o & s1 & l1 & E & Ho & F1 & _).
    subst o.
    set (s2 := suspended_until env (Rmax (monotonic s1) (monotonic s1 + 0.1)) s1).
    assert (C2 : config s2 = c) by (destruct F1 as (C & _); cbn; congruence).
    pose proof (load_attempt_run inner s s1 l1 E) as Ea. fold s2 in Ea.
    rewrite (load_retry_loop_step inner fuel x s s1 l1 Hw E). cbv zeta. fold s2.
    destruct (40 <? x + 1)%Z eqn:Hcap.
    + apply Z.ltb_lt in Hcap. assert (Ex : x = 40%Z) by lia. subst x.
      exists 41%Z, s2, (MotorEnable true :: l1).
      split; [left; lia |]. split; [lia |]. split.
      { change (Z.to_nat (41 - 40)) with 1%nat.
        rewrite (load_attempts_succ inner 0 s s2 s2 _ [] Ea eq_refl).
        rewrite app_nil_r. reflexivity. }
      split; [reflexivity |]. split.
      * intros i Hi. assert (i = O) by lia. subst i. exact Hw.
      * intros; lia.
    + apply Z.ltb_ge in Hcap.
      destruct (IH fuel inner (x + 1)%Z s2 C2 Hin ltac:(lia) ltac:(lia) ltac:(lia))
        as (x' & s_end & l_att & _ & Hb & Eatt & Eloop & Hall & Hlt).
      rewrite Eloop.
      exists x', s_end, (MotorEnable true :: l1 ++ l_att).
      split; [left; lia |]. split; [lia |]. split.
      { replace (Z.to_nat (x' - x)) with (S (Z.to_nat (x' - (x + 1)))) by lia.
        rewrite (load_attempts_succ inner _ s s2 s_end _ l_att Ea Eatt).
        reflexivity. }
      split.
      { cbn [app]. rewrite app_assoc. reflexivity. }
      split; [| exact Hlt].
      intros i Hi. destruct i as [| i]; [exact Hw |].
      rewrite (load_attempts_final_succ inner i s s2 _ Ea).
      apply Hall. lia.
  - rewrite (load_retry_loop_stop inner fuel x s Hw).
    exists x, s, []. split; [right; reflexivity |]. split; [lia |].
    rewrite Z.sub_diag. split; [reflexivity |].
    destruct (Z.eqb_spec x 41); [lia |].
    split; [reflexivity |]. split; [intros; lia | intros _; exact Hw].
Qed.

(** C9, amended: on a lane whose segment limit is at least 0.001 mm the
    load retry returns after [x] iterations, at most 41. Each iteration is
    entered with the loop condition true (load not triggered, prep
    triggered, a load pin configured) and is: enable the stepper, move
    10 mm at 500 mm/s and 400 mm/s^2 unassisted, pause 0.1 s. The counter
    is tested after the pause: the 41st iteration ends the loop whatever
    the sensors read by then, with the failed-to-load error (reported
    without pausing) and the fault LED; a loop that ends earlier has found
    its condition false and reports nothing. In both cases the lane status
    is the empty string afterwards. When no edge is delivered and the loop
    is entered, it runs all 41 iterations. *)
Theorem load_retry_bounded (s : lane Sensor) :
  1 / 1000 <= max_move_dis (config s) ->
  exists n, forall fuel, (n <= fuel)%nat ->
    exists x s' l,
      load_retry env fuel s = (Ret x, s', l) /\
      (0 <= x <= 41)%Z /\
      Z.of_nat (retries l) = x /\
      (exists s_end l_att,
         load_attempts env fuel (Z.to_nat x) s = (Ret tt, s_end, l_att) /\
         l = l_att ++ (if (x =? 41)%Z
                       then [AfcError MsgFailedToLoad false; LedFault] else []) /\
         s' = set_status (Some EmptyString) s_end) /\
      (forall i, (Z.of_nat i < x)%Z ->
                 retry_wanted (final (load_attempts env fuel i) s) = true) /\
      ((x < 41)%Z -> retry_wanted s' = false) /\
      status s' = Some EmptyString /\
      error_messages l = (if (x <? 41)%Z then [] else [(MsgFailedToLoad, false)]) /\
      led_faults l = (if (x <? 41)%Z then 0 else 1)%nat /\
      ((forall t levels, edges env t levels = levels) ->
       retry_wanted s = true -> x = 41%Z).
Proof.
  intros Hmin.
  assert (Hmax : 0 < max_move_dis (config s)) by lra.
  destruct (load_retry_run Sensor env s Hmax) as (n0 & Hn0).
  destruct (cover_by_segments (max_move_dis (config s)) 10 Hmax) as [n Hn].
  exists (Nat.max n0 (S n + 42)). intros fuel Hfuel.
  destruct (Hn0 fuel ltac:(lia)) as (x & s' & l & E & Hx & Hr & _ & Hs & _ & Hw & Hne).
  destruct (load_retry_loop_attempts (config s) n Hmax Hn 41 fuel fuel 0 s eq_refl
              ltac:(lia) ltac:(lia) ltac:(lia) ltac:(lia))
    as (x' & s_end & l_att & _ & Hb & Eatt & Eloop & Hall & Hlt).
  assert (E' : load_retry env fuel s =
               (Ret x', set_status (Some EmptyString) s_end,
                l_att ++ (if (x' =? 41)%Z
                          then [AfcError MsgFailedToLoad false; LedFault] else []))).
  { unfold load_retry, bind at 1. rewrite Eloop.
    unfold bind, modify, ret. cbn [app]. rewrite app_nil_r.
    destruct (x' =? 41)%Z; [rewrite set_status_twice |]; reflexivity. }
  rewrite E' in E. inversion E. subst x' s' l. clear E.
  rewrite Z.sub_0_r in Eatt, Hall.
  exists x, (set_status (Some EmptyString) s_end),
    (l_att ++ (if (x =? 41)%Z
               then [AfcError MsgFailedToLoad false; LedFault] else [])).
  pose proof (wp_run _ _ _ _ _ _ _ E' (load_retry_reports_each Sensor env fuel s)
                x eq_refl) as [Hm Hd].
  split; [exact E' |]. split; [exact Hx |]. split; [exact Hr |].
  split; [exists s_end, l_att; repeat split; exact Eatt |].
  split; [exact Hall |]. split; [exact Hw |]. split; [exact Hs |].
  split; [exact Hm |]. split; [exact Hd | exact Hne].
Qed.

End Attempts.

Lemma load_retry_bounded_witness :
  let s := lane_at_rest default_config None true false in
  1 / 1000 <= max_move_dis (config s) /\
  exists n, forall fuel, (n <= fuel)%nat ->
    exists x s' l,
      load_retry (scripted spin_then_silence) fuel s = (Ret x, s', l) /\
      (0 <= x <= 41)%Z /\
      Z.of_nat (retries l) = x /\
      (exists s_end l_att,
         load_attempts (scripted spin_then_silence) fuel (Z.to_nat x) s
           = (Ret tt, s_end, l_att) /\
         l = l_att ++ (if (x =? 41)%Z
                       then [AfcError MsgFailedToLoad false; LedFault] else []) /\
         s' = set_status (Some EmptyString) s_end) /\
      (forall i, (Z.of_nat i < x)%Z ->
                 retry_wanted
                   (final (load_attempts (scripted spin_then_silence) fuel i) s) = true) /\
      ((x < 41)%Z -> retry_wanted s' = false) /\
      status s' = Some EmptyString /\
      error_messages l = (if (x <? 41)%Z then [] else [(MsgFailedToLoad, false)]) /\
      led_faults l = (if (x <? 41)%Z then 0 else 1)%nat /\
      ((forall t levels, edges (scripted spin_then_silence) t levels = levels) ->
       retry_wanted s = true -> x = 41%Z).
Proof.
  intros s.
  assert (Hmin : 1 / 1000 <= max_move_dis (config s)) by (cbn; lra).
  split; [exact Hmin |].
  apply (load_retry_bounded nat (scripted spin_then_silence) s Hmin).
Defined.

(** ** The wheel sensor from its construction on *)

(** X24: a wheel sensor that the constructor accepted never fails. Its
    [pulses_per_rev] is at least 0.1, and through any sequence of edge
    callbacks and reads every read returns a pair of identical components,
    [(None, None)] or a rate that is not negative: no read divides by
    zero. *)
Theorem constructed_sensor_never_fails (pulses_per_rev : option R) (pin : option string)
    (now : R) (s : WheelSensor.sensor) (calls : list sensor_call) :
  wheel_sensor_init pulses_per_rev pin now = Some s ->
  0.1 <= WheelSensor.pulses_per_rev s /\
  WheelSensor._pulse_count s = 0%Z /\
  Forall (fun r => exists rpm, r = Ok (rpm, rpm) /\
                     match rpm with Some v => 0 <= v | None => True end)
         (fst (sensor_calls calls s)) /\
  WheelSensor.pulses_per_rev (snd (sensor_calls calls s)) = WheelSensor.pulses_per_rev s.
Proof.
  intros Hinit.
  assert (Hs : 0.1 <= WheelSensor.pulses_per_rev s /\ WheelSensor._pulse_count s = 0%Z).
  { unfold wheel_sensor_init in Hinit.
    destruct pulses_per_rev as [v |].
    - destruct (Rlt_dec v 0.1) as [L | G]; [discriminate |].
      destruct pin; [| discriminate]. inversion Hinit. cbn. split; [lra | reflexivity].
    - destruct pin; [| discriminate]. inversion Hinit. cbn. split; [lra | reflexivity]. }
  destruct Hs as [Hppr Hcount]. split; [exact Hppr |]. split; [exact Hcount |].
  assert (Hinv : 0.1 <= WheelSensor.pulses_per_rev s /\ (0 <= WheelSensor._pulse_count s)%Z)
    by (split; [exact Hppr | lia]).
  clear Hinit Hppr Hcount. revert s Hinv.
  induction calls as [| call calls IH]; intros s [Hppr Hcount].
  - cbn. split; [constructor | reflexivity].
  - assert (Hpos : 0 < WheelSensor.pulses_per_rev s) by lra.
    destruct call as [eventtime state | now'].
    + cbn [sensor_calls].
      destruct (sensor_step_sound 0 s Hpos Hcount) as (_ & _ & _ & _ & He).
      destruct (IH (WheelSensor._edge_callback eventtime state s)) as [HF Hp];
        [split; [exact Hppr | apply He] |].
      split; [exact HF | exact Hp].
    + cbn [sensor_calls].
      destruct (sensor_step_sound now' s Hpos Hcount) as (_ & Hr & Hc1 & Hp1 & _).
      destruct (WheelSensor.get_rpm now' s) as [r s1]. cbn [fst snd] in *.
      destruct (IH s1) as [HF Hp]; [split; [rewrite Hp1; exact Hppr | exact Hc1] |].
      destruct (sensor_calls calls s1) as [rs s2]. cbn [fst snd] in *.
      split; [| rewrite Hp; exact Hp1].
      constructor; [exact Hr | exact HF].
Qed.

Lemma constructed_sensor_never_fails_witness :
  exists s,
    wheel_sensor_init None (Some "PA1"%string) 0 = Some s /\
    0.1 <= WheelSensor.pulses_per_rev s /\
    WheelSensor._pulse_count s = 0%Z /\
    Forall (fun r => exists rpm, r = Ok (rpm, rpm) /\
                       match rpm with Some v => 0 <= v | None => True end)
           (fst (sensor_calls [EdgeCallback 0.1 true; GetRpm 1; GetRpm 1] s)) /\
    WheelSensor.pulses_per_rev
      (snd (sensor_calls [EdgeCallback 0.1 true; GetRpm 1; GetRpm 1] s))
      = WheelSensor.pulses_per_rev s.
Proof.
  eexists. split; [reflexivity |].
  apply (constructed_sensor_never_fails None (Some "PA1"%string) 0 _
           [EdgeCallback 0.1 true; GetRpm 1; GetRpm 1]).
  reflexivity.
Defined.

(** ** The speed multiplier command *)

Lemma get_float_bounds (p : parameter) (default minval maxval v : R) :
  get_float p default minval maxval = inr v ->
  (p = Absent /\ v = default) \/ (p = Given v /\ minval <= v <= maxval).
Proof.
  destruct p as [| | w]; cbn [get_float].
  - intros H. inversion H. left. split; reflexivity.
  - discriminate.
  - destruct (Rlt_dec w minval); [discriminate |].
    destruct (Rgt_dec w maxval); [discriminate |].
    intros H. inversion H. subst. right. split; [reflexivity | lra].
Qed.

(** X25: when [SET_SPEED_MULTIPLIER] succeeds, a multiplier that was given
    lies in [[0, 1]] and is the new value, and one that was left out is
    unchanged; nothing else of the configuration changes, so a well-formed
    spool configuration stays well-formed (the duty mapping stays defined)
    and multipliers within [[0, 1]] stay within; and the command logs
    nothing exactly when neither multiplier changed. *)
Theorem speed_multiplier_set (FWD RWD : parameter) (c c' : lane_config)
    (logs : list multiplier_log) :
  cmd_SET_SPEED_MULTIPLIER FWD RWD c = (None, c', logs) ->
  ((FWD = Absent /\ fwd_speed_multi c' = fwd_speed_multi c) \/
   (FWD = Given (fwd_speed_multi c') /\ 0 <= fwd_speed_multi c' <= 1)) /\
  ((RWD = Absent /\ rwd_speed_multi c' = rwd_speed_multi c) \/
   (RWD = Given (rwd_speed_multi c') /\ 0 <= rwd_speed_multi c' <= 1)) /\
  c' = set_rwd_speed_multi (rwd_speed_multi c')
         (set_fwd_speed_multi (fwd_speed_multi c') c) /\
  (spool_ok c -> spool_ok c') /\
  (0 <= fwd_speed_multi c <= 1 -> 0 <= rwd_speed_multi c <= 1 ->
   0 <= fwd_speed_multi c' <= 1 /\ 0 <= rwd_speed_multi c' <= 1) /\
  (logs = [] <->
   fwd_speed_multi c' = fwd_speed_multi c /\ rwd_speed_multi c' = rwd_speed_multi c).
Proof.
  unfold cmd_SET_SPEED_MULTIPLIER.
  destruct (get_float FWD (fwd_speed_multi c) 0 1) as [e | fwd] eqn:Ef; [discriminate |].
  cbn [rwd_speed_multi set_fwd_speed_multi].
  destruct (get_float RWD (rwd_speed_multi c) 0 1) as [e | rwd] eqn:Er; [discriminate |].
  cbn [rwd_speed_multi fwd_speed_multi set_fwd_speed_multi set_rwd_speed_multi].
  intros H. inversion H as [[Hc Hl]]. clear H. unfold spool_ok.
  cbn [rwd_speed_multi fwd_speed_multi set_fwd_speed_multi set_rwd_speed_multi
       filament_density empty_spool_weight max_motor_rpm].
  apply get_float_bounds in Ef, Er.
  split; [destruct Ef as [[-> ->] | [-> Hb]]; [left | right]; split; auto |].
  split; [destruct Er as [[-> ->] | [-> Hb]]; [left | right]; split; auto |].
  split; [reflexivity |].
  split.
  { intros (Hrho & He & Hmax & Hf & Hr).
    repeat split; try assumption.
    - destruct Ef as [[_ ->] | [_ Hb]]; [assumption | lra].
    - destruct Er as [[_ ->] | [_ Hb]]; [assumption | lra]. }
  split.
  { intros Hf Hr. split.
    - destruct Ef as [[_ ->] | [_ Hb]]; assumption.
    - destruct Er as [[_ ->] | [_ Hb]]; assumption. }
  destruct (Req_dec_T fwd (fwd_speed_multi c)) as [E1 | N1];
    destruct (Req_dec_T rwd (rwd_speed_multi c)) as [E2 | N2]; cbn [orb app].
  - split; [intros _; split; assumption | reflexivity].
  - split; [discriminate | intros [_ E]; contradiction].
  - split; [discriminate | intros [E _]; contradiction].
  - split; [discriminate | intros [E _]; contradiction].
Qed.

Lemma speed_multiplier_set_witness :
  exists c' logs,
    cmd_SET_SPEED_MULTIPLIER Absent (Given 0.9) default_config = (None, c', logs) /\
    ((Absent = Absent /\ fwd_speed_multi c' = fwd_speed_multi default_config) \/
     (Absent = Given (fwd_speed_multi c') /\ 0 <= fwd_speed_multi c' <= 1)) /\
    ((Given 0.9 = Absent /\ rwd_speed_multi c' = rwd_speed_multi default_config) \/
     (Given 0.9 = Given (rwd_speed_multi c') /\ 0 <= rwd_speed_multi c' <= 1)) /\
    c' = set_rwd_speed_multi (rwd_speed_multi c')
           (set_fwd_speed_multi (fwd_speed_multi c') default_config) /\
    (spool_ok default_config -> spool_ok c') /\
    (0 <= fwd_speed_multi default_config <= 1 ->
     0 <= rwd_speed_multi default_config <= 1 ->
     0 <= fwd_speed_multi c' <= 1 /\ 0 <= rwd_speed_multi c' <= 1) /\
    (logs = [] <->
     fwd_speed_multi c' = fwd_speed_multi default_config /\
     rwd_speed_multi c' = rwd_speed_multi default_config).
Proof.
  assert (E : exists c' logs,
            cmd_SET_SPEED_MULTIPLIER Absent (Given 0.9) default_config = (None, c', logs)).
  { unfold cmd_SET_SPEED_MULTIPLIER, get_float.
    destruct (Rlt_dec 0.9 0) as [L | _]; [lra |].
    destruct (Rgt_dec 0.9 1) as [G | _]; [lra |].
    eexists _, _. reflexivity. }
  destruct E as (c' & logs & E). exists c', logs.
  split; [exact E |].
  apply (speed_multiplier_set Absent (Given 0.9) default_config c' logs E).
Defined.

(** X26: a rejected [SET_SPEED_MULTIPLIER] may be half applied. When [FWD]
    is accepted and [RWD] is out of range, the command ends in the range
    error, nothing is logged, and the forward multiplier has already been
    changed; the reverse multiplier and the rest of the configuration are
    as before. *)
Theorem speed_multiplier_half_applied (fwd rwd : R) (c : lane_config) :
  0 <= fwd <= 1 -> rwd < 0 \/ 1 < rwd ->
  cmd_SET_SPEED_MULTIPLIER (Given fwd) (Given rwd) c =
    (Some (if Rlt_dec rwd 0 then BelowMinimum else AboveMaximum),
     set_fwd_speed_multi fwd c, []) /\
  fwd_speed_multi (set_fwd_speed_multi fwd c) = fwd /\
  rwd_speed_multi (set_fwd_speed_multi fwd c) = rwd_speed_multi c.
Proof.
  intros Hf Hr. unfold cmd_SET_SPEED_MULTIPLIER, get_float.
  destruct (Rlt_dec fwd 0) as [L | _]; [lra |].
  destruct (Rgt_dec fwd 1) as [G | _]; [lra |].
  destruct (Rlt_dec rwd 0) as [L | G].
  - repeat split.
  - destruct (Rgt_dec rwd 1) as [_ | N]; [repeat split | lra].
Qed.

Lemma speed_multiplier_half_applied_witness :
  cmd_SET_SPEED_MULTIPLIER (Given 0.2) (Given 1.5) default_config =
    (Some (if Rlt_dec 1.5 0 then BelowMinimum else AboveMaximum),
     set_fwd_speed_multi 0.2 default_config, []) /\
  fwd_speed_multi (set_fwd_speed_multi 0.2 default_config) = 0.2 /\
  rwd_speed_multi (set_fwd_speed_multi 0.2 default_config)
    = rwd_speed_multi default_config.
Proof.
  apply (speed_multiplier_half_applied 0.2 1.5 default_config); lra.
Defined.

(** ** The prep callback *)

Section PrepRuns.

Variable Sensor : Type.
Variable env : environment Sensor.
Variable afc : afc_view.
Variable pc : prep_config.

Local Open Scope prep_scope.

Lemma hbind_run {A B : Type} (m : Callback Sensor A) (k : A -> Callback Sensor B)
    h a h1 l1 o h2 l2 :
  m h = (Returned a, h1, l1) -> k a h1 = (o, h2, l2) ->
  hbind m k h = (o, h2, l1 ++ l2).
Proof. intros E1 E2. unfold hbind. rewrite E1, E2. reflexivity. Qed.

Lemma lane_events_app (l1 l2 : list prep_event) :
  lane_events (l1 ++ l2) = lane_events l1 ++ lane_events l2.
Proof.
  induction l1 as [| e l1 IH]; [reflexivity |].
  destruct e; cbn [app lane_events]; rewrite IH; reflexivity.
Qed.

Lemma lane_events_on_lane (l : list event) : lane_events (map OnLane l) = l.
Proof. induction l as [| e l IH]; [reflexivity |]. cbn. rewrite IH. reflexivity. Qed.

Lemma hbind_get {B : Type} (k : prep_lane Sensor -> Callback Sensor B) h :
  hbind hget k h = k h h.
Proof. unfold hbind, hget. destruct (k h h) as [[o h2] l2]. reflexivity. Qed.

(** The callback up to the body of its loop. *)
Lemma prep_callback_entry (fuel : nat) (eventtime : R) (state : bool) (h : prep_lane Sensor) :
  let h0 := set_last_prep_time eventtime (with_lane (set_prep_state state) h) in
  prep_callback env afc pc fuel eventtime state h =
    if prep_active h then (Returned None, h0, [])
    else if is_string (hub pc) "direct" && require_home afc && negb (is_homed afc) then
      (Returned (Some false), h0, [PrepError MsgHomeFirst (Some false)])
    else
      match prep_body env afc pc fuel (eventtime - last_prep_time h)
              (set_prep_active true h0) with
      | (Returned _, h1, l1) => (Returned None, set_prep_active false h1, l1 ++ [SaveVars])
      | (Raised e, h1, l1) => (Raised e, h1, l1)
      | (RaisedKeyError, h1, l1) => (RaisedKeyError, h1, l1)
      | (Hung, h1, l1) => (Hung, h1, l1)
      end.
Proof.
  intros h0. unfold prep_callback, hbind, hmodify, hget, hemit, hret.
  cbn [prep_active with_lane set_last_prep_time last_prep_time].
  destruct (prep_active h); [reflexivity |].
  destruct (is_string (hub pc) "direct" && require_home afc && negb (is_homed afc));
    [reflexivity |].
  fold h0.
  destruct (prep_body env afc pc fuel (eventtime - last_prep_time h)
              (set_prep_active true h0)) as [[o h1] l1].
  destruct o; reflexivity.
Qed.

Lemma kg_ret {A : Type} (a : A) : keeps_guard (@hret Sensor A a).
Proof. intros h. reflexivity. Qed.

Lemma kg_get : keeps_guard (@hget Sensor).
Proof. intros h. reflexivity. Qed.

Lemma kg_emit (e : prep_event) : keeps_guard (@hemit Sensor e).
Proof. intros h. reflexivity. Qed.

Lemma kg_lookup (known : bool) : keeps_guard (@lanes_lookup Sensor known).
Proof. intros h. unfold lanes_lookup. destruct known; reflexivity. Qed.

Lemma kg_modify (f : prep_lane Sensor -> prep_lane Sensor) :
  (forall h, prep_active (f h) = prep_active h) -> keeps_guard (hmodify f).
Proof. intros Hf h. apply Hf. Qed.

Lemma kg_on_lane {A : Type} (m : M Sensor A) : keeps_guard (on_lane afc m).
Proof.
  intros h. unfold on_lane. destruct (m (the_lane h)) as [[o s] l]. reflexivity.
Qed.

Lemma kg_bind {A B : Type} (m : Callback Sensor A) (k : A -> Callback Sensor B) :
  keeps_guard m -> (forall a, keeps_guard (k a)) -> keeps_guard (hbind m k).
Proof.
  intros Hm Hk h. unfold hbind. specialize (Hm h).
  destruct (m h) as [[o h1] l1]. cbn [fst snd] in Hm.
  destruct o as [a | e | |]; try exact Hm.
  specialize (Hk a h1). destruct (k a h1) as [[o2 h2] l2]. cbn [fst snd] in *.
  congruence.
Qed.

Ltac kg_step :=
  first
    [ apply kg_ret
    | apply kg_get
    | apply kg_emit
    | apply kg_lookup
    | apply kg_on_lane
    | apply kg_modify; intros ?; reflexivity
    | apply kg_bind; [| intros ?]
    | match goal with
      | |- keeps_guard (if ?c then _ else _) => destruct c
      end ].

Lemma kg_prep_body (fuel : nat) (delta_time : R) :
  keeps_guard (prep_body env afc pc fuel delta_time).
Proof.
  unfold prep_body, auto_load, runout. repeat kg_step.
Qed.

Lemma lla_ret {A : Type} (a : A) : leaves_lane_alone (@hret Sensor A a).
Proof. intros h. reflexivity. Qed.

Lemma lla_modify (f : prep_lane Sensor -> prep_lane Sensor) : leaves_lane_alone (hmodify f).
Proof. intros h. reflexivity. Qed.

Lemma lla_lookup (known : bool) : leaves_lane_alone (@lanes_lookup Sensor known).
Proof. intros h. unfold lanes_lookup. destruct known; reflexivity. Qed.

Lemma lla_emit (e : prep_event) :
  lane_events [e] = [] -> leaves_lane_alone (@hemit Sensor e).
Proof. intros H h. exact H. Qed.

Lemma lla_bind {A B : Type} (m : Callback Sensor A) (k : A -> Callback Sensor B) :
  leaves_lane_alone m -> (forall a, leaves_lane_alone (k a)) ->
  leaves_lane_alone (hbind m k).
Proof.
  intros Hm Hk h. unfold hbind. specialize (Hm h).
  destruct (m h) as [[o h1] l1]. cbn [snd] in Hm.
  destruct o as [a | e | |]; try exact Hm.
  specialize (Hk a h1). destruct (k a h1) as [[o2 h2] l2]. cbn [snd] in *.
  rewrite lane_events_app, Hm, Hk. reflexivity.
Qed.

Ltac lla_step :=
  first
    [ apply lla_ret
    | apply lla_modify
    | apply lla_lookup
    | apply lla_emit; reflexivity
    | apply lla_bind; [| intros ?]
    | match goal with
      | |- leaves_lane_alone (if ?c then _ else _) => destruct c
      end ].

Ltac lla_apply :=
  match goal with
  | |- lane_events (snd (?m ?x)) = [] =>
      let Hm := fresh "Hm" in
      assert (Hm : leaves_lane_alone m) by (repeat lla_step);
      exact (Hm x)
  end.

Lemma lla_runout : leaves_lane_alone (@runout Sensor afc pc).
Proof. unfold runout. repeat lla_step. Qed.

(** X27: the prep callback runs the lane's motion code only when the way is
    clear. Whenever a call enables the stepper, queues a segment or
    commands the assist motor, the call was not re-entrant, the edge was a
    rising one with the load sensor not triggered, the printer was ready
    and prepared and not unloading a tool, at least one second had passed
    since the previous prep edge, the printer was not moving, and a direct
    hub that requires homing was homed. *)
Theorem prep_callback_acts_only_when_clear (fuel : nat) (eventtime : R) (state : bool)
    (h h' : prep_lane Sensor) (o : prep_outcome (option bool)) (l : list prep_event) :
  prep_callback env afc pc fuel eventtime state h = (o, h', l) ->
  lane_events l = [] \/
  (prep_active h = false /\ state = true /\ load_state (the_lane h) = false /\
   printer_is_ready afc = true /\ _afc_prep_done h = true /\
   is_string (status (the_lane h)) "Tool Unloading" = false /\
   1 <= eventtime - last_prep_time h /\
   is_printing_or_moving afc = false /\
   is_string (hub pc) "direct" && require_home afc && negb (is_homed afc) = false).
Proof.
  rewrite prep_callback_entry. cbv zeta.
  destruct (prep_active h) eqn:Eactive.
  { intros E. inversion E. left. reflexivity. }
  destruct (is_string (hub pc) "direct" && require_home afc && negb (is_homed afc)) eqn:Ehome.
  { intros E. inversion E. left. reflexivity. }
  set (h0 := set_prep_active true
               (set_last_prep_time eventtime (with_lane (set_prep_state state) h))).
  assert (Hbody :
    lane_events (snd (prep_body env afc pc fuel (eventtime - last_prep_time h) h0)) = [] \/
    (state = true /\ load_state (the_lane h) = false /\
     printer_is_ready afc = true /\ _afc_prep_done h = true /\
     is_string (status (the_lane h)) "Tool Unloading" = false /\
     1 <= eventtime - last_prep_time h /\
     is_printing_or_moving afc = false)).
  { unfold prep_body. rewrite hbind_get. cbv zeta.
    cbn [the_lane h0 set_prep_active set_last_prep_time with_lane _afc_prep_done
         prep_state load_state status set_prep_state].
    destruct (printer_is_ready afc) eqn:Eready; [| left; reflexivity].
    destruct (_afc_prep_done h) eqn:Edone; [| left; reflexivity].
    destruct (is_string (status (the_lane h)) "Tool Unloading") eqn:Estatus;
      [left; reflexivity |].
    cbn [andb negb].
    destruct state; cbn [andb negb].
    - destruct (load_state (the_lane h)) eqn:Eload; cbn [andb negb].
      + left. destruct (is_printing afc); cbn [negb]; lla_apply.
      + unfold auto_load.
        destruct (Rlt_dec (eventtime - last_prep_time h) 1) as [L | G];
          [left; reflexivity |].
        destruct (is_printing_or_moving afc) eqn:Emoving; [left; reflexivity |].
        right. repeat split. lra.
    - left.
      destruct (is_current afc && is_printing afc && load_state (the_lane h)
                && negb (is_string (status (the_lane h)) "ejecting")).
      + apply lla_runout.
      + lla_apply. }
  destruct (prep_body env afc pc fuel (eventtime - last_prep_time h) h0) as [[o1 h1] l1].
  cbn [snd] in Hbody.
  intros E.
  assert (El : lane_events l = lane_events l1).
  { destruct o1; inversion E; subst; try reflexivity.
    rewrite lane_events_app. cbn [lane_events]. apply app_nil_r. }
  rewrite El. destruct Hbody as [Hnone | Hclear]; [left; exact Hnone |].
  right. split; [reflexivity |].
  destruct Hclear as (H1 & H2 & H3 & H4 & H5 & H6 & H7).
  repeat split; assumption.
Qed.

(** X28: the re-entrancy guard of the prep callback. A call that finds the
    guard set records the level and the time of the edge and does nothing
    else. A call that finds it clear either refuses at once (a direct hub
    that is not homed: it reports and returns [False] with the guard still
    clear), or it runs the body with the guard set, and then every return
    clears the guard again and saves the lane variables as its last action;
    it never returns [True]. When the body raises or does not terminate,
    the guard stays set. *)
Theorem prep_callback_guard (fuel : nat) (eventtime : R) (state : bool)
    (h h' : prep_lane Sensor) (o : prep_outcome (option bool)) (l : list prep_event) :
  prep_callback env afc pc fuel eventtime state h = (o, h', l) ->
  (prep_active h = true ->
     o = Returned None /\ l = [] /\
     h' = set_last_prep_time eventtime (with_lane (set_prep_state state) h)) /\
  (prep_active h = false ->
     match o with
     | Returned None => prep_active h' = false /\ exists l0, l = l0 ++ [SaveVars]
     | Returned (Some false) =>
         prep_active h' = false /\ l = [PrepError MsgHomeFirst (Some false)] /\
         is_string (hub pc) "direct" && require_home afc && negb (is_homed afc) = true
     | Returned (Some true) => False
     | _ => prep_active h' = true
     end).
Proof.
  rewrite prep_callback_entry. cbv zeta.
  destruct (prep_active h) eqn:Eactive.
  { intros E. inversion E. split; [intros _; repeat split | discriminate]. }
  intros H. split; [discriminate | intros _].
  destruct (is_string (hub pc) "direct" && require_home afc && negb (is_homed afc)) eqn:Ehome.
  { inversion H. cbn. repeat split. exact Eactive. }
  pose proof (kg_prep_body fuel (eventtime - last_prep_time h)
                (set_prep_active true
                   (set_last_prep_time eventtime (with_lane (set_prep_state state) h))))
    as Hkeep.
  destruct (prep_body env afc pc fuel (eventtime - last_prep_time h)
              (set_prep_active true
                 (set_last_prep_time eventtime (with_lane (set_prep_state state) h))))
    as [[o1 h1] l1].
  cbn [fst snd prep_active set_prep_active] in Hkeep.
  destruct o1; inversion H; subst; try exact Hkeep.
  split; [reflexivity | eexists; reflexivity].
Qed.

(** X29: a lane is loaded when filament is inserted. On a rising prep edge
    with the way clear (see above), a hub that is not direct, no fast load
    to the hub pending and a positive segment limit, the callback returns
    once it has fuel for the load retry. It leaves the guard clear, the
    stepper disabled as the last thing done to the lane, and the lane
    variables saved as its last action; the status is "Loaded" exactly when
    the load and the prep sensor are both triggered at the end, and the
    empty string otherwise; and the failure of the retry was reported once
    or not at all. *)
Theorem prep_callback_loads_lane (eventtime : R) (h : prep_lane Sensor) :
  prep_active h = false ->
  is_string (hub pc) "direct" = false ->
  printer_is_ready afc = true -> _afc_prep_done h = true ->
  is_string (status (the_lane h)) "Tool Unloading" = false ->
  load_state (the_lane h) = false ->
  1 <= eventtime - last_prep_time h ->
  is_printing_or_moving afc = false ->
  load_to_hub pc && negb (loaded_to_hub h) = false ->
  0 < max_move_dis (config (the_lane h)) ->
  exists n, forall fuel, (n <= fuel)%nat ->
    exists h' l,
      prep_callback env afc pc fuel eventtime true h = (Returned None, h', l) /\
      prep_active h' = false /\
      status (the_lane h') =
        Some (if load_state (the_lane h') && prep_state (the_lane h')
              then "Loaded"%string else EmptyString) /\
      last (lane_events l) (MotorEnable true) = MotorEnable false /\
      last l (OnLane LedFault) = SaveVars /\
      (fault_reports (lane_events l) = 0%nat \/ fault_reports (lane_events l) = 2%nat).
Proof.
  intros Hactive Hhub Hready Hdone Hstatus Hload Hdelta Hmoving Hfast Hmax.
  set (s0 := set_prep_state true (the_lane h)).
  destruct (load_retry_run Sensor env s0) as (n & Hn); [exact Hmax |].
  exists n. intros fuel Hfuel.
  destruct (Hn fuel Hfuel) as (x & s1 & l1 & Erun & _ & _ & _ & Hst & _).
  pose proof (wp_run _ _ _ _ _ _ _ Erun (load_retry_faults Sensor env fuel s0) x eq_refl)
    as Hfaults.
  rewrite prep_callback_entry. cbv zeta. rewrite Hactive, Hhub. cbn [andb].
  unfold prep_body. rewrite hbind_get. cbv zeta.
  cbn [the_lane set_prep_active set_last_prep_time with_lane _afc_prep_done
       prep_state load_state status set_prep_state].
  rewrite Hready, Hdone, Hstatus, Hload. cbn [andb negb].
  unfold auto_load.
  destruct (Rlt_dec (eventtime - last_prep_time h) 1) as [L | _]; [lra |].
  rewrite Hmoving, Hhub. cbn [andb].
  unfold hbind, on_lane, hget, hmodify, hemit, hret, do_enable, emit.
  cbn [the_lane set_prep_active set_last_prep_time with_lane loaded_to_hub
       prep_active last_prep_time _afc_prep_done material].
  fold s0. rewrite Erun.
  cbn [the_lane loaded_to_hub prep_active last_prep_time _afc_prep_done material].
  rewrite Hfast. cbn [andb].
  assert (Hlast : forall (mid : list prep_event),
            lane_events mid = [] ->
            let l := (map OnLane l1 ++ [] ++ [] ++
                      map OnLane [MotorEnable false] ++ [] ++ mid) ++ [SaveVars] in
            last (lane_events l) (MotorEnable true) = MotorEnable false /\
            last l (OnLane LedFault) = SaveVars /\
            (fault_reports (lane_events l) = 0%nat \/
             fault_reports (lane_events l) = 2%nat)).
  { intros mid Hmid l. unfold l.
    split; [| split; [apply last_last |]];
      rewrite !lane_events_app, lane_events_on_lane, Hmid; cbn [lane_events map app];
      rewrite ?app_nil_r.
    - apply last_last.
    - rewrite fault_reports_app, Hfaults. cbn [fault_reports].
      destruct (x <? 41)%Z; [left | right]; reflexivity. }
  cbn [the_lane with_lane set_material set_prep_active prep_active status set_status
       load_state prep_state].
  destruct (load_state s1 && prep_state s1) eqn:Eboth;
    cbn [the_lane with_lane set_material set_prep_active prep_active status set_status
         load_state prep_state];
    eexists _, _; (split; [reflexivity |]); cbn [the_lane prep_active set_prep_active
         status set_status load_state prep_state with_lane set_material];
    rewrite Eboth; (split; [reflexivity |]); (split; [try reflexivity; exact Hst |]);
    match goal with
    | |- context [(map OnLane l1 ++ [] ++ [] ++
                   map OnLane [MotorEnable false] ++ [] ++ ?mid) ++ [SaveVars]] =>
        exact (Hlast mid eq_refl)
    end.
Qed.

End PrepRuns.

Lemma prep_callback_acts_only_when_clear_witness :
  exists o h' l,
    prep_callback (scripted spin_then_silence) idle_printer hub_config 1 5 true
      (prepared_lane false) = (o, h', l) /\
    (lane_events l = [] \/
     (prep_active (prepared_lane false) = false /\ true = true /\
      load_state (the_lane (prepared_lane false)) = false /\
      printer_is_ready idle_printer = true /\
      _afc_prep_done (prepared_lane false) = true /\
      is_string (status (the_lane (prepared_lane false))) "Tool Unloading" = false /\
      1 <= 5 - last_prep_time (prepared_lane false) /\
      is_printing_or_moving idle_printer = false /\
      is_string (hub hub_config) "direct" && require_home idle_printer
        && negb (is_homed idle_printer) = false)).
Proof.
  destruct (prep_callback (scripted spin_then_silence) idle_printer hub_config 1 5 true
              (prepared_lane false)) as [[o h'] l] eqn:E.
  exists o, h', l. split; [reflexivity |].
  exact (prep_callback_acts_only_when_clear nat (scripted spin_then_silence)
           idle_printer hub_config 1 5 true (prepared_lane false) h' o l E).
Defined.

Lemma prep_callback_guard_witness :
  exists o h' l,
    prep_callback (scripted spin_then_silence) idle_printer hub_config 1 5 true
      (prepared_lane true) = (o, h', l) /\
    (prep_active (prepared_lane true) = true ->
       o = Returned None /\ l = [] /\
       h' = set_last_prep_time 5 (with_lane (set_prep_state true) (prepared_lane true))) /\
    (prep_active (prepared_lane true) = false ->
       match o with
       | Returned None => prep_active h' = false /\ exists l0, l = l0 ++ [SaveVars]
       | Returned (Some false) =>
           prep_active h' = false /\ l = [PrepError MsgHomeFirst (Some false)] /\
           is_string (hub hub_config) "direct" && require_home idle_printer
             && negb (is_homed idle_printer) = true
       | Returned (Some true) => False
       | _ => prep_active h' = true
       end).
Proof.
  destruct (prep_callback (scripted spin_then_silence) idle_printer hub_config 1 5 true
              (prepared_lane true)) as [[o h'] l] eqn:E.
  exists o, h', l. split; [reflexivity |].
  exact (prep_callback_guard nat (scripted spin_then_silence)
           idle_printer hub_config 1 5 true (prepared_lane true) h' o l E).
Defined.

Lemma prep_callback_loads_lane_witness :
  exists n, forall fuel, (n <= fuel)%nat ->
    exists h' l,
      prep_callback (scripted spin_then_silence) idle_printer hub_config fuel 5 true
        (prepared_lane false) = (Returned None, h', l) /\
      prep_active h' = false /\
      status (the_lane h') =
        Some (if load_state (the_lane h') && prep_state (the_lane h')
              then "Loaded"%string else EmptyString) /\
      last (lane_events l) (MotorEnable true) = MotorEnable false /\
      last l (OnLane LedFault) = SaveVars /\
      (fault_reports (lane_events l) = 0%nat \/ fault_reports (lane_events l) = 2%nat).
Proof.
  apply (prep_callback_loads_lane nat (scripted spin_then_silence) idle_printer hub_config
           5 (prepared_lane false)); try reflexivity.
  - cbn. lra.
  - cbn. lra.
Defined.

(** ** The tension rewind when the tension is found *)

(** X30: the tension rewind finds the tension. On a lane with nonzero
    channel scales and a positive [tension_max_time], when the first sample
    of the wheel sensor is above [tension_baseline_min_rpm] and the second
    is below that baseline times [tension_drop_fraction], the rewind
    returns after these two samples: it commanded the reverse duty, at most
    one correction of 0.05 towards the baseline, and then 0, and its last
    message reports the cutoff [baseline * tension_drop_fraction]. *)
Theorem rewind_finds_tension {Sensor : Type} (env : environment Sensor)
    (fuel : nat) (speed p r0 r1 m0 m1 : R) (st st1 st2 : Sensor) (s : lane Sensor) :
  wheel_sensor s = Some st ->
  bound (afc_motor_rwd (config s)) = true ->
  scales_ok (config s) ->
  calculate_pwm_value (config s) (remaining_weight s) speed true = Ok p ->
  (forall now, sensor_get_rpm env now st = (Ok (Some r0, Some m0), st1)) ->
  (forall now, sensor_get_rpm env now st1 = (Ok (Some r1, Some m1), st2)) ->
  tension_baseline_min_rpm (config s) < r0 ->
  r1 < r0 * tension_drop_fraction (config s) ->
  0 < tension_max_time (config s) ->
  exists s' l,
    rewind_until_tension env (S (S fuel)) speed s = (Ret tt, s', l) /\
    assist_calls l =
      [- p] ++
      (if Rlt_dec r1 (r0 * 0.9) then [Rmax (- p - 0.05) (-1)]
       else if Rgt_dec r1 (r0 * 1.1) then [Rmin (- p + 0.05) 0] else []) ++
      [0] /\
    last l LedFault
      = RespondInfo (MsgTensionDetected (r0 * tension_drop_fraction (config s))) /\
    wheel_sensor s' = Some st2.
Proof.
  intros Hs Hrwd Hscales Hp Hfirst Hsecond Hbase Hdrop Hmax.
  pose proof (calculate_pwm_value_range _ _ _ _ _ Hp) as Hrange.
  assert (Hwp : wp (rewind_until_tension env (S (S fuel)) speed) s
            (fun o s' l =>
               o = Ret tt /\
               assist_calls l =
                 [- p] ++
                 (if Rlt_dec r1 (r0 * 0.9) then [Rmax (- p - 0.05) (-1)]
                  else if Rgt_dec r1 (r0 * 1.1) then [Rmin (- p + 0.05) 0] else []) ++
                 [0] /\
               last l LedFault
                 = RespondInfo (MsgTensionDetected
                                  (r0 * tension_drop_fraction (config s))) /\
               wheel_sensor s' = Some st2)).
  2: { apply wp_elim in Hwp. destruct Hwp as (o & s' & l & E & -> & H).
       exists s', l. split; assumption. }
  set (fuel1 := S fuel). unfold rewind_until_tension. apply wp_bind_get. rewrite Hs.
  destruct (afc_motor_rwd (config s)) as [rwd |] eqn:Erwd; [| discriminate Hrwd].
  eapply wp_bind_lane_pwm_value; [exact Hp |].
  destruct (Rgt_dec p 1) as [G | _]; [lra |].
  destruct (assist_shape Sensor env (- p) s Hscales)
    as (s1 & l1 & E1 & Hl1 & Hc1 & Hw1 & _ & _ & _ & _).
  eapply wp_bind_run; [exact E1 |].
  apply wp_bind_get.
  (* baseline *)
  rewrite baseline_loop_unfold. apply wp_bind_assoc. apply wp_bind_get.
  replace (monotonic s1 - monotonic s1) with 0 by ring.
  destruct (Rlt_dec 0 2) as [_ | N]; [| lra].
  apply wp_bind_assoc.
  eapply wp_bind_sensor_read; [rewrite Hw1; exact Hs | apply Hfirst |].
  cbn [fst]. rewrite Hc1.
  destruct (Rgt_dec r0 (tension_baseline_min_rpm (config s))) as [_ | N]; [| lra].
  apply wp_bind_ret. cbn [fst snd].
  (* regulation *)
  unfold fuel1. rewrite regulation_loop_unfold. apply wp_bind_assoc. apply wp_bind_get.
  cbn [monotonic set_wheel_sensor config].
  replace (monotonic s1 - monotonic s1) with 0 by ring.
  rewrite Hc1.
  destruct (Rlt_dec 0 (tension_max_time (config s))) as [_ | N]; [| lra].
  apply wp_bind_assoc.
  eapply wp_bind_sensor_read; [reflexivity | apply Hsecond |].
  cbn [fst]. apply wp_bind_assoc.
  set (s2 := set_wheel_sensor (Some st2) (set_wheel_sensor (Some st1) s1)).
  assert (Hc2 : config s2 = config s) by (cbn [s2 config set_wheel_sensor]; exact Hc1).
  assert (Htail : forall (s3 : lane Sensor) (v : R),
            config s3 = config s -> wheel_sensor s3 = Some st2 ->
            wp (rpm <- (if Rlt_dec r1 (r0 * tension_drop_fraction (config s))
                        then ret (Some r1, Some m1)
                        else reactor_pause env 0.1 ;;
                             regulation_loop env (S fuel) (monotonic s1)
                               (r0 * tension_drop_fraction (config s)) r0 v
                               (Some r1, Some m1)) ;;
                wheel_rpm <- lift (format_1f (fst rpm)) ;;
                motor_rpm <- lift (format_1f (snd rpm)) ;;
                emit (RespondInfo (MsgRpm wheel_rpm motor_rpm)) ;;
                assist env 0 ;;
                emit (RespondInfo (MsgTensionDetected
                                     (r0 * tension_drop_fraction (config s)))))%lane
               s3
               (fun o s' l =>
                  o = Ret tt /\ assist_calls l = [0] /\
                  (exists l0, l = l0 ++ [RespondInfo (MsgTensionDetected
                                           (r0 * tension_drop_fraction (config s)))]) /\
                  wheel_sensor s' = Some st2)).
  { intros s3 v Hc3 Hw3.
    destruct (Rlt_dec r1 (r0 * tension_drop_fraction (config s))) as [_ | N]; [| lra].
    apply wp_bind_ret. cbn [fst snd format_1f].
    apply wp_bind_lift. apply wp_bind_lift. apply wp_bind_emit.
    destruct (assist_shape Sensor env 0 s3) as (s4 & l4 & E4 & Hl4 & _ & Hw4 & _);
      [rewrite Hc3; exact Hscales |].
    eapply wp_bind_run; [exact E4 |].
    apply wp_emit.
    split; [reflexivity |].
    split.
    { cbn [assist_calls app]. rewrite assist_calls_app, Hl4. reflexivity. }
    split.
    { eexists. cbn [app]. rewrite !app_comm_cons. reflexivity. }
    congruence. }
  assert (Hfinish : forall (mid : list event) (calls : list R),
            assist_calls mid = calls ->
            forall o s' l,
              (o = Ret tt /\ assist_calls l = [0] /\
               (exists l0, l = l0 ++ [RespondInfo (MsgTensionDetected
                                        (r0 * tension_drop_fraction (config s)))]) /\
               wheel_sensor s' = Some st2) ->
              o = Ret tt /\
              assist_calls ((Assist (- p) :: l1) ++ [] ++ [] ++ [] ++ [] ++ mid ++ l)
                = [- p] ++ calls ++ [0] /\
              last ((Assist (- p) :: l1) ++ [] ++ [] ++ [] ++ [] ++ mid ++ l) LedFault
                = RespondInfo (MsgTensionDetected
                                 (r0 * tension_drop_fraction (config s))) /\
              wheel_sensor s' = Some st2).
  { intros mid calls Hmid o s' l (Ho & Hl & (l0 & El) & Hw).
    split; [exact Ho |]. split; [| split; [| exact Hw]].
    - cbn [app assist_calls]. rewrite !assist_calls_app, Hl1, Hmid, Hl. reflexivity.
    - rewrite El. cbn [app]. rewrite ?app_comm_cons, ?app_assoc. apply last_last. }
  destruct (Rlt_dec r1 (r0 * 0.9)) as [Low | NotLow].
  - apply wp_bind_assoc.
    destruct (assist_shape Sensor env (Rmax (- p - 0.05) (-1)) s2)
      as (s3 & l3 & E3 & Hl3 & Hc3 & Hw3 & _); [rewrite Hc2; exact Hscales |].
    eapply wp_bind_run; [exact E3 |].
    apply wp_bind_ret.
    eapply wp_mono; [apply (Htail s3); [congruence | rewrite Hw3; reflexivity] |].
    intros o s' l Hpost.
    apply (Hfinish (Assist (Rmax (- p - 0.05) (-1)) :: l3) [Rmax (- p - 0.05) (-1)]);
      [cbn [assist_calls]; rewrite Hl3; reflexivity | exact Hpost].
  - destruct (Rgt_dec r1 (r0 * 1.1)) as [High | NotHigh].
    + apply wp_bind_assoc.
      destruct (assist_shape Sensor env (Rmin (- p + 0.05) 0) s2)
        as (s3 & l3 & E3 & Hl3 & Hc3 & Hw3 & _); [rewrite Hc2; exact Hscales |].
      eapply wp_bind_run; [exact E3 |].
      apply wp_bind_ret.
      eapply wp_mono; [apply (Htail s3); [congruence | rewrite Hw3; reflexivity] |].
      intros o s' l Hpost.
      apply (Hfinish (Assist (Rmin (- p + 0.05) 0) :: l3) [Rmin (- p + 0.05) 0]);
        [cbn [assist_calls]; rewrite Hl3; reflexivity | exact Hpost].
    + apply wp_bind_ret.
      eapply wp_mono; [apply (Htail s2); [exact Hc2 | reflexivity] |].
      intros o s' l Hpost.
      apply (Hfinish [] []); [reflexivity | exact Hpost].
Qed.

Lemma rewind_finds_tension_witness :
  let s := lane_at_rest default_config (Some O) false false in
  exists p s' l,
    calculate_pwm_value (config s) (remaining_weight s) 50 true = Ok p /\
    rewind_until_tension (scripted spin_then_slack) 2 50 s = (Ret tt, s', l) /\
    assist_calls l =
      [- p] ++
      (if Rlt_dec 4 (20 * 0.9) then [Rmax (- p - 0.05) (-1)]
       else if Rgt_dec 4 (20 * 1.1) then [Rmin (- p + 0.05) 0] else []) ++
      [0] /\
    last l LedFault
      = RespondInfo (MsgTensionDetected (20 * tension_drop_fraction (config s))) /\
    wheel_sensor s' = Some 2%nat.
Proof.
  intros s.
  destruct (calculate_pwm_value_total default_config 1000 50 true default_config_ok)
    as (p & Hp & _).
  exists p.
  destruct (rewind_finds_tension (scripted spin_then_slack) 0 50 p 20 4 20 4
              0%nat 1%nat 2%nat s) as (s' & l & H).
  - reflexivity.
  - reflexivity.
  - exact default_scales_ok.
  - exact Hp.
  - intros now. reflexivity.
  - intros now. reflexivity.
  - cbn. lra.
  - cbn. lra.
  - cbn. lra.
  - exists s', l. split; [exact Hp | exact H].
Defined.
